(** * Traffic analyzer: capture hooks, exchange store, analysis engine, export

    A shallow embedding of the capture-and-analysis pipeline of the
    repository:

    - [proxy_server.py] : [TrafficCapture] (the mitmproxy addon) and the
      [ProxyManager] handlers;
    - [bin/traffic_analyzer.py] : the second [TrafficCapture], the CLI
      HAR export and the search;
    - [copilot_agent.py] : [CopilotAgent.analyze_request] with its rule
      sets, summary and insights, and [analyze_session];
    - [copilot_api.py] : [security_scan], the replay endpoints, the
      query and statistics endpoints and the exports of the API server.

    Conventions.  A Python [str] is a list of code points, [bytes] a list of
    [Byte.byte].  The [requests] table is a list of rows in rowid order with
    the AUTOINCREMENT counter next to it.  Code that raises returns in the
    [result] type; code that reads the clock or touches the table runs in a
    small state monad over [world].  Clock readings and durations are
    integers that count microseconds; the rounding of binary floating point
    is not modelled. *)

From Stdlib Require Import ZArith Bool Ascii String List Lia Permutation Sorted.
From Stdlib.Strings Require Import Byte.
Import ListNotations.
Open Scope Z_scope.

Set Warnings "-register-all".

(* ================================================================== *)
(** * Python values *)

Module Py.

(** A [str] is a sequence of Unicode code points. *)
Definition str := list Z.

(** [bytes.decode('utf-8', errors='ignore')].  A malformed sequence is
    skipped up to the first byte that cannot continue it (the lead byte
    alone when the second byte is wrong, two bytes when the third is wrong,
    and so on); a sequence cut short by the end of the data is skipped
    whole.  With [errors='ignore'] the call never raises. *)
Definition is_cont (b : Z) : bool := (0x80 <=? b) && (b <=? 0xBF).

Definition second_ok3 (b1 b2 : Z) : bool :=
  is_cont b2 &&
  negb (if b2 <? 0xA0 then b1 =? 0xE0 else b1 =? 0xED).

Definition second_ok4 (b1 b2 : Z) : bool :=
  is_cont b2 &&
  negb (if b2 <? 0x90 then b1 =? 0xF0 else b1 =? 0xF4).

Definition cp2 (b1 b2 : Z) : Z :=
  Z.lor (Z.shiftl (Z.land b1 0x1F) 6) (Z.land b2 0x3F).

Definition cp3 (b1 b2 b3 : Z) : Z :=
  Z.lor (Z.shiftl (Z.land b1 0x0F) 12)
        (Z.lor (Z.shiftl (Z.land b2 0x3F) 6) (Z.land b3 0x3F)).

Definition cp4 (b1 b2 b3 b4 : Z) : Z :=
  Z.lor (Z.shiftl (Z.land b1 0x07) 18)
        (Z.lor (Z.shiftl (Z.land b2 0x3F) 12)
               (Z.lor (Z.shiftl (Z.land b3 0x3F) 6) (Z.land b4 0x3F))).

Fixpoint utf8_ignore (bs : list Z) : str :=
  match bs with
  | [] => []
  | b1 :: r1 =>
      if b1 <? 0x80 then b1 :: utf8_ignore r1
      else if b1 <? 0xC2 then utf8_ignore r1
      else if b1 <? 0xE0 then
        match r1 with
        | [] => []
        | b2 :: r2 =>
            if is_cont b2 then cp2 b1 b2 :: utf8_ignore r2
            else utf8_ignore r1
        end
      else if b1 <? 0xF0 then
        match r1 with
        | [] => []
        | b2 :: r2 =>
            if second_ok3 b1 b2 then
              match r2 with
              | [] => []
              | b3 :: r3 =>
                  if is_cont b3 then cp3 b1 b2 b3 :: utf8_ignore r3
                  else utf8_ignore r2
              end
            else utf8_ignore r1
        end
      else if b1 <? 0xF5 then
        match r1 with
        | [] => []
        | b2 :: r2 =>
            if second_ok4 b1 b2 then
              match r2 with
              | [] => []
              | b3 :: r3 =>
                  if is_cont b3 then
                    match r3 with
                    | [] => []
                    | b4 :: r4 =>
                        if is_cont b4 then
                          cp4 b1 b2 b3 b4 :: utf8_ignore r4
                        else utf8_ignore r3
                    end
                  else utf8_ignore r2
              end
            else utf8_ignore r1
        end
      else utf8_ignore r1
  end.

Definition byte_val (b : byte) : Z := Z.of_N (Byte.to_N b).

Definition decode_ignore (content : list byte) : str :=
  utf8_ignore (map byte_val content).

(** A string literal of the source: the code points of its UTF-8 text. *)
Definition lit (s : string) : str :=
  utf8_ignore (map (fun a => Z.of_N (N_of_ascii a)) (list_ascii_of_string s)).

(** A literal of JSON text, written with an apostrophe wherever the text
    has a double quote. *)
Definition jlit (s : string) : str :=
  map (fun c => if c =? 39 then 34 else c) (lit s).

(** The bytes of an ASCII literal, for building request and response
    contents in examples. *)
Definition bytes_lit (s : string) : list byte :=
  map byte_of_ascii (list_ascii_of_string s).

(** [str.lower()] and [str.upper()]: the case mapping of the ASCII letters.
    Python also maps the cased code points outside ASCII; they are left
    alone here. *)
Definition lower_cp (c : Z) : Z :=
  if (65 <=? c) && (c <=? 90) then c + 32 else c.
Definition upper_cp (c : Z) : Z :=
  if (97 <=? c) && (c <=? 122) then c - 32 else c.
Definition lower (s : str) : str := map lower_cp s.
Definition upper (s : str) : str := map upper_cp s.

Fixpoint eqb (a b : str) : bool :=
  match a, b with
  | [], [] => true
  | x :: a', y :: b' => (x =? y) && eqb a' b'
  | _, _ => false
  end.

(** [s.startswith(p)] *)
Fixpoint startswith (s p : str) : bool :=
  match p, s with
  | [], _ => true
  | x :: p', y :: s' => (x =? y) && startswith s' p'
  | _ :: _, [] => false
  end.

(** [p in s] *)
Fixpoint contains (p s : str) : bool :=
  startswith s p ||
  match s with
  | [] => false
  | _ :: s' => contains p s'
  end.

(** [x in xs] for a list of strings *)
Definition mem (x : str) (xs : list str) : bool := existsb (eqb x) xs.

(** [str(n)] for a non-negative integer: its decimal digits. *)
Fixpoint digits_fuel (fuel : nat) (n : Z) (acc : str) : str :=
  match fuel with
  | O => acc
  | S f =>
      let acc' := (48 + n mod 10) :: acc in
      if n <? 10 then acc' else digits_fuel f (n / 10) acc'
  end.

Definition str_of_nat (n : Z) : str :=
  digits_fuel (S (Z.to_nat (Z.log2 n))) n [].

End Py.

(* ================================================================== *)
(** * Errors *)

(** The exceptions that the modelled code can raise. *)
Inductive exn :=
| ValueError        (* analyze_request: request not found *)
| JSONDecodeError   (* json.loads on text that is not JSON *)
| AttributeError.   (* a method looked up on a value that lacks it *)

Inductive result (A : Type) :=
| Ok (a : A)
| Raise (e : exn).
Arguments Ok {A} a.
Arguments Raise {A} e.

Definition rbind {A B} (r : result A) (k : A -> result B) : result B :=
  match r with
  | Ok a => k a
  | Raise e => Raise e
  end.

Declare Scope result_scope.
Delimit Scope result_scope with result.
Notation "x <- r ;; k" := (rbind r (fun x => k))
  (at level 61, r at next level, k at level 200) : result_scope.

Definition obind {A B} (o : option A) (k : A -> option B) : option B :=
  match o with
  | Some a => k a
  | None => None
  end.

Declare Scope option_scope.
Delimit Scope option_scope with option.
Notation "' p <- o ;; k" := (obind o (fun x => match x with p => k end))
  (at level 61, p pattern, o at next level, k at level 200) : option_scope.

(* ================================================================== *)
(** * JSON: the [json] module *)

Module Json.

(** What [json.loads] builds.  A number written without fraction and
    exponent is an [int]; any other number is a [float], kept as the
    decimal [m * 10^e] it was written as.  An object is a [dict]: its keys
    in insertion order, each key once. *)
Inductive value :=
| Null
| Bool (b : bool)
| Int (z : Z)
| Float (m e : Z)
| NaN
| Inf (negative : bool)
| Str (s : Py.str)
| Arr (l : list value)
| Obj (kv : list (Py.str * value)).

(** ** Dictionaries *)

Definition dict := list (Py.str * value).

(** [d.get(k)] ([None] when the key is missing) *)
Fixpoint get (d : dict) (k : Py.str) : option value :=
  match d with
  | [] => None
  | (k', v) :: d' => if Py.eqb k k' then Some v else get d' k
  end.

(** [d[k] = v] *)
Fixpoint set (d : dict) (k : Py.str) (v : value) : dict :=
  match d with
  | [] => [(k, v)]
  | (k', v') :: d' =>
      if Py.eqb k k' then (k', v) :: d' else (k', v') :: set d' k v
  end.

(** [d.keys()] *)
Definition keys (d : dict) : list Py.str := map fst d.

(** The truth value of an object, as [if x] and [not x] take it.  A
    missing key yields [None], which is false. *)
Definition truthy (v : value) : bool :=
  match v with
  | Null => false
  | Bool b => b
  | Int z => negb (z =? 0)
  | Float m _ => negb (m =? 0)
  | NaN => true
  | Inf _ => true
  | Str s => match s with [] => false | _ => true end
  | Arr l => match l with [] => false | _ => true end
  | Obj kv => match kv with [] => false | _ => true end
  end.

Definition truthy_opt (o : option value) : bool :=
  match o with
  | Some v => truthy v
  | None => false
  end.

(** ** [json.loads] *)

Definition is_ws (c : Z) : bool :=
  (c =? 32) || (c =? 9) || (c =? 10) || (c =? 13).

Fixpoint skip_ws (s : Py.str) : Py.str :=
  match s with
  | c :: r => if is_ws c then skip_ws r else s
  | [] => []
  end.

Definition is_digit (c : Z) : bool := (48 <=? c) && (c <=? 57).

Definition hexval (c : Z) : option Z :=
  if (48 <=? c) && (c <=? 57) then Some (c - 48)
  else if (97 <=? c) && (c <=? 102) then Some (c - 87)
  else if (65 <=? c) && (c <=? 70) then Some (c - 55)
  else None.

Definition hex4 (h1 h2 h3 h4 : Z) : option Z :=
  (' a <- hexval h1 ;; ' b <- hexval h2 ;;
   ' c <- hexval h3 ;; ' d <- hexval h4 ;;
   Some (((a * 16 + b) * 16 + c) * 16 + d))%option.

Definition unescape (c : Z) : option Z :=
  if c =? 34 then Some 34          (* quote *)
  else if c =? 92 then Some 92     (* backslash *)
  else if c =? 47 then Some 47     (* slash *)
  else if c =? 98 then Some 8      (* b: backspace *)
  else if c =? 102 then Some 12    (* f: form feed *)
  else if c =? 110 then Some 10    (* n: line feed *)
  else if c =? 114 then Some 13    (* r: carriage return *)
  else if c =? 116 then Some 9     (* t: tab *)
  else None.

Definition is_high (c : Z) : bool := (0xD800 <=? c) && (c <=? 0xDBFF).
Definition is_low (c : Z) : bool := (0xDC00 <=? c) && (c <=? 0xDFFF).
Definition join_surrogates (hi lo : Z) : Z :=
  0x10000 + Z.lor (Z.shiftl (Z.land hi 0x3FF) 10) (Z.land lo 0x3FF).

(** The scanner of a string, entered after the opening quote, in strict
    mode: returns the string and the text after the closing quote. *)
Fixpoint scanstring (s : Py.str) (acc : Py.str) : option (Py.str * Py.str) :=
  match s with
  | [] => None
  | c :: r =>
      if c =? 34 then Some (rev acc, r)
      else if c =? 92 then
        match r with
        | [] => None
        | e :: r1 =>
            if e =? 117 then
              match r1 with
              | h1 :: h2 :: h3 :: h4 :: r2 =>
                  match hex4 h1 h2 h3 h4 with
                  | None => None
                  | Some c1 =>
                      match r2 with
                      | b :: u :: g1 :: g2 :: g3 :: g4 :: r3 =>
                          if is_high c1 && (b =? 92) && (u =? 117) then
                            match hex4 g1 g2 g3 g4 with
                            | None => None
                            | Some c2 =>
                                if is_low c2
                                then scanstring r3 (join_surrogates c1 c2 :: acc)
                                else scanstring r2 (c1 :: acc)
                            end
                          else scanstring r2 (c1 :: acc)
                      | _ => scanstring r2 (c1 :: acc)
                      end
                  end
              | _ => None
              end
            else
              match unescape e with
              | Some x => scanstring r1 (x :: acc)
              | None => None
              end
        end
      else if c <=? 0x1F then None
      else scanstring r (c :: acc)
  end.

(** Numbers: an optional minus sign, then a lone zero or a run of digits
    that does not start with zero, then an optional fraction (a dot and
    at least one digit), then an optional exponent (e or E, an optional
    sign, at least one digit); the longest match. *)
Fixpoint span_digits (s : Py.str) (acc : Py.str) : Py.str * Py.str :=
  match s with
  | c :: r => if is_digit c then span_digits r (c :: acc) else (rev acc, s)
  | [] => (rev acc, [])
  end.

Definition nat_of_digits (ds : Py.str) : Z :=
  fold_left (fun n c => n * 10 + (c - 48)) ds 0.

Definition int_part (s : Py.str) : option (Py.str * Py.str) :=
  match s with
  | c :: r =>
      if c =? 48 then Some ([c], r)
      else if is_digit c then Some (span_digits s [])
      else None
  | [] => None
  end.

Definition frac_part (s : Py.str) : Py.str * Py.str :=
  match s with
  | dot :: d :: _ =>
      if (dot =? 46) && is_digit d then span_digits (tl s) [] else ([], s)
  | _ => ([], s)
  end.

Definition exp_part (s : Py.str) : option Z * Py.str :=
  match s with
  | e :: r =>
      if (e =? 101) || (e =? 69) then
        let '(neg, r1) :=
          match r with
          | sg :: r' =>
              if sg =? 45 then (true, r')
              else if sg =? 43 then (false, r')
              else (false, r)
          | [] => (false, r)
          end in
        match span_digits r1 [] with
        | ([], _) => (None, s)
        | (ds, r2) =>
            (Some (if neg then - nat_of_digits ds else nat_of_digits ds), r2)
        end
      else (None, s)
  | [] => (None, s)
  end.

Definition match_number (s : Py.str) : option (value * Py.str) :=
  let '(neg, s1) :=
    match s with
    | c :: r => if c =? 45 then (true, r) else (false, s)
    | [] => (false, s)
    end in
  match int_part s1 with
  | None => None
  | Some (ip, s2) =>
      let '(fp, s3) := frac_part s2 in
      let '(ex, s4) := exp_part s3 in
      let sign (z : Z) := if neg then - z else z in
      match fp, ex with
      | [], None => Some (Int (sign (nat_of_digits ip)), s4)
      | _, _ =>
          let e := match ex with Some e => e | None => 0 end in
          Some (Float (sign (nat_of_digits (ip ++ fp)))
                      (e - Z.of_nat (length fp)), s4)
      end
  end.

Definition keyword (s : Py.str) (w : string) (v : value)
  : option (value * Py.str) :=
  if Py.startswith s (Py.lit w)
  then Some (v, skipn (length (Py.lit w)) s)
  else None.

Definition orelse {A} (a b : option A) : option A :=
  match a with
  | Some _ => a
  | None => b
  end.

(** The scanner of one value; objects and arrays recurse through the
    fuel, of which [loads] gives more than the scanner can use on the
    text. *)
Fixpoint scan_once (fuel : nat) (s : Py.str) : option (value * Py.str) :=
  match fuel with
  | O => None
  | S f =>
      match s with
      | [] => None
      | c :: r =>
          if c =? 34 then
            (' (x, r') <- scanstring r [] ;; Some (Str x, r'))%option
          else if c =? 123 then
            match skip_ws r with
            | c' :: r' =>
                if c' =? 125 then Some (Obj [], r')
                else members f (c' :: r') []
            | [] => None
            end
          else if c =? 91 then
            match skip_ws r with
            | c' :: r' =>
                if c' =? 93 then Some (Arr [], r')
                else elements f (c' :: r') []
            | [] => None
            end
          else if c =? 110 then keyword s "null" Null
          else if c =? 116 then keyword s "true" (Bool true)
          else if c =? 102 then keyword s "false" (Bool false)
          else if c =? 78 then keyword s "NaN" NaN
          else if c =? 73 then keyword s "Infinity" (Inf false)
          else if c =? 45 then
            orelse (keyword s "-Infinity" (Inf true)) (match_number s)
          else match_number s
      end
  end
with members (fuel : nat) (s : Py.str) (acc : dict)
  : option (value * Py.str) :=
  match fuel with
  | O => None
  | S f =>
      match s with
      | q :: r =>
          if q =? 34 then
            (' (key, r1) <- scanstring r [] ;;
             match skip_ws r1 with
             | colon :: r2 =>
                 if colon =? 58 then
                   ' (v, r3) <- scan_once f (skip_ws r2) ;;
                   let acc' := set acc key v in
                   match skip_ws r3 with
                   | d :: r4 =>
                       if d =? 125 then Some (Obj acc', r4)
                       else if d =? 44 then members f (skip_ws r4) acc'
                       else None
                   | [] => None
                   end
                 else None
             | [] => None
             end)%option
          else None
      | [] => None
      end
  end
with elements (fuel : nat) (s : Py.str) (acc : list value)
  : option (value * Py.str) :=
  match fuel with
  | O => None
  | S f =>
      (' (v, r1) <- scan_once f s ;;
       match skip_ws r1 with
       | d :: r2 =>
           if d =? 93 then Some (Arr (rev (v :: acc)), r2)
           else if d =? 44 then elements f (skip_ws r2) (v :: acc)
           else None
       | [] => None
       end)%option
  end.

(** [json.loads(s)]: one value between optional white space, and nothing
    after it; [None] stands for [JSONDecodeError]. *)
Definition loads (s : Py.str) : option value :=
  match scan_once (S (2 * length s)) (skip_ws s) with
  | Some (v, r) =>
      match skip_ws r with
      | [] => Some v
      | _ :: _ => None
      end
  | None => None
  end.

(** ** [json.dumps] of a [dict] of strings *)

Definition hexdigit (n : Z) : Z := if n <? 10 then 48 + n else 87 + n.

Definition u_escape (n : Z) : Py.str :=
  [92; 117; hexdigit (Z.shiftr n 12 mod 16); hexdigit (Z.shiftr n 8 mod 16);
   hexdigit (Z.shiftr n 4 mod 16); hexdigit (n mod 16)].

(** One character of [encode_basestring_ascii]: printable ASCII stays, the
    rest is escaped, beyond the BMP as a surrogate pair. *)
Definition escape_cp (c : Z) : Py.str :=
  if c =? 92 then [92; 92]
  else if c =? 34 then [92; 34]
  else if (32 <=? c) && (c <=? 126) then [c]
  else if c =? 8 then [92; 98]
  else if c =? 12 then [92; 102]
  else if c =? 10 then [92; 110]
  else if c =? 13 then [92; 114]
  else if c =? 9 then [92; 116]
  else if c <? 0x10000 then u_escape c
  else
    let n := c - 0x10000 in
    u_escape (Z.lor 0xD800 (Z.land (Z.shiftr n 10) 0x3FF))
    ++ u_escape (Z.lor 0xDC00 (Z.land n 0x3FF)).

Definition dumps_str (s : Py.str) : Py.str :=
  [34] ++ flat_map escape_cp s ++ [34].

Fixpoint join_items (items : list Py.str) : Py.str :=
  match items with
  | [] => []
  | [x] => x
  | x :: rest => x ++ [44; 32] ++ join_items rest
  end.

(** One item of a dictionary: the key, a colon and a space, the value. *)
Definition dumps_item (kv : Py.str * Py.str) : Py.str :=
  dumps_str (fst kv) ++ [58; 32] ++ dumps_str (snd kv).

(** [json.dumps(d)] for a [Dict[str, str]], with the default separators. *)
Definition dumps_headers (d : list (Py.str * Py.str)) : Py.str :=
  [123] ++ join_items (map dumps_item d) ++ [125].

(** Text within the range of code points and without high surrogates:
    what decoding the bytes of a message gives, also when bytes that are
    not UTF-8 are kept as lone low surrogates. *)
Definition plain_text (s : Py.str) : Prop :=
  Forall (fun c => 0 <= c <= 0x10FFFF /\ is_high c = false) s.

Definition plain_headers (d : list (Py.str * Py.str)) : Prop :=
  Forall (fun kv => plain_text (fst kv) /\ plain_text (snd kv)) d.

(** The [dict] that [json.loads] builds from the dump of headers. *)
Definition of_headers (d : list (Py.str * Py.str)) : dict :=
  fold_left (fun acc kv => set acc (fst kv) (Str (snd kv))) d [].

End Json.

(* ================================================================== *)
(** * The [requests] table *)

Module Store.

(** One row, with the columns of [CREATE TABLE requests].  [timestamp]
    and [duration] are REAL columns holding clock readings and their
    differences; [response_status] and [notes] can be NULL. *)
Record row := {
  id : Z;
  timestamp : Z;
  method : Py.str;
  url : Py.str;
  host : Py.str;
  path : Py.str;
  headers : Py.str;
  body : Py.str;
  response_status : option Z;
  response_headers : Py.str;
  response_body : Py.str;
  duration : Z;
  protocol : Py.str;
  analyzed : bool;
  notes : option Py.str
}.

(** The table: its rows in rowid order, and the AUTOINCREMENT counter
    that sqlite keeps for it. *)
Record table := {
  rows : list row;
  seq : Z
}.

Definition empty : table := {| rows := []; seq := 0 |}.

(** The twelve values of the INSERT statement of the capture hooks. *)
Record values := {
  v_timestamp : Z;
  v_method : Py.str;
  v_url : Py.str;
  v_host : Py.str;
  v_path : Py.str;
  v_headers : Py.str;
  v_body : Py.str;
  v_response_status : option Z;
  v_response_headers : Py.str;
  v_response_body : Py.str;
  v_duration : Z;
  v_protocol : Py.str
}.

(** [INSERT INTO requests (timestamp, ..., protocol) VALUES (...)]: the
    row gets the next id; [analyzed] takes its default 0 and [notes],
    which the statement does not name, is NULL. *)
Definition mk_row (i : Z) (v : values) : row :=
  {| id := i;
     timestamp := v_timestamp v;
     method := v_method v;
     url := v_url v;
     host := v_host v;
     path := v_path v;
     headers := v_headers v;
     body := v_body v;
     response_status := v_response_status v;
     response_headers := v_response_headers v;
     response_body := v_response_body v;
     duration := v_duration v;
     protocol := v_protocol v;
     analyzed := false;
     notes := None |}.

Definition insert (v : values) (t : table) : table :=
  {| rows := rows t ++ [mk_row (seq t + 1) v];
     seq := seq t + 1 |}.

(** [SELECT * FROM requests WHERE id = ?] followed by [fetchone()] *)
Definition select_by_id (i : Z) (t : table) : option row :=
  find (fun r => id r =? i) (rows t).

(** [UPDATE requests SET analyzed = 1 WHERE id = ?] *)
Definition set_analyzed (r : row) : row :=
  {| id := id r;
     timestamp := timestamp r;
     method := method r;
     url := url r;
     host := host r;
     path := path r;
     headers := headers r;
     body := body r;
     response_status := response_status r;
     response_headers := response_headers r;
     response_body := response_body r;
     duration := duration r;
     protocol := protocol r;
     analyzed := true;
     notes := notes r |}.

Definition update_analyzed (i : Z) (t : table) : table :=
  {| rows := map (fun r => if id r =? i then set_analyzed r else r) (rows t);
     seq := seq t |}.

(** [DELETE FROM requests]; the AUTOINCREMENT counter stays. *)
Definition delete_all (t : table) : table :=
  {| rows := []; seq := seq t |}.

(** [ORDER BY timestamp] and [ORDER BY timestamp DESC] as a sort returns
    them: an insertion sort that keeps rows of equal timestamp in rowid
    order.  The statement itself does not fix the order of such rows, and
    a plan that reads the index on [timestamp] returns them differently,
    see [along_index_desc]. *)
Definition before (desc : bool) (a b : row) : bool :=
  if desc then timestamp b <=? timestamp a
  else timestamp a <=? timestamp b.

Fixpoint insert_sorted (desc : bool) (r : row) (l : list row) : list row :=
  match l with
  | [] => [r]
  | x :: l' =>
      if before desc x r then x :: insert_sorted desc r l'
      else r :: l
  end.

Definition order_by_timestamp (desc : bool) (l : list row) : list row :=
  fold_left (fun acc r => insert_sorted desc r acc) l [].

(** [ORDER BY timestamp DESC] as sqlite returns it from the index that
    [proxy_server.py] creates on [timestamp]: the index read backwards,
    from the newest row to the oldest, rows of equal timestamp in
    descending rowid. *)
Definition along_index_desc (l : list row) : list row :=
  rev (order_by_timestamp false l).

(** What every plan for [ORDER BY timestamp DESC] returns: the rows, each
    once, and none before a newer one. *)
Definition newest_first (order : list row -> list row) : Prop :=
  forall l,
    Permutation (order l) l
    /\ StronglySorted (fun a b => timestamp b <= timestamp a) (order l).

(** [LIMIT ?]: a negative limit is no limit. *)
Definition limit (n : Z) (l : list row) : list row :=
  if n <? 0 then l else firstn (Z.to_nat n) l.

(** [host LIKE '%zybooks%']: LIKE ignores the case of ASCII letters. *)
Definition host_like_zybooks (r : row) : bool :=
  Py.contains (Py.lit "zybooks") (Py.lower (host r)).

End Store.

(* ================================================================== *)
(** * The world: the database file and the clock *)

(** [now] is the sequence of readings that successive calls of
    [time.time()] return; [calls] counts the calls made so far. *)
Record world := {
  db : Store.table;
  now : nat -> Z;
  calls : nat
}.

Definition M (A : Type) : Type := world -> A * world.

Definition ret {A} (a : A) : M A := fun w => (a, w).

Definition bind {A B} (m : M A) (k : A -> M B) : M B :=
  fun w => let (a, w') := m w in k a w'.

Declare Scope world_scope.
Delimit Scope world_scope with world.
Notation "x <- m ;; k" := (bind m (fun x => k))
  (at level 61, m at next level, k at level 200) : world_scope.

(** [time.time()] *)
Definition time_time : M Z :=
  fun w => (now w (calls w),
            {| db := db w; now := now w; calls := S (calls w) |}).

(** A query that only reads the table. *)
Definition db_read {A} (q : Store.table -> A) : M A :=
  fun w => (q (db w), w).

(** A statement that changes the table, followed by [commit()]. *)
Definition db_write (f : Store.table -> Store.table) : M unit :=
  fun w => (tt, {| db := f (db w); now := now w; calls := calls w |}).

(* ================================================================== *)
(** * Flows of the interception engine *)

(** What the hooks read of a [mitmproxy.http.HTTPFlow].  [headers] is the
    outcome of [dict(message.headers)]; [content] is the body of the message
    as mitmproxy hands it over, [None] when there is none.  Of
    [flow.metadata] only the key ['start_time'] is used. *)
Record Request := {
  req_method : Py.str;
  req_url : Py.str;
  req_host : Py.str;
  req_path : Py.str;
  req_scheme : Py.str;
  req_headers : list (Py.str * Py.str);
  req_content : option (list byte)
}.

Record Response := {
  status_code : Z;
  resp_headers : list (Py.str * Py.str);
  resp_content : option (list byte)
}.

Record HTTPFlow := {
  start_time : option Z;
  request_of : Request;
  response_of : option Response
}.

(** [if message.content:] holds for content that is there and not empty. *)
Definition nonempty_content (c : option (list byte)) : option (list byte) :=
  match c with
  | Some (b :: bs) => Some (b :: bs)
  | _ => None
  end.

Definition MiB : Z := 1024 * 1024.

(** The bytes of the request and of the response of a flow; none when the
    message or its content is missing. *)
Definition request_bytes (flow : HTTPFlow) : list byte :=
  match req_content (request_of flow) with
  | Some c => c
  | None => []
  end.

Definition response_bytes (flow : HTTPFlow) : list byte :=
  match response_of flow with
  | Some r =>
      match resp_content r with
      | Some c => c
      | None => []
      end
  | None => []
  end.

(** How a response hook ends.  Its [except Exception] clause catches
    whatever its body raises, so the hook itself never raises: it has
    stored the exchange, or it reports the exception that it caught. *)
Inductive hook_end :=
| Stored
| Caught (e : exn).

(* ================================================================== *)
(** * [proxy_server.py] : the capture addon *)

Module ProxyServer.

(** [TrafficCapture.request]: records the start time in the flow. *)
Definition request (flow : HTTPFlow) : M HTTPFlow :=
  (t <- time_time ;;
   ret {| start_time := Some t;
          request_of := request_of flow;
          response_of := response_of flow |})%world.

(** The request body as stored.  [decode] with [errors='ignore'] cannot
    raise, so the base64 branch of the source is never taken. *)
Definition request_body (rq : Request) : Py.str :=
  match nonempty_content (req_content rq) with
  | Some c => Py.decode_ignore c
  | None => []
  end.

Definition too_large (n : Z) : Py.str :=
  Py.lit "[Response too large: " ++ Py.str_of_nat n ++ Py.lit " bytes]".

(** The response body as stored, with the 1MB limit. *)
Definition response_body (rs : option Response) : Py.str :=
  match rs with
  | Some r =>
      match nonempty_content (resp_content r) with
      | Some c =>
          if Z.of_nat (length c) <? MiB
          then Py.decode_ignore c
          else too_large (Z.of_nat (length c))
      | None => []
      end
  | None => []
  end.

(** The body of the [try] of [TrafficCapture.response], on a flow whose
    parts are read without an exception.  The default argument of
    [flow.metadata.get] is evaluated whether or not the key is there, so
    the body reads the clock three times: for the duration, for the
    default, and for the timestamp of the row.  Failures of sqlite3 lie
    outside this model, where the insert goes through. *)
Definition response (flow : HTTPFlow) : M unit :=
  (t1 <- time_time ;;
   t2 <- time_time ;;
   let duration :=
     t1 - match start_time flow with Some t0 => t0 | None => t2 end in
   let request := request_of flow in
   let response := response_of flow in
   let request_headers := req_headers request in
   let response_headers :=
     match response with Some r => resp_headers r | None => [] end in
   let request_body := request_body request in
   let response_body := response_body response in
   t3 <- time_time ;;
   db_write (Store.insert
     {| Store.v_timestamp := t3;
        Store.v_method := req_method request;
        Store.v_url := req_url request;
        Store.v_host := req_host request;
        Store.v_path := req_path request;
        Store.v_headers := Json.dumps_headers request_headers;
        Store.v_body := request_body;
        Store.v_response_status :=
          match response with Some r => Some (status_code r) | None => None end;
        Store.v_response_headers := Json.dumps_headers response_headers;
        Store.v_response_body := response_body;
        Store.v_duration := duration;
        Store.v_protocol := req_scheme request |}))%world.

(** [TrafficCapture.response] with its [try] and [except].  [delivered]
    is what reading the parts of the flow gives: the flow, or the
    exception that reading a part raises (mitmproxy raises ValueError
    for the content of a message whose body does not match its
    Content-Encoding).  The duration is computed first, with its two
    readings of the clock; an exception then leaves the [try] before the
    INSERT, and the [except] clause logs it. *)
Definition response_hook (delivered : result HTTPFlow) : M hook_end :=
  match delivered with
  | Ok flow => (_ <- response flow ;; ret Stored)%world
  | Raise e => (_ <- time_time ;; _ <- time_time ;; ret (Caught e))%world
  end.

End ProxyServer.

(* ================================================================== *)
(** * [bin/traffic_analyzer.py] : the capture addon of the CLI *)

Module TrafficAnalyzer.

Definition request (flow : HTTPFlow) : M HTTPFlow :=
  (t <- time_time ;;
   ret {| start_time := Some t;
          request_of := request_of flow;
          response_of := response_of flow |})%world.

(** What [TrafficCapture.response] does with a flow whose parts are read
    without an exception: no size limit on either body. *)
Definition response (flow : HTTPFlow) : M unit :=
  (t1 <- time_time ;;
   t2 <- time_time ;;
   let duration :=
     t1 - match start_time flow with Some t0 => t0 | None => t2 end in
   let req := request_of flow in
   let resp := response_of flow in
   let headers := Json.dumps_headers (req_headers req) in
   let body :=
     match nonempty_content (req_content req) with
     | Some c => Py.decode_ignore c
     | None => []
     end in
   let resp_headers :=
     match resp with
     | Some r => Json.dumps_headers (resp_headers r)
     | None => Py.lit "{}"
     end in
   let resp_body :=
     match resp with
     | Some r =>
         match nonempty_content (resp_content r) with
         | Some c => Py.decode_ignore c
         | None => []
         end
     | None => []
     end in
   let resp_status :=
     match resp with Some r => status_code r | None => 0 end in
   t3 <- time_time ;;
   db_write (Store.insert
     {| Store.v_timestamp := t3;
        Store.v_method := req_method req;
        Store.v_url := req_url req;
        Store.v_host := req_host req;
        Store.v_path := req_path req;
        Store.v_headers := headers;
        Store.v_body := body;
        Store.v_response_status := Some resp_status;
        Store.v_response_headers := resp_headers;
        Store.v_response_body := resp_body;
        Store.v_duration := duration;
        Store.v_protocol := req_scheme req |}))%world.

(** [TrafficCapture.response] with its [try], [except] and [finally]:
    the duration is computed before the [try]; an exception raised while
    the parts of the flow are read is printed by the [except] clause, and
    nothing is inserted. *)
Definition response_hook (delivered : result HTTPFlow) : M hook_end :=
  match delivered with
  | Ok flow => (_ <- response flow ;; ret Stored)%world
  | Raise e => (_ <- time_time ;; _ <- time_time ;; ret (Caught e))%world
  end.

End TrafficAnalyzer.

(* ================================================================== *)
(** * [copilot_agent.py] : the analysis engine *)

(** One second, in the unit of the clock readings. *)
Definition second : Z := 1000000.

Module CopilotAgent.

Import Store.

(** The recommendations, by kind; the very slow, slow and large findings
    carry the number that their message prints. *)
Inductive recommendation :=
| VerySlow (duration : Z)
| Slow (duration : Z)
| LargeResponse (size : Z)
| AddCacheHeaders
| NotCompressed
| AddApiVersion
| CorsAllOrigins.

(** [RequestAnalysis], without [summary] and [insights]: both are
    formatted from the row and from the two lists below after the checks
    have run, and nothing in them can raise. *)
Record RequestAnalysis := {
  request_id : Z;
  security_score : Z;
  vulnerabilities : list Py.str;
  recommendations : list recommendation
}.

(** Method calls on what [json.loads] returned: a value that is not a
    [dict] has no [get], [keys] or [items], one that is not a [str] has no
    [startswith]. *)
Definition as_dict (v : Json.value) : result Json.dict :=
  match v with
  | Json.Obj d => Ok d
  | _ => Raise AttributeError
  end.

Definition value_startswith (v : Json.value) (p : Py.str) : result bool :=
  match v with
  | Json.Str s => Ok (Py.startswith s p)
  | _ => Raise AttributeError
  end.

Definition sensitive_keywords : list Py.str :=
  [Py.lit "password"; Py.lit "token"; Py.lit "secret";
   Py.lit "api_key"; Py.lit "apikey"].

Definition sql_patterns : list Py.str :=
  [Py.lit "SELECT "; Py.lit "INSERT "; Py.lit "UPDATE ";
   Py.lit "DELETE "; Py.lit "DROP "; Py.lit "UNION "].

Definition xss_patterns : list Py.str :=
  [Py.lit "<script"; Py.lit "javascript:"; Py.lit "onerror=";
   Py.lit "onload="].

Definition msg_sensitive_url : Py.str :=
  Py.lit "⚠️ Sensitive data detected in URL (should use POST body instead)".
Definition msg_missing_hsts : Py.str :=
  Py.lit "Missing HSTS header (Strict-Transport-Security)".
Definition msg_missing_xcto : Py.str :=
  Py.lit "Missing X-Content-Type-Options header".
Definition msg_missing_xfo : Py.str :=
  Py.lit "Missing X-Frame-Options header (clickjacking protection)".
Definition msg_insecure_http : Py.str :=
  Py.lit "🔓 Insecure HTTP protocol (should use HTTPS)".
Definition msg_basic_auth : Py.str :=
  Py.lit "⚠️ Basic authentication detected (consider using OAuth or JWT)".
Definition msg_sql : Py.str :=
  Py.lit "🚨 Potential SQL injection attempt detected".
Definition msg_xss : Py.str :=
  Py.lit "🚨 Potential XSS payload detected".

(** [issues.append(m)] under [if c] *)
Definition append_if {A} (c : bool) (m : A) (issues : list A) : list A :=
  if c then issues ++ [m] else issues.

(** [_check_security] *)
Definition _check_security (req : row) (headers response_headers : Json.value)
  : result (list Py.str) :=
  (let issues := [] in
   let url_lower := Py.lower (url req) in
   let issues :=
     append_if (existsb (fun keyword => Py.contains keyword url_lower)
                        sensitive_keywords)
               msg_sensitive_url issues in
   rh <- as_dict response_headers ;;
   let issues :=
     append_if (negb (Json.truthy_opt
                        (Json.get rh (Py.lit "strict-transport-security"))))
               msg_missing_hsts issues in
   let issues :=
     append_if (negb (Json.truthy_opt
                        (Json.get rh (Py.lit "x-content-type-options"))))
               msg_missing_xcto issues in
   let issues :=
     append_if (negb (Json.truthy_opt
                        (Json.get rh (Py.lit "x-frame-options"))))
               msg_missing_xfo issues in
   let issues :=
     append_if (Py.eqb (protocol req) (Py.lit "http"))
               msg_insecure_http issues in
   h <- as_dict headers ;;
   issues <-
     (if Py.mem (Py.lit "authorization") (map Py.lower (Json.keys h)) then
        let auth_value :=
          match Json.get h (Py.lit "Authorization") with
          | Some v => v
          | None =>
              match Json.get h (Py.lit "authorization") with
              | Some v => v
              | None => Json.Str []
              end
          end in
        basic <- value_startswith auth_value (Py.lit "Basic ") ;;
        Ok (append_if basic msg_basic_auth issues)
      else Ok issues) ;;
   let body := body req in
   let issues :=
     append_if (existsb (fun pattern => Py.contains pattern (Py.upper body))
                        sql_patterns)
               msg_sql issues in
   let issues :=
     append_if (existsb (fun pattern => Py.contains pattern (Py.lower body))
                        xss_patterns)
               msg_xss issues in
   Ok issues)%result.

(** [_check_performance] *)
Definition _check_performance (req : row) : list recommendation :=
  let recommendations := [] in
  let duration := duration req in
  let recommendations :=
    if duration >? 5 * second then recommendations ++ [VerySlow duration]
    else if duration >? 2 * second then recommendations ++ [Slow duration]
    else recommendations in
  let response_body := response_body req in
  append_if (Z.of_nat (length response_body) >? 1000000)
            (LargeResponse (Z.of_nat (length response_body)))
            recommendations.

(** [_check_best_practices] *)
Definition _check_best_practices (req : row)
           (headers response_headers : Json.value)
  : result (list recommendation) :=
  (let recommendations := [] in
   recommendations <-
     (if Py.eqb (method req) (Py.lit "GET") then
        rh <- as_dict response_headers ;;
        Ok (append_if
              (negb (Json.truthy_opt (Json.get rh (Py.lit "cache-control")))
               && negb (Json.truthy_opt (Json.get rh (Py.lit "etag"))))
              AddCacheHeaders recommendations)
      else Ok recommendations) ;;
   rh <- as_dict response_headers ;;
   let recommendations :=
     append_if (negb (Py.mem (Py.lit "content-encoding")
                             (map Py.lower (Json.keys rh))))
               NotCompressed recommendations in
   let recommendations :=
     append_if (Py.contains (Py.lit "/api/") (path req)
                && negb (existsb (fun v => Py.contains v (path req))
                                 [Py.lit "/v1/"; Py.lit "/v2/"; Py.lit "/v3/"]))
               AddApiVersion recommendations in
   let recommendations :=
     append_if (match Json.get rh (Py.lit "access-control-allow-origin") with
                | Some (Json.Str s) => Py.eqb s (Py.lit "*")
                | _ => false
                end)
               CorsAllOrigins recommendations in
   Ok recommendations)%result.

(** A [dict] whose values are all strings, as [json.dumps] of the headers
    of a message writes it. *)
Definition all_text (d : Json.dict) : bool :=
  forallb (fun kv => match snd kv with Json.Str _ => true | _ => false end) d.


(** [json.loads] of a column *)
Definition json_loads (s : Py.str) : result Json.value :=
  match Json.loads s with
  | Some v => Ok v
  | None => Raise JSONDecodeError
  end.

(** [analyze_request], on the table that [self.db_path] names. *)
Definition analyze_request (t : table) (request_id : Z)
  : result RequestAnalysis :=
  match select_by_id request_id t with
  | None => Raise ValueError
  | Some req =>
      (let vulnerabilities := [] in
       let recommendations := [] in
       let security_score := 100 in
       headers <- json_loads (headers req) ;;
       response_headers <- json_loads (response_headers req) ;;
       security_issues <- _check_security req headers response_headers ;;
       let vulnerabilities := vulnerabilities ++ security_issues in
       let security_score :=
         security_score - Z.of_nat (length security_issues) * 10 in
       let perf_issues := _check_performance req in
       let recommendations := recommendations ++ perf_issues in
       best_practices <- _check_best_practices req headers response_headers ;;
       let recommendations := recommendations ++ best_practices in
       Ok {| request_id := request_id;
             security_score := Z.max 0 security_score;
             vulnerabilities := vulnerabilities;
             recommendations := recommendations |})%result
  end.

End CopilotAgent.

(* ================================================================== *)
(** * HTTP handlers *)

(** What a handler answers: [web.json_response(payload)], the 404 answer
    for a missing request, or the 500 answer that reports an exception. *)
Inductive api_response (A : Type) :=
| Http200 (payload : A)
| Http404
| Http500 (e : exn).
Arguments Http200 {A} payload.
Arguments Http404 {A}.
Arguments Http500 {A} e.

(** [try: return json_response(...) except Exception as e: return
    json_response({'success': False, 'error': str(e)}, status=500)] *)
Definition respond {A} (r : result A) : api_response A :=
  match r with
  | Ok a => Http200 a
  | Raise e => Http500 e
  end.

Definition str_eq_dec : forall a b : Py.str, {a = b} + {a <> b} :=
  list_eq_dec Z.eq_dec.

(* ================================================================== *)
(** * [copilot_api.py] : the API server *)

Module CopilotAPIServer.

Import Store.

(** The route parameter arrives as [int(request.match_info['id'])]. *)
Definition analyze_request (request_id : Z)
  : M (api_response CopilotAgent.RequestAnalysis) :=
  (analysis <- db_read (fun t => CopilotAgent.analyze_request t request_id) ;;
   ret (respond analysis))%world.

(** ** [security_scan] *)

Record high_risk := {
  hr_request_id : Z;
  hr_score : Z;
  hr_issues : list Py.str
}.

Record scan_report := {
  total_issues : nat;
  unique_issues : nat;
  high_risk_requests : list high_risk;
  all_issues : list Py.str
}.

(** [SELECT id FROM requests ORDER BY timestamp DESC LIMIT 100].
    [newest] is the order in which the database returns the rows for
    ORDER BY timestamp DESC; which rows of equal timestamp come first is
    its choice. *)
Definition recent_ids (newest : list row -> list row) (t : table) : list Z :=
  map id (limit 100 (newest (rows t))).

(** The loop over the selected ids. *)
Fixpoint scan_loop (t : table) (ids : list Z)
         (security_issues : list Py.str) (high_risk_requests : list high_risk)
  : result (list Py.str * list high_risk) :=
  match ids with
  | [] => Ok (security_issues, high_risk_requests)
  | request_id :: rest =>
      (analysis <- CopilotAgent.analyze_request t request_id ;;
       let security_issues :=
         match CopilotAgent.vulnerabilities analysis with
         | [] => security_issues
         | _ :: _ => security_issues ++ CopilotAgent.vulnerabilities analysis
         end in
       let high_risk_requests :=
         CopilotAgent.append_if
           (CopilotAgent.security_score analysis <? 70)
           {| hr_request_id := request_id;
              hr_score := CopilotAgent.security_score analysis;
              hr_issues := CopilotAgent.vulnerabilities analysis |}
           high_risk_requests in
       scan_loop t rest security_issues high_risk_requests)%result
  end.

(** The body of the [try]; [set] keeps one copy of each issue, in an
    order that Python does not fix. *)
Definition scan (newest : list row -> list row) (t : table)
  : result scan_report :=
  (r <- scan_loop t (recent_ids newest t) [] [] ;;
   let (security_issues, high_risk_requests) := r in
   Ok {| total_issues := length security_issues;
         unique_issues := length (nodup str_eq_dec security_issues);
         high_risk_requests := high_risk_requests;
         all_issues := nodup str_eq_dec security_issues |})%result.

Definition security_scan (newest : list row -> list row)
  : M (api_response scan_report) :=
  (r <- db_read (scan newest) ;; ret (respond r))%world.

(** ** The replay endpoints *)

Record replayed := {
  rp_method : Py.str;
  rp_url : Py.str;
  rp_headers : Json.value;
  rp_body : Py.str
}.

Definition replay_request (request_id : Z) : M (api_response replayed) :=
  (row <- db_read (select_by_id request_id) ;;
   match row with
   | None => ret Http404
   | Some req_data =>
       ret (respond
              (headers <- CopilotAgent.json_loads (headers req_data) ;;
               Ok {| rp_method := method req_data;
                     rp_url := url req_data;
                     rp_headers := headers;
                     rp_body := body req_data |})%result)
   end)%world.

Record modified := {
  original_url : Py.str;
  original_headers : Json.value;
  original_body : Py.str;
  modified_method : Py.str;
  modified_url : Json.value;
  modified_headers : Json.value;
  modified_body : Json.value
}.

(** [d.get(k, default)] *)
Definition get_default (d : Json.dict) (k : Py.str) (default : Json.value)
  : Json.value :=
  match Json.get d k with
  | Some v => v
  | None => default
  end.

(** [modify_and_replay]; [payload] is the text of the request body that
    [await request.json()] parses. *)
Definition modify_and_replay (request_id : Z) (payload : Py.str)
  : M (api_response modified) :=
  match CopilotAgent.json_loads payload with
  | Raise e => ret (Http500 e)
  | Ok modifications =>
      (row <- db_read (select_by_id request_id) ;;
       match row with
       | None => ret Http404
       | Some req_data =>
           ret (respond
                  (m <- CopilotAgent.as_dict modifications ;;
                   let new_url :=
                     get_default m (Py.lit "url") (Json.Str (url req_data)) in
                   stored <- CopilotAgent.json_loads (headers req_data) ;;
                   let new_headers :=
                     get_default m (Py.lit "headers") stored in
                   let new_body :=
                     get_default m (Py.lit "body") (Json.Str (body req_data)) in
                   original <- CopilotAgent.json_loads (headers req_data) ;;
                   Ok {| original_url := url req_data;
                         original_headers := original;
                         original_body := body req_data;
                         modified_method := method req_data;
                         modified_url := new_url;
                         modified_headers := new_headers;
                         modified_body := new_body |})%result)
       end)%world
  end.

(** ** [export_har] *)

Record har_entry := {
  startedDateTime : Z;
  time : Z;
  request_method : Py.str;
  request_url : Py.str;
  request_headers : list (Py.str * Json.value);
  postData_text : Py.str;
  response_status_or_0 : Z;
  response_headers_list : list (Py.str * Json.value);
  content_text : Py.str
}.

Record har := {
  version : Py.str;
  creator_name : Py.str;
  creator_version : Py.str;
  entries : list har_entry
}.

Definition entry_of (req : row) : result har_entry :=
  (h <- CopilotAgent.json_loads (headers req) ;;
   h_items <- CopilotAgent.as_dict h ;;
   rh <- CopilotAgent.json_loads (response_headers req) ;;
   rh_items <- CopilotAgent.as_dict rh ;;
   Ok {| startedDateTime := timestamp req;
         time := duration req * 1000;
         request_method := method req;
         request_url := url req;
         request_headers := h_items;
         postData_text := body req;
         response_status_or_0 :=
           match response_status req with
           | Some st => st
           | None => 0
           end;
         response_headers_list := rh_items;
         content_text := response_body req |})%result.

(** [for row in rows: ... entries.append(entry)] *)
Fixpoint build_entries (rows : list row) (entries : list har_entry)
  : result (list har_entry) :=
  match rows with
  | [] => Ok entries
  | row :: rest =>
      (entry <- entry_of row ;;
       build_entries rest (entries ++ [entry]))%result
  end.

(** [SELECT * FROM requests ORDER BY timestamp]: every row is selected. *)
Definition har_selection (t : table) : list row :=
  order_by_timestamp false (rows t).

Definition build_har (t : table) : result har :=
  (entries <- build_entries (har_selection t) [] ;;
   Ok {| version := Py.lit "1.2";
         creator_name := Py.lit "Traffic Analyzer";
         creator_version := Py.lit "1.0";
         entries := entries |})%result.

Definition export_har : M (api_response har) :=
  (r <- db_read build_har ;; ret (respond r))%world.

End CopilotAPIServer.

(* ================================================================== *)
(** * [proxy_server.py] : the web interface *)

Module ProxyManager.

Import Store.

(** The route parameter is bound to [id = ?] as it came; sqlite compares
    it with the integer column through the integer it denotes, which is
    what [request_id] stands for. *)
Definition get_request_detail (request_id : Z) : M (api_response row) :=
  (row <- db_read (select_by_id request_id) ;;
   ret (match row with
        | Some r => Http200 r
        | None => Http404
        end))%world.

Record replay_answer := {
  message_id : Z;
  ra_url : Py.str;
  ra_method : Py.str
}.

Definition replay_request (request_id : Z) : M (api_response replay_answer) :=
  (row <- db_read (select_by_id request_id) ;;
   ret (match row with
        | None => Http404
        | Some r =>
            Http200 {| message_id := request_id;
                       ra_url := url r;
                       ra_method := method r |}
        end))%world.

Record placeholder_analysis := {
  pa_method : Py.str;
  pa_url : Py.str;
  pa_status : option Z;
  pa_duration_ms : Z;
  pa_rating_good : bool;
  pa_security_notes : list Py.str
}.

(** [analyze_request]: the one handler that updates a row.  An exception
    of [json.loads] leaves the handler before the UPDATE. *)
Definition analyze_request (request_id : Z)
  : M (api_response placeholder_analysis) :=
  (row <- db_read (select_by_id request_id) ;;
   match row with
   | None => ret Http404
   | Some req_data =>
       match (headers <- CopilotAgent.json_loads (headers req_data) ;;
              h <- CopilotAgent.as_dict headers ;;
              Ok (CopilotAgent.append_if
                    (Py.mem (Py.lit "authorization")
                            (map Py.lower (Json.keys h)))
                    (Py.lit "Contains authorization header") []))%result
       with
       | Raise e => ret (Http500 e)
       | Ok security_notes =>
           _ <- db_write (update_analyzed request_id) ;;
           ret (Http200
                  {| pa_method := method req_data;
                     pa_url := url req_data;
                     pa_status := response_status req_data;
                     pa_duration_ms := duration req_data * 1000;
                     pa_rating_good := duration req_data <? 1 * second;
                     pa_security_notes := security_notes |})
       end
   end)%world.

Definition clear_traffic : M (api_response unit) :=
  (_ <- db_write delete_all ;; ret (Http200 tt))%world.

End ProxyManager.

(* ================================================================== *)
(** * [bin/traffic_analyzer.py] : the HAR export of the CLI *)

Module TrafficAnalyzerCLI.

Import Store.

Record har_entry := {
  startedDateTime : Z;
  time : Z;
  request_method : Py.str;
  request_url : Py.str;
  request_headers : list (Py.str * Json.value);
  request_bodySize : Z;
  response_status : option Z;
  response_headers_list : list (Py.str * Json.value);
  content_size : Z;
  response_bodySize : Z
}.

Record har := {
  version : Py.str;
  creator_name : Py.str;
  creator_version : Py.str;
  entries : list har_entry
}.

(** [_host_clause_and_params(None)]: the WHERE clause that the
    [only_zybooks] flag alone decides. *)
Definition host_filter (only_zybooks : bool) (r : row) : bool :=
  if only_zybooks then host_like_zybooks r else true.

(** [SELECT * FROM requests {clause} ORDER BY timestamp DESC LIMIT ?] *)
Definition har_selection (only_zybooks : bool) (limit_ : Z) (t : table)
  : list row :=
  limit limit_ (order_by_timestamp true (filter (host_filter only_zybooks) (rows t))).

Definition entry_of (row : row) : result har_entry :=
  (h <- CopilotAgent.json_loads (headers row) ;;
   h_items <- CopilotAgent.as_dict h ;;
   rh <- CopilotAgent.json_loads (response_headers row) ;;
   rh_items <- CopilotAgent.as_dict rh ;;
   Ok {| startedDateTime := timestamp row;
         time := duration row * 1000;
         request_method := method row;
         request_url := url row;
         request_headers := h_items;
         request_bodySize := Z.of_nat (length (body row));
         response_status := Store.response_status row;
         response_headers_list := rh_items;
         content_size := Z.of_nat (length (response_body row));
         response_bodySize := Z.of_nat (length (response_body row)) |})%result.

Fixpoint build_entries (rows : list row) (entries : list har_entry)
  : result (list har_entry) :=
  match rows with
  | [] => Ok entries
  | row :: rest =>
      (entry <- entry_of row ;;
       build_entries rest (entries ++ [entry]))%result
  end.

(** [export_har]: an exception leaves the function before the output
    file is opened; otherwise the HAR below is what [json.dump] writes. *)
Definition build_har (only_zybooks : bool) (limit_ : Z) (t : table)
  : result har :=
  (entries <- build_entries (har_selection only_zybooks limit_ t) [] ;;
   Ok {| version := Py.lit "1.2";
         creator_name := Py.lit "Traffic Analyzer";
         creator_version := Py.lit "2.0";
         entries := entries |})%result.

Definition export_har (only_zybooks : bool) (limit_ : Z) : M (result har) :=
  db_read (build_har only_zybooks limit_).

End TrafficAnalyzerCLI.

(* ================================================================== *)
(** * The running system *)

(** A flow whose header names and values are plain text. *)
Definition plain_flow (flow : HTTPFlow) : Prop :=
  Json.plain_headers (req_headers (request_of flow))
  /\ match response_of flow with
     | Some r => Json.plain_headers (resp_headers r)
     | None => True
     end.

(** One operation on the world: a hook that the interception engine
    calls, on a flow that it stores or on one whose reading raises, or a
    request that a handler serves.  All of them work on the one database
    file. *)
Inductive step : world -> world -> Prop :=
| step_proxy_request (flow : HTTPFlow) (w : world) :
    step w (snd (ProxyServer.request flow w))
| step_proxy_response (flow : HTTPFlow) (w : world) :
    plain_flow flow -> step w (snd (ProxyServer.response flow w))
| step_cli_request (flow : HTTPFlow) (w : world) :
    step w (snd (TrafficAnalyzer.request flow w))
| step_cli_response (flow : HTTPFlow) (w : world) :
    plain_flow flow -> step w (snd (TrafficAnalyzer.response flow w))
| step_api_analyze (i : Z) (w : world) :
    step w (snd (CopilotAPIServer.analyze_request i w))
| step_api_scan (newest : list Store.row -> list Store.row) (w : world) :
    step w (snd (CopilotAPIServer.security_scan newest w))
| step_api_replay (i : Z) (w : world) :
    step w (snd (CopilotAPIServer.replay_request i w))
| step_api_modify (i : Z) (payload : Py.str) (w : world) :
    step w (snd (CopilotAPIServer.modify_and_replay i payload w))
| step_api_export (w : world) :
    step w (snd (CopilotAPIServer.export_har w))
| step_web_detail (i : Z) (w : world) :
    step w (snd (ProxyManager.get_request_detail i w))
| step_web_replay (i : Z) (w : world) :
    step w (snd (ProxyManager.replay_request i w))
| step_web_analyze (i : Z) (w : world) :
    step w (snd (ProxyManager.analyze_request i w))
| step_web_clear (w : world) :
    step w (snd (ProxyManager.clear_traffic w))
| step_cli_export (only_zybooks : bool) (limit_ : Z) (w : world) :
    step w (snd (TrafficAnalyzerCLI.export_har only_zybooks limit_ w))
| step_proxy_caught (e : exn) (w : world) :
    step w (snd (ProxyServer.response_hook (Raise e) w))
| step_cli_caught (e : exn) (w : world) :
    step w (snd (TrafficAnalyzer.response_hook (Raise e) w)).

(** The worlds that the system gets to from an empty table. *)
Inductive reachable : world -> Prop :=
| reachable_start (clock : nat -> Z) :
    reachable {| db := Store.empty; now := clock; calls := 0 |}
| reachable_step (w w' : world) :
    reachable w -> step w w' -> reachable w'.

(** A row as a capture hook writes it: both header columns are dumps of
    plain headers. *)
Definition captured_row (r : Store.row) : Prop :=
  exists hs rhs,
    Json.plain_headers hs /\ Json.plain_headers rhs
    /\ Store.headers r = Json.dumps_headers hs
    /\ Store.response_headers r = Json.dumps_headers rhs.

(* ================================================================== *)
(** * Concrete exchanges *)

Module Scenario.

(** A clock that advances by one tick at every reading, and one that
    stands still. *)
Definition ticking : nat -> Z := fun n => 100 + Z.of_nat n.
Definition frozen : nat -> Z := fun _ => 100.

Definition fresh (clock : nat -> Z) : world :=
  {| db := Store.empty; now := clock; calls := 0 |}.

(** The exchange of the login scenario: a GET over plain http with the
    password in the URL and a response without headers. *)
Definition login_values : Store.values :=
  {| Store.v_timestamp := 100;
     Store.v_method := Py.lit "GET";
     Store.v_url := Py.lit "http://example.com/login?password=123";
     Store.v_host := Py.lit "example.com";
     Store.v_path := Py.lit "/login?password=123";
     Store.v_headers := Py.lit "{}";
     Store.v_body := [];
     Store.v_response_status := Some 200;
     Store.v_response_headers := Py.lit "{}";
     Store.v_response_body := [];
     Store.v_duration := 0;
     Store.v_protocol := Py.lit "http" |}.

Definition login_table : Store.table := Store.insert login_values Store.empty.

(** The login exchange stored at the time [t], and a table of 101 such
    exchanges, stored one after the other at the times 1 to 101. *)
Definition login_at (t : Z) : Store.values :=
  {| Store.v_timestamp := t;
     Store.v_method := Py.lit "GET";
     Store.v_url := Py.lit "http://example.com/login?password=123";
     Store.v_host := Py.lit "example.com";
     Store.v_path := Py.lit "/login?password=123";
     Store.v_headers := Py.lit "{}";
     Store.v_body := [];
     Store.v_response_status := Some 200;
     Store.v_response_headers := Py.lit "{}";
     Store.v_response_body := [];
     Store.v_duration := 0;
     Store.v_protocol := Py.lit "http" |}.

Definition crowded_table : Store.table :=
  fold_left (fun t n => Store.insert (login_at (Z.of_nat n)) t)
            (seq 1 101) Store.empty.

(** The same exchange with a [headers] column that is not JSON. *)
Definition corrupt_values : Store.values :=
  {| Store.v_timestamp := 100;
     Store.v_method := Py.lit "GET";
     Store.v_url := Py.lit "https://example.com/";
     Store.v_host := Py.lit "example.com";
     Store.v_path := Py.lit "/";
     Store.v_headers := Py.lit "{not json";
     Store.v_body := [];
     Store.v_response_status := Some 200;
     Store.v_response_headers := Py.lit "{}";
     Store.v_response_body := [];
     Store.v_duration := 0;
     Store.v_protocol := Py.lit "https" |}.

Definition corrupt_table : Store.table :=
  Store.insert corrupt_values Store.empty.

(** A request to [https://example.com/] as the engine delivers it. *)
Definition get_root (content : option (list byte)) : Request :=
  {| req_method := Py.lit "GET";
     req_url := Py.lit "https://example.com/";
     req_host := Py.lit "example.com";
     req_path := Py.lit "/";
     req_scheme := Py.lit "https";
     req_headers := [(Py.lit "Host", Py.lit "example.com")];
     req_content := content |}.

(** A response that carries the three security headers, spelled as
    servers send them over HTTP/1.1. *)
Definition hardened_response : Response :=
  {| status_code := 200;
     resp_headers :=
       [(Py.lit "Strict-Transport-Security", Py.lit "max-age=31536000");
        (Py.lit "X-Content-Type-Options", Py.lit "nosniff");
        (Py.lit "X-Frame-Options", Py.lit "DENY")];
     resp_content := Some (Py.bytes_lit "ok") |}.

Definition hardened_flow : HTTPFlow :=
  {| start_time := Some 99;
     request_of := get_root None;
     response_of := Some hardened_response |}.

(** A response whose body is the byte FF followed by the letter a: not
    UTF-8. *)
Definition binary_response : Response :=
  {| status_code := 200;
     resp_headers := [];
     resp_content := Some [xff; x61] |}.

Definition binary_flow : HTTPFlow :=
  {| start_time := Some 99;
     request_of := get_root None;
     response_of := Some binary_response |}.


(** A flow before its request hook has run. *)
Definition new_flow : HTTPFlow :=
  {| start_time := None;
     request_of := get_root None;
     response_of := None |}.

Definition with_response (flow : HTTPFlow) (r : Response) : HTTPFlow :=
  {| start_time := start_time flow;
     request_of := request_of flow;
     response_of := Some r |}.

(** A request whose body is one byte over 1 MiB, all of it the letter a. *)
Definition big_content : list byte := x61 :: repeat x61 (Z.to_nat MiB).

Definition big_request_flow : HTTPFlow :=
  {| start_time := Some 99;
     request_of := get_root (Some big_content);
     response_of := Some hardened_response |}.

(** A response of the same size, for the capture path of the CLI. *)
Definition big_response_flow : HTTPFlow :=
  {| start_time := Some 99;
     request_of := get_root None;
     response_of := Some {| status_code := 200;
                            resp_headers := [];
                            resp_content := Some big_content |} |}.

End Scenario.

(* ================================================================== *)
(** * The ids of the exchanges *)

(** The ids of a table grow along its rows, and none is beyond the
    AUTOINCREMENT counter. *)
Definition well_numbered (t : Store.table) : Prop :=
  StronglySorted Z.lt (map Store.id (Store.rows t))
  /\ Forall (fun r => 0 < Store.id r <= Store.seq t) (Store.rows t)
  /\ 0 <= Store.seq t.

(** Two rows that agree on every column but [analyzed]. *)
Definition same_exchange (r r' : Store.row) : Prop :=
  Store.set_analyzed r = Store.set_analyzed r'.

(** A table that continues the numbering of another: the counter has
    not gone back, and a row whose id the counter had reached is a row of
    the other table. *)
Definition keeps_numbering (t t' : Store.table) : Prop :=
  (well_numbered t -> well_numbered t')
  /\ Store.seq t <= Store.seq t'
  /\ forall r', In r' (Store.rows t') -> Store.id r' <= Store.seq t ->
                exists r, In r (Store.rows t) /\ same_exchange r r'.

(** The worlds that the system gets to from a given one. *)
Inductive later : world -> world -> Prop :=
| later_now (w : world) : later w w
| later_step (w w1 w2 : world) : later w w1 -> step w1 w2 -> later w w2.

(* ================================================================== *)
(** * SQL: what the statements of the handlers compute *)

Module Sql.

Import Store.

(** A text that sqlite3 binds to a placeholder: a [str] that has an
    encoding in UTF-8, which one with a surrogate has not. *)
Definition text (s : Py.str) : Prop :=
  Forall (fun c => 0 <= c <= 0x10FFFF /\ (c < 0xD800 \/ 0xDFFF < c)) s.

(** The number of bytes of the encoding. *)
Definition utf8_length (s : Py.str) : Z :=
  fold_left (fun n c => n + (if c <? 0x80 then 1
                             else if c <? 0x800 then 2
                             else if c <? 0x10000 then 3 else 4)) s 0.

(** A pattern that sqlite accepts for LIKE: it refuses one of more than
    50000 bytes. *)
Definition pattern (p : Py.str) : Prop :=
  text p /\ utf8_length p <= 50000.

(** [x LIKE p] for such a pattern, as sqlite compares text without an
    ESCAPE clause: a percent sign stands for any run of characters, an
    underscore for any one character, and any other character for itself,
    the ASCII letters in either case. *)
Fixpoint like (p : Py.str) : Py.str -> bool :=
  match p with
  | [] => fun x => match x with [] => true | _ :: _ => false end
  | c :: p' =>
      if c =? 37 then
        fix any (x : Py.str) : bool :=
          like p' x || match x with [] => false | _ :: x' => any x' end
      else
        fun x =>
          match x with
          | [] => false
          | a :: x' =>
              ((c =? 95) || (Py.lower_cp c =? Py.lower_cp a)) && like p' x'
          end
  end.

(** A text without wildcards. *)
Definition literal (q : Py.str) : Prop :=
  Forall (fun c => c <> 37 /\ c <> 95) q.

(** The parameter that [f"%{text}%"] builds. *)
Definition anywhere (text : Py.str) : Py.str := [37] ++ text ++ [37].

(** What ORDER BY returns for a key: the rows that it was given, each as
    often as it was there, and none before a row that the key puts first.
    Which of the rows that the key does not tell apart comes first is the
    choice of the database. *)
Definition ordered_by {A} (first : A -> A -> Prop) (order : list A -> list A)
  : Prop :=
  forall l, Permutation (order l) l /\ StronglySorted first (order l).

(** ORDER BY as a sort returns it: the insertion sort of
    [order_by_timestamp], which keeps rows that compare equal in the order
    they had. *)
Fixpoint insert_by {A} (before : A -> A -> bool) (r : A) (l : list A)
  : list A :=
  match l with
  | [] => [r]
  | x :: l' => if before x r then x :: insert_by before r l' else r :: l
  end.

Definition order_by {A} (before : A -> A -> bool) (l : list A) : list A :=
  fold_left (fun acc r => insert_by before r acc) l [].

Definition duration_desc (a b : row) : bool := duration b <=? duration a.

Definition count_desc {K} (a b : K * Z) : bool := snd b <=? snd a.

(** One more occurrence of the key [k]: [d[k] = d.get(k, 0) + 1] on a
    [dict], and the counter of the group of [k] under GROUP BY. *)
Fixpoint bump {K} (eqb : K -> K -> bool) (k : K) (d : list (K * Z))
  : list (K * Z) :=
  match d with
  | [] => [(k, 1)]
  | (k', n) :: d' =>
      if eqb k k' then (k', n + 1) :: d' else (k', n) :: bump eqb k d'
  end.

(** [d.get(k, 0)], and the count of the group of [k]. *)
Definition count_of {K} (eqb : K -> K -> bool) (k : K) (d : list (K * Z))
  : Z :=
  match find (fun kv => eqb k (fst kv)) d with
  | Some kv => snd kv
  | None => 0
  end.

(** [SELECT k, COUNT( * ) FROM requests GROUP BY k]: one pair for each
    value of the key, here in the order of first appearance.  The handlers
    pass the groups on to an ORDER BY, see [ordered_by]. *)
Definition tally {K} (eqb : K -> K -> bool) (ks : list K) : list (K * Z) :=
  fold_left (fun d k => bump eqb k d) ks [].

(** The aggregates over a column; MIN, MAX, AVG and SUM are NULL when
    there is no row. *)
Definition total (l : list Z) : Z := fold_left Z.add l 0.

Definition sum (l : list Z) : option Z :=
  match l with
  | [] => None
  | _ :: _ => Some (total l)
  end.

Definition min (l : list Z) : option Z :=
  match l with
  | [] => None
  | x :: r => Some (fold_left Z.min r x)
  end.

Definition max (l : list Z) : option Z :=
  match l with
  | [] => None
  | x :: r => Some (fold_left Z.max r x)
  end.

(** A REAL that is the quotient of two integers, kept as the pair. *)
Record ratio := {
  numer : Z;
  denom : Z
}.

Definition avg (l : list Z) : option ratio :=
  match l with
  | [] => None
  | _ :: _ => Some {| numer := total l; denom := Z.of_nat (length l) |}
  end.

(** A count of the rows of [l] by the key [f]: each key of a row once,
    with the number of the rows that have it. *)
Definition counts_rows_by {K} (eqb : K -> K -> bool) (f : Store.row -> K)
           (l : list Store.row) (d : list (K * Z)) : Prop :=
  NoDup (map fst d)
  /\ (forall k n,
         In (k, n) d
         <-> 0 < n /\ n = Z.of_nat (length (filter (fun r => eqb (f r) k) l)))
  /\ total (map snd d) = Z.of_nat (length l).

End Sql.

(* ================================================================== *)
(** * [copilot_agent.py] : summary, insights and the session analysis *)

Module CopilotAgentReport.

Import Store CopilotAgent.

(** The part of the summary that reports the status, by kind; the text
    prints the status after it. *)
Inductive status_note :=
| Succeeded (status : Z)
| Redirected (status : Z)
| ClientError (status : Z)
| ServerError (status : Z).

(** The summary, by its parts: the sentence opens with the method and the
    URL, reports the status unless it is missing or zero, then the
    duration times 1000 printed without decimals, then either the number
    of security issues or that none was detected, and the number of
    suggestions when there are some. *)
Record summary := {
  sum_method : Py.str;
  sum_url : Py.str;
  sum_status : option status_note;
  sum_duration_ms : Z;
  sum_found : option Z;
  sum_suggestions : option Z
}.

(** [_generate_summary] *)
Definition _generate_summary (req : row) (vulnerabilities : list Py.str)
           (recommendations : list recommendation) : summary :=
  let status := response_status req in
  let method := method req in
  let url := url req in
  let duration := duration req in
  {| sum_method := method;
     sum_url := url;
     sum_status :=
       match status with
       | None => None
       | Some status =>
           if status =? 0 then None
           else if (200 <=? status) && (status <? 300)
           then Some (Succeeded status)
           else if (300 <=? status) && (status <? 400)
           then Some (Redirected status)
           else if (400 <=? status) && (status <? 500)
           then Some (ClientError status)
           else Some (ServerError status)
       end;
     sum_duration_ms := duration * 1000;
     sum_found :=
       match vulnerabilities with
       | [] => None
       | _ :: _ => Some (Z.of_nat (length vulnerabilities))
       end;
     sum_suggestions :=
       match recommendations with
       | [] => None
       | _ :: _ => Some (Z.of_nat (length recommendations))
       end |}.

(** The [insights] of an analysis. *)
Record insights := {
  in_method : Py.str;
  in_status_code : option Z;
  in_duration_ms : Z;
  in_has_auth : bool;
  in_content_type : Json.value;
  in_size_bytes : Z
}.

(** An analysis with all six fields of [RequestAnalysis]. *)
Record report := {
  analysis : RequestAnalysis;
  summary_text : summary;
  insights_of : insights
}.

(** [analyze_request] with the summary and the insights that the record
    [RequestAnalysis] above leaves out. *)
Definition analyze_request (t : table) (request_id : Z) : result report :=
  match select_by_id request_id t with
  | None => Raise ValueError
  | Some req =>
      (let vulnerabilities := [] in
       let recommendations := [] in
       let security_score := 100 in
       headers <- json_loads (headers req) ;;
       response_headers <- json_loads (response_headers req) ;;
       security_issues <- _check_security req headers response_headers ;;
       let vulnerabilities := vulnerabilities ++ security_issues in
       let security_score :=
         security_score - Z.of_nat (length security_issues) * 10 in
       let perf_issues := _check_performance req in
       let recommendations := recommendations ++ perf_issues in
       best_practices <- _check_best_practices req headers response_headers ;;
       let recommendations := recommendations ++ best_practices in
       let summary := _generate_summary req vulnerabilities recommendations in
       h <- as_dict headers ;;
       let insights :=
         {| in_method := method req;
            in_status_code := response_status req;
            in_duration_ms := duration req * 1000;
            in_has_auth :=
              existsb (fun h => Py.contains (Py.lit "auth") (Py.lower h))
                      (Json.keys h);
            in_content_type :=
              CopilotAPIServer.get_default h (Py.lit "content-type")
                                           (Json.Str (Py.lit "unknown"));
            in_size_bytes := Z.of_nat (length (body req)) |} in
       Ok {| analysis :=
               {| request_id := request_id;
                  security_score := Z.max 0 security_score;
                  vulnerabilities := vulnerabilities;
                  recommendations := recommendations |};
             summary_text := summary;
             insights_of := insights |})%result
  end.

(** ** [analyze_session] *)

(** The recommendations for a session, by kind, with the counts that the
    message prints. *)
Inductive session_recommendation :=
| InsecureRequests (http_count : Z)
| HighFailureRate (failed_count total : Z)
| SlowRequests (slow_count : Z).

(** [dict(r)['response_status'] and dict(r)['response_status'] >= 400] *)
Definition failed (r : row) : bool :=
  match response_status r with
  | Some st => negb (st =? 0) && (st >=? 400)
  | None => false
  end.

Definition count (f : row -> bool) (rows : list row) : Z :=
  Z.of_nat (length (filter f rows)).

(** [_generate_session_recommendations].  The test for the failure rate
    is [failed_count > len(rows) * 0.1]; the product is rounded to a
    float that lies strictly between the same two integers as a tenth of
    the length does, or is that tenth when it is an integer, so for
    integers the test is [10 * failed_count > len(rows)]. *)
Definition _generate_session_recommendations (rows : list row)
  : list session_recommendation :=
  let recommendations := [] in
  let http_count := count (fun r => Py.eqb (protocol r) (Py.lit "http")) rows in
  let recommendations :=
    append_if (http_count >? 0) (InsecureRequests http_count)
              recommendations in
  let failed_count := count failed rows in
  let recommendations :=
    append_if (10 * failed_count >? Z.of_nat (length rows))
              (HighFailureRate failed_count (Z.of_nat (length rows)))
              recommendations in
  let slow_count := count (fun r => duration r >? 2 * second) rows in
  append_if (slow_count >? 0) (SlowRequests slow_count) recommendations.

(** The counters of the loop of [analyze_session]. *)
Record counters := {
  methods : list (Py.str * Z);
  status_codes : list (Z * Z);
  hosts : list (Py.str * Z);
  total_duration : Z;
  security_issues : Z
}.

Definition no_counts : counters :=
  {| methods := []; status_codes := []; hosts := [];
     total_duration := 0; security_issues := 0 |}.

(** One turn of the loop. *)
Definition count_row (c : counters) (req : row) : counters :=
  {| methods := Sql.bump Py.eqb (method req) (methods c);
     status_codes :=
       match response_status req with
       | Some status =>
           if status =? 0 then status_codes c
           else Sql.bump Z.eqb status (status_codes c)
       | None => status_codes c
       end;
     hosts := Sql.bump Py.eqb (host req) (hosts c);
     total_duration := total_duration c + duration req;
     security_issues :=
       if Py.eqb (protocol req) (Py.lit "http")
       then security_issues c + 1
       else security_issues c |}.

Record session := {
  total_requests : Z;
  avg_response_time_ms : Sql.ratio;
  unique_hosts : Z;
  security_issues_found : Z;
  session_methods : list (Py.str * Z);
  session_status_codes : list (Z * Z);
  top_hosts : list (Py.str * Z);
  session_recommendations : list session_recommendation
}.

(** What [analyze_session] returns: the message that there is no traffic,
    or the analysis. *)
Inductive session_answer :=
| NoTraffic
| Analyzed (s : session).

(** [analyze_session], for a limit that sqlite3 can bind (an integer of
    64 bits).  [newest] is the order in which the database returns the
    rows for ORDER BY timestamp DESC.  [sorted] with [reverse=True] keeps
    the hosts of equal count in the order of the [dict]. *)
Definition analyze_session (newest : list row -> list row) (t : table)
           (limit_ : Z) : session_answer :=
  let rows := limit limit_ (newest (rows t)) in
  match rows with
  | [] => NoTraffic
  | _ :: _ =>
      let total_requests := Z.of_nat (length rows) in
      let c := fold_left count_row rows no_counts in
      let avg_duration :=
        if total_requests >? 0
        then {| Sql.numer := total_duration c; Sql.denom := total_requests |}
        else {| Sql.numer := 0; Sql.denom := 1 |} in
      Analyzed
        {| total_requests := total_requests;
           avg_response_time_ms :=
             {| Sql.numer := Sql.numer avg_duration * 1000;
                Sql.denom := Sql.denom avg_duration |};
           unique_hosts := Z.of_nat (length (hosts c));
           security_issues_found := security_issues c;
           session_methods := methods c;
           session_status_codes := status_codes c;
           top_hosts := firstn 10 (Sql.order_by Sql.count_desc (hosts c));
           session_recommendations := _generate_session_recommendations rows |}
  end.

End CopilotAgentReport.

(** [if x:] for an optional text: it is there and not empty. *)
Definition given (x : option Py.str) : option Py.str :=
  match x with
  | Some (c :: r) => Some (c :: r)
  | _ => None
  end.

(* ================================================================== *)
(** * [copilot_api.py] : the query, statistics and JSON export endpoints *)

Module CopilotAPIQueries.

Import Store.

(** ** [performance_analysis] *)

Record slow_entry := {
  se_id : Z;
  se_method : Py.str;
  se_url : Py.str;
  se_duration : Z;
  se_response_status : option Z
}.

Record metrics := {
  avg_response_time_ms : Sql.ratio;
  min_response_time_ms : Z;
  max_response_time_ms : Z;
  total_requests : Z;
  slow_requests : option Z
}.

Record performance := {
  perf_metrics : metrics;
  slowest_requests : list slow_entry
}.

(** [x * 1000 if x else 0], for a column that is NULL or a number. *)
Definition ms_or_0 (x : option Z) : Z :=
  match x with
  | Some d => if d =? 0 then 0 else d * 1000
  | None => 0
  end.

(** [slowest] is the order in which the database returns the rows for
    ORDER BY duration DESC. *)
Definition performance_of (slowest : list row -> list row) (t : table)
  : performance :=
  let durations := map duration (rows t) in
  {| perf_metrics :=
       {| avg_response_time_ms :=
            match Sql.avg durations with
            | Some a =>
                if Sql.numer a =? 0 then {| Sql.numer := 0; Sql.denom := 1 |}
                else {| Sql.numer := Sql.numer a * 1000;
                        Sql.denom := Sql.denom a |}
            | None => {| Sql.numer := 0; Sql.denom := 1 |}
            end;
          min_response_time_ms := ms_or_0 (Sql.min durations);
          max_response_time_ms := ms_or_0 (Sql.max durations);
          total_requests := Z.of_nat (length (rows t));
          slow_requests :=
            Sql.sum (map (fun r => if duration r >? 2 * second then 1 else 0)
                         (rows t)) |};
     slowest_requests :=
       map (fun r => {| se_id := id r;
                        se_method := method r;
                        se_url := url r;
                        se_duration := duration r;
                        se_response_status := response_status r |})
           (limit 10 (slowest (rows t))) |}.

Definition performance_analysis (slowest : list row -> list row)
  : M (api_response performance) :=
  (p <- db_read (performance_of slowest) ;; ret (Http200 p))%world.

(** ** [query_requests] *)

(** The query string of the request: each parameter is absent or a text. *)
Record query := {
  q_method : option Py.str;
  q_status : option Py.str;
  q_host : option Py.str;
  q_limit : option Py.str
}.




Section QueryRequests.

(** [int(text)] of Python; [None] stands for its ValueError. *)
Variable int : Py.str -> option Z.

(** The order in which the database returns the rows for
    ORDER BY timestamp DESC. *)
Variable newest : list row -> list row.




End QueryRequests.

(** ** [query_hosts] and [query_methods] *)

(** [largest] is the order in which the database returns the groups for
    ORDER BY count DESC. *)
Definition hosts_of (largest : list (Py.str * Z) -> list (Py.str * Z))
           (t : table) : list (Py.str * Z) :=
  largest (Sql.tally Py.eqb (map host (rows t))).

Definition query_hosts (largest : list (Py.str * Z) -> list (Py.str * Z))
  : M (api_response (list (Py.str * Z))) :=
  (hosts <- db_read (hosts_of largest) ;; ret (Http200 hosts))%world.

Definition methods_of (largest : list (Py.str * Z) -> list (Py.str * Z))
           (t : table) : list (Py.str * Z) :=
  largest (Sql.tally Py.eqb (map method (rows t))).

Definition query_methods (largest : list (Py.str * Z) -> list (Py.str * Z))
  : M (api_response (list (Py.str * Z))) :=
  (methods <- db_read (methods_of largest) ;; ret (Http200 methods))%world.

(** ** [export_json] *)

Record json_export := {
  export_count : Z;
  traffic : list row
}.

(** [SELECT * FROM requests ORDER BY timestamp DESC], in the order
    [newest] of the database. *)
Definition export_json (newest : list row -> list row)
  : M (api_response json_export) :=
  (rows <- db_read (fun t => newest (rows t)) ;;
   ret (Http200 {| export_count := Z.of_nat (length rows);
                   traffic := rows |}))%world.

End CopilotAPIQueries.

(* ================================================================== *)
(** * [proxy_server.py] : the list of the web interface *)

Module ProxyManagerList.

Import Store.

(** The nine columns that [get_requests] selects. *)
Record listed := {
  l_id : Z;
  l_timestamp : Z;
  l_method : Py.str;
  l_url : Py.str;
  l_host : Py.str;
  l_path : Py.str;
  l_response_status : option Z;
  l_duration : Z;
  l_protocol : Py.str
}.

Definition columns (r : row) : listed :=
  {| l_id := id r;
     l_timestamp := timestamp r;
     l_method := method r;
     l_url := url r;
     l_host := host r;
     l_path := path r;
     l_response_status := response_status r;
     l_duration := duration r;
     l_protocol := protocol r |}.

(** [SELECT ... FROM requests ORDER BY timestamp DESC LIMIT 1000], in
    the order [newest] of the database. *)
Definition listed_rows (newest : list row -> list row) (t : table)
  : list row :=
  limit 1000 (newest (rows t)).

Definition get_requests (newest : list row -> list row)
  : M (api_response (list listed)) :=
  (rows <- db_read (listed_rows newest) ;;
   ret (Http200 (map columns rows)))%world.

End ProxyManagerList.

(* ================================================================== *)
(** * [bin/traffic_analyzer.py] : the search of the CLI *)

Module TrafficAnalyzerCommands.

Import Store.

(** [sep.join(items)] *)
Fixpoint join (sep : Py.str) (items : list Py.str) : Py.str :=
  match items with
  | [] => []
  | [x] => x
  | x :: rest => x ++ sep ++ join sep rest
  end.

(** [_host_clause_and_params]: the text of the WHERE clause and the
    parameters for its placeholders. *)
Definition _host_clause_and_params (only_zybooks : bool)
           (host : option Py.str) : Py.str * list Py.str :=
  let params := [] in
  let clauses := [] in
  let '(clauses, params) :=
    match given host with
    | Some h => (clauses ++ [Py.lit "host LIKE ?"], params ++ [Sql.anywhere h])
    | None => (clauses, params)
    end in
  let '(clauses, params) :=
    if only_zybooks
    then (clauses ++ [Py.lit "host LIKE ?"], params ++ [Py.lit "%zybooks%"])
    else (clauses, params) in
  match clauses with
  | _ :: _ => (Py.lit "WHERE " ++ join (Py.lit " AND ") clauses, params)
  | [] => ([], params)
  end.

(** What a clause of [_host_clause_and_params] selects: each of its
    conditions is [host LIKE ?] and takes the parameter at its place. *)
Definition where_host (params : list Py.str) (r : row) : bool :=
  forallb (fun p => Sql.like p (host r)) params.

(** ** [search] *)

Definition search_clause : Py.str :=
  Py.lit "(url LIKE ? OR body LIKE ? OR response_body LIKE ? )".

(** The WHERE clause of [search] and its parameters. *)
Definition search_statement (only_zybooks : bool) (query : Py.str)
  : Py.str * list Py.str :=
  let search_params :=
    [Sql.anywhere query; Sql.anywhere query; Sql.anywhere query] in
  let '(host_clause, host_params) :=
    _host_clause_and_params only_zybooks None in
  match host_clause with
  | _ :: _ =>
      (Py.lit "WHERE " ++ search_clause ++ Py.lit " AND "
         ++ skipn (length (Py.lit "WHERE ")) host_clause,
       search_params ++ host_params)
  | [] => (Py.lit "WHERE " ++ search_clause, search_params)
  end.

(** What the clause of [search] selects: the first three parameters go
    to the three columns, the others to the conditions on the host. *)
Definition search_where (params : list Py.str) (r : row) : bool :=
  match params with
  | p1 :: p2 :: p3 :: host_params =>
      (Sql.like p1 (url r) || Sql.like p2 (body r)
       || Sql.like p3 (response_body r))
      && where_host host_params r
  | _ => false
  end.


(** The rows that the statement of [search] selects; [newest] is the
    order in which the database returns rows for ORDER BY timestamp
    DESC. *)
Definition search_rows (newest : list row -> list row) (only_zybooks : bool)
           (query : Py.str) (t : table) : list row :=
  let '(full_clause, params) := search_statement only_zybooks query in
  limit 50 (newest (filter (search_where params) (rows t))).


End TrafficAnalyzerCommands.

(* ================================================================== *)
(** * Worlds of the examples *)

Module Examples.


Definition crowded : world :=
  {| db := Scenario.crowded_table; now := Scenario.frozen; calls := 0 |}.

(** The proxy hook has stored one exchange in an empty table; then the
    table is cleared and the hook stores the exchange again. *)
Definition one_exchange : world :=
  snd (ProxyServer.response Scenario.hardened_flow
                            (Scenario.fresh Scenario.frozen)).

Definition cleared_then_one : world :=
  snd (ProxyServer.response Scenario.hardened_flow
                            (snd (ProxyManager.clear_traffic one_exchange))).

End Examples.


(* ================================================================== *)
(** * Sanity checks of the library models *)

Example lit_ascii : Py.lit "GET" = [71; 69; 84].
Proof. reflexivity. Qed.

Example lit_utf8 : Py.lit "é€😀" = [0xE9; 0x20AC; 0x1F600].
Proof. vm_compute. reflexivity. Qed.

Example decode_drops_invalid :
  Py.utf8_ignore [0x61; 0xFF; 0xE2; 0x82; 0x62; 0xC0; 0x80; 0xED; 0xA0; 0x80; 0x63; 0xF0; 0x9F]
  = [0x61; 0x62; 0x63].
Proof. vm_compute. reflexivity. Qed.

Example str_of_nat_ex :
  Py.str_of_nat 0 = Py.lit "0" /\ Py.str_of_nat 1048576 = Py.lit "1048576"
  /\ Py.str_of_nat 9 = Py.lit "9" /\ Py.str_of_nat 10 = Py.lit "10".
Proof. vm_compute. repeat split. Qed.

Example loads_empty : Json.loads (Py.lit "{}") = Some (Json.Obj []).
Proof. vm_compute. reflexivity. Qed.

Example loads_headers :
  Json.loads (Py.jlit "{'a': 'x', 'B-c': 'é\n', 'a': [1, -2.50e3, true, null]}")
  = Some (Json.Obj [ (Py.lit "a", Json.Arr [Json.Int 1; Json.Float (-250) 1; Json.Bool true; Json.Null]);
                     (Py.lit "B-c", Json.Str [0xE9; 10]) ]).
Proof. vm_compute. reflexivity. Qed.

Example loads_bad :
  Json.loads (Py.lit "not json") = None /\ Json.loads [] = None
  /\ Json.loads (Py.jlit "{'a': 1,}") = None /\ Json.loads (Py.lit "{} x") = None
  /\ Json.loads (Py.lit "01") = None /\ Json.loads (Py.lit "[1.]") = None.
Proof. vm_compute. repeat split. Qed.

Example dumps_loads_ex :
  Json.dumps_headers [(Py.lit "Host", Py.lit "example.com"); (Py.lit "X-é", Py.jlit "a'b\😀")]
  = Py.jlit "{'Host': 'example.com', 'X-\u00e9': 'a\'b\\\ud83d\ude00'}"
  /\ Json.loads (Json.dumps_headers [(Py.lit "Host", Py.lit "example.com"); (Py.lit "X-é", Py.jlit "a'b\😀")])
     = Some (Json.Obj [(Py.lit "Host", Json.Str (Py.lit "example.com")); (Py.lit "X-é", Json.Str (Py.jlit "a'b\😀"))]).
Proof. vm_compute. split; reflexivity. Qed.

(* ================================================================== *)
(** * [json.loads] reads back what [json.dumps] wrote *)

Section JsonRoundTrip.

Lemma hexval_hexdigit (n : Z) :
  0 <= n < 16 -> Json.hexval (Json.hexdigit n) = Some n.
Proof.
  intros Hn. unfold Json.hexval, Json.hexdigit.
  destruct (n <? 10) eqn:E.
  - apply Z.ltb_lt in E.
    replace ((48 <=? 48 + n) && (48 + n <=? 57)) with true
      by (symmetry; apply andb_true_iff; split; apply Z.leb_le; lia).
    f_equal. lia.
  - apply Z.ltb_ge in E.
    replace ((48 <=? 87 + n) && (87 + n <=? 57)) with false
      by (symmetry; apply andb_false_iff; right; apply Z.leb_gt; lia).
    replace ((97 <=? 87 + n) && (87 + n <=? 102)) with true
      by (symmetry; apply andb_true_iff; split; apply Z.leb_le; lia).
    f_equal. lia.
Qed.

Lemma hex4_u_escape (c : Z) (t : Py.str) :
  0 <= c < 0x10000 ->
  exists h1 h2 h3 h4,
    Json.u_escape c ++ t = 92 :: 117 :: h1 :: h2 :: h3 :: h4 :: t
    /\ Json.hex4 h1 h2 h3 h4 = Some c.
Proof.
  intros Hc. unfold Json.u_escape. do 4 eexists. split; [reflexivity|].
  unfold Json.hex4.
  rewrite !Z.shiftr_div_pow2 by lia.
  rewrite !hexval_hexdigit by (apply Z.mod_pos_bound; lia).
  cbn [obind]. f_equal.
  change (2 ^ 12) with 4096. change (2 ^ 8) with 256. change (2 ^ 4) with 16.
  Z.div_mod_to_equations. lia.
Qed.

(** One step of [scanstring] on each shape that [json.dumps] writes. *)
Lemma scan_plain (c : Z) (t acc : Py.str) :
  c <> 34 -> c <> 92 -> 0x1F < c ->
  Json.scanstring (c :: t) acc = Json.scanstring t (c :: acc).
Proof.
  intros H1 H2 H3. cbn [Json.scanstring].
  apply Z.eqb_neq in H1, H2. rewrite H1, H2.
  replace (c <=? 0x1F) with false by (symmetry; apply Z.leb_gt; lia).
  reflexivity.
Qed.

Lemma scan_simple_escape (e x : Z) (t acc : Py.str) :
  e <> 117 -> Json.unescape e = Some x ->
  Json.scanstring (92 :: e :: t) acc = Json.scanstring t (x :: acc).
Proof.
  intros H1 H2. cbn [Json.scanstring].
  apply Z.eqb_neq in H1. rewrite H1, H2. reflexivity.
Qed.

Lemma scan_u_escape (h1 h2 h3 h4 c : Z) (t acc : Py.str) :
  Json.hex4 h1 h2 h3 h4 = Some c -> Json.is_high c = false ->
  Json.scanstring (92 :: 117 :: h1 :: h2 :: h3 :: h4 :: t) acc
  = Json.scanstring t (c :: acc).
Proof.
  intros Hh Hc. cbn [Json.scanstring]. cbn [Z.eqb Pos.eqb]. rewrite Hh.
  destruct t as [|b [|u [|g1 [|g2 [|g3 [|g4 r3]]]]]]; try reflexivity.
  rewrite Hc. reflexivity.
Qed.

Lemma scan_surrogate_pair (h1 h2 h3 h4 g1 g2 g3 g4 c1 c2 : Z) (t acc : Py.str) :
  Json.hex4 h1 h2 h3 h4 = Some c1 -> Json.is_high c1 = true ->
  Json.hex4 g1 g2 g3 g4 = Some c2 -> Json.is_low c2 = true ->
  Json.scanstring
    (92 :: 117 :: h1 :: h2 :: h3 :: h4 :: 92 :: 117 :: g1 :: g2 :: g3 :: g4 :: t)
    acc
  = Json.scanstring t (Json.join_surrogates c1 c2 :: acc).
Proof.
  intros Hh Hc1 Hg Hc2.
  remember (Json.scanstring t (Json.join_surrogates c1 c2 :: acc)) as res.
  cbn [Json.scanstring]. cbn [Z.eqb Pos.eqb]. rewrite Hh, Hc1.
  cbn [andb]. rewrite Hg, Hc2. symmetry. exact Heqres.
Qed.

(** Bits that do not overlap add up. *)
Lemma lor_shifted_low (x y k : Z) :
  0 <= k -> 0 <= y < 2 ^ k -> Z.lor (x * 2 ^ k) y = x * 2 ^ k + y.
Proof.
  intros Hk Hy.
  assert (Hland : Z.land (x * 2 ^ k) y = 0).
  { apply Z.bits_inj'. intros i Hi.
    rewrite Z.land_spec, Z.bits_0.
    destruct (Z.lt_ge_cases i k) as [Hlt | Hge].
    - rewrite Z.mul_pow2_bits_low by lia. reflexivity.
    - destruct (Z.eq_dec y 0) as [-> | Hnz].
      + rewrite Z.bits_0. apply andb_false_r.
      + rewrite (Z.bits_above_log2 y i); [apply andb_false_r | lia|].
        apply Z.log2_lt_pow2; [lia|].
        apply Z.lt_le_trans with (2 ^ k); [lia|].
        apply Z.pow_le_mono_r; lia. }
  rewrite <- Z.lxor_lor by exact Hland.
  symmetry. apply Z.add_nocarry_lxor. exact Hland.
Qed.

Lemma surrogates_of (c : Z) :
  0x10000 <= c <= 0x10FFFF ->
  let n := c - 0x10000 in
  let hi := Z.lor 0xD800 (Z.land (Z.shiftr n 10) 0x3FF) in
  let lo := Z.lor 0xDC00 (Z.land n 0x3FF) in
  0 <= hi < 0x10000 /\ 0 <= lo < 0x10000
  /\ Json.is_high hi = true /\ Json.is_low lo = true
  /\ Json.join_surrogates hi lo = c.
Proof.
  intros Hc n hi lo.
  assert (Hn : 0 <= n < 0x100000) by (subst n; lia).
  assert (Hhi : hi = 0xD800 + n / 1024).
  { subst hi.
    change 0x3FF with (Z.ones 10). rewrite Z.land_ones by lia.
    rewrite Z.shiftr_div_pow2 by lia.
    change (2 ^ 10) with 1024.
    rewrite Z.mod_small by (split; [apply Z.div_pos; lia | apply Z.div_lt_upper_bound; lia]).
    change 0xD800 with (54 * 2 ^ 10).
    rewrite lor_shifted_low; [reflexivity | lia |].
    change (2 ^ 10) with 1024.
    split; [apply Z.div_pos; lia | apply Z.div_lt_upper_bound; lia]. }
  assert (Hlo : lo = 0xDC00 + n mod 1024).
  { subst lo.
    change 0x3FF with (Z.ones 10). rewrite Z.land_ones by lia.
    change (2 ^ 10) with 1024.
    change 0xDC00 with (55 * 2 ^ 10).
    rewrite lor_shifted_low; [reflexivity | lia |].
    change (2 ^ 10) with 1024. apply Z.mod_pos_bound. lia. }
  assert (Hq : 0 <= n / 1024 < 1024)
    by (split; [apply Z.div_pos; lia | apply Z.div_lt_upper_bound; lia]).
  assert (Hr : 0 <= n mod 1024 < 1024) by (apply Z.mod_pos_bound; lia).
  rewrite Hhi, Hlo.
  split; [lia|]. split; [lia|].
  split; [unfold Json.is_high; apply andb_true_iff; split; apply Z.leb_le; lia|].
  split; [unfold Json.is_low; apply andb_true_iff; split; apply Z.leb_le; lia|].
  unfold Json.join_surrogates.
  change 0x3FF with (Z.ones 10). rewrite !Z.land_ones by lia.
  change (2 ^ 10) with 1024.
  replace ((0xD800 + n / 1024) mod 1024) with (n / 1024).
  2:{ change 0xD800 with (54 * 1024).
      rewrite Z.add_comm, Z.mod_add by lia. symmetry. apply Z.mod_small. lia. }
  replace ((0xDC00 + n mod 1024) mod 1024) with (n mod 1024).
  2:{ change 0xDC00 with (55 * 1024).
      rewrite Z.add_comm, Z.mod_add by lia. symmetry. apply Z.mod_small. lia. }
  rewrite Z.shiftl_mul_pow2 by lia.
  rewrite lor_shifted_low by (change (2 ^ 10) with 1024; lia).
  change (2 ^ 10) with 1024.
  pose proof (Z.div_mod n 1024 ltac:(lia)). subst n. lia.
Qed.

(** A string as [json.dumps] writes it is read back by [scanstring]. *)
Lemma scanstring_escaped (s : Py.str) :
  Json.plain_text s ->
  forall t acc,
    Json.scanstring (flat_map Json.escape_cp s ++ 34 :: t) acc
    = Some (rev acc ++ s, t).
Proof.
  induction 1 as [|c s [Hrange Hhigh] _ IH]; intros t acc.
  - cbn [flat_map app Json.scanstring Z.eqb Pos.eqb].
    rewrite app_nil_r. reflexivity.
  - cbn [flat_map]. rewrite <- app_assoc.
    assert (Hdone : Json.scanstring (flat_map Json.escape_cp s ++ 34 :: t) (c :: acc)
                    = Some (rev acc ++ c :: s, t)).
    { rewrite IH. cbn [rev]. rewrite <- app_assoc. reflexivity. }
    remember (flat_map Json.escape_cp s ++ 34 :: t) as rest eqn:Erest.
    clear Erest IH.
    unfold Json.escape_cp.
    destruct (c =? 92) eqn:E92.
    { apply Z.eqb_eq in E92. subst c.
      cbn [app]. rewrite (scan_simple_escape 92 92) by (reflexivity || discriminate).
      exact Hdone. }
    destruct (c =? 34) eqn:E34.
    { apply Z.eqb_eq in E34. subst c.
      cbn [app]. rewrite (scan_simple_escape 34 34) by (reflexivity || discriminate).
      exact Hdone. }
    apply Z.eqb_neq in E92, E34.
    destruct ((32 <=? c) && (c <=? 126)) eqn:Eprint.
    { apply andb_true_iff in Eprint. destruct Eprint as [Hlo Hhi].
      apply Z.leb_le in Hlo, Hhi.
      cbn [app]. rewrite scan_plain by lia. exact Hdone. }
    destruct (c =? 8) eqn:E8.
    { apply Z.eqb_eq in E8. subst c.
      cbn [app]. rewrite (scan_simple_escape 98 8) by (reflexivity || discriminate).
      exact Hdone. }
    destruct (c =? 12) eqn:E12.
    { apply Z.eqb_eq in E12. subst c.
      cbn [app]. rewrite (scan_simple_escape 102 12) by (reflexivity || discriminate).
      exact Hdone. }
    destruct (c =? 10) eqn:E10.
    { apply Z.eqb_eq in E10. subst c.
      cbn [app]. rewrite (scan_simple_escape 110 10) by (reflexivity || discriminate).
      exact Hdone. }
    destruct (c =? 13) eqn:E13.
    { apply Z.eqb_eq in E13. subst c.
      cbn [app]. rewrite (scan_simple_escape 114 13) by (reflexivity || discriminate).
      exact Hdone. }
    destruct (c =? 9) eqn:E9.
    { apply Z.eqb_eq in E9. subst c.
      cbn [app]. rewrite (scan_simple_escape 116 9) by (reflexivity || discriminate).
      exact Hdone. }
    destruct (c <? 0x10000) eqn:Ebmp.
    { apply Z.ltb_lt in Ebmp.
      destruct (hex4_u_escape c rest)
        as (h1 & h2 & h3 & h4 & -> & Hhex); [lia|].
      rewrite (scan_u_escape _ _ _ _ _ _ _ Hhex Hhigh). exact Hdone. }
    apply Z.ltb_ge in Ebmp.
    destruct (surrogates_of c ltac:(lia)) as (Hhi & Hlo & Hh & Hl & Hjoin).
    cbv zeta in Hhi, Hlo, Hh, Hl, Hjoin.
    set (hi := Z.lor 0xD800 (Z.land (Z.shiftr (c - 0x10000) 10) 0x3FF)) in *.
    set (lo := Z.lor 0xDC00 (Z.land (c - 0x10000) 0x3FF)) in *.
    cbv zeta. fold hi. fold lo.
    rewrite <- app_assoc.
    destruct (hex4_u_escape lo rest)
      as (g1 & g2 & g3 & g4 & -> & Hg); [lia|].
    destruct (hex4_u_escape hi (92 :: 117 :: g1 :: g2 :: g3 :: g4 :: rest))
      as (h1 & h2 & h3 & h4 & -> & Hhex); [lia|].
    rewrite (scan_surrogate_pair _ _ _ _ _ _ _ _ _ _ _ _ Hhex Hh Hg Hl).
    rewrite Hjoin. exact Hdone.
Qed.

Lemma scan_once_string (f : nat) (s t : Py.str) :
  Json.plain_text s ->
  Json.scan_once (S f) (Json.dumps_str s ++ t) = Some (Json.Str s, t).
Proof.
  intros Hs. unfold Json.dumps_str.
  cbn [app Json.scan_once Z.eqb Pos.eqb]. rewrite <- app_assoc.
  cbn [app]. rewrite scanstring_escaped by exact Hs. reflexivity.
Qed.

(** One turn of the loop of [members]. *)
Lemma members_unfold (f : nat) (s : Py.str) (acc : Json.dict) :
  Json.members (S f) s acc
  = match s with
    | q :: r =>
        if q =? 34 then
          (' (key, r1) <- Json.scanstring r [] ;;
           match Json.skip_ws r1 with
           | colon :: r2 =>
               if colon =? 58 then
                 ' (v, r3) <- Json.scan_once f (Json.skip_ws r2) ;;
                 let acc' := Json.set acc key v in
                 match Json.skip_ws r3 with
                 | d :: r4 =>
                     if d =? 125 then Some (Json.Obj acc', r4)
                     else if d =? 44 then Json.members f (Json.skip_ws r4) acc'
                     else None
                 | [] => None
                 end
               else None
           | [] => None
           end)%option
        else None
    | [] => None
    end.
Proof. reflexivity. Qed.

Lemma skip_ws_dumps_str (s t : Py.str) :
  Json.skip_ws (Json.dumps_str s ++ t) = Json.dumps_str s ++ t.
Proof. reflexivity. Qed.

Lemma members_item (f : nat) (k v : Py.str) (tail : Py.str) (acc : Json.dict) :
  Json.plain_text k -> Json.plain_text v ->
  Json.members (S (S f)) (Json.dumps_item (k, v) ++ tail) acc
  = match Json.skip_ws tail with
    | d :: r4 =>
        if d =? 125 then Some (Json.Obj (Json.set acc k (Json.Str v)), r4)
        else if d =? 44
             then Json.members (S f) (Json.skip_ws r4) (Json.set acc k (Json.Str v))
             else None
    | [] => None
    end.
Proof.
  intros Hk Hv. rewrite members_unfold.
  unfold Json.dumps_item, Json.dumps_str at 1. cbn [fst snd app].
  rewrite <- !app_assoc. cbn [app Z.eqb Pos.eqb].
  rewrite scanstring_escaped by exact Hk.
  cbn [obind rev app Json.skip_ws Json.is_ws Z.eqb Pos.eqb orb].
  rewrite skip_ws_dumps_str, scan_once_string by exact Hv.
  reflexivity.
Qed.

Lemma skip_ws_items (kv : Py.str * Py.str) (d : list (Py.str * Py.str))
      (t : Py.str) :
  Json.skip_ws (Json.join_items (map Json.dumps_item (kv :: d)) ++ t)
  = Json.join_items (map Json.dumps_item (kv :: d)) ++ t.
Proof. destruct d; reflexivity. Qed.

Lemma members_items (d : list (Py.str * Py.str)) :
  Json.plain_headers d -> d <> [] ->
  forall f acc t,
    (length d <= f)%nat ->
    Json.members (S f) (Json.join_items (map Json.dumps_item d) ++ 125 :: t) acc
    = Some (Json.Obj (fold_left (fun a kv => Json.set a (fst kv) (Json.Str (snd kv)))
                                d acc), t).
Proof.
  induction 1 as [|[k v] d [Hk Hv] Hd IH]; intros Hne f acc t Hf; [congruence|].
  cbn [fst snd] in Hk, Hv.
  destruct f as [|f]; [cbn [length] in Hf; lia|].
  destruct d as [|kv' d'].
  - cbn [map Json.join_items fold_left fst snd].
    rewrite members_item by assumption.
    reflexivity.
  - change (Json.join_items (map Json.dumps_item ((k, v) :: kv' :: d')))
      with (Json.dumps_item (k, v)
            ++ [44; 32] ++ Json.join_items (map Json.dumps_item (kv' :: d'))).
    rewrite <- !app_assoc.
    rewrite members_item by assumption.
    cbn [app Json.skip_ws Json.is_ws Z.eqb Pos.eqb orb].
    rewrite skip_ws_items.
    rewrite IH; [reflexivity | discriminate | cbn [length] in *; lia].
Qed.

Lemma join_items_length (d : list (Py.str * Py.str)) :
  (length d <= length (Json.join_items (map Json.dumps_item d)))%nat.
Proof.
  induction d as [|kv [|kv' d] IH].
  - cbn. lia.
  - cbn. lia.
  - change (Json.join_items (map Json.dumps_item (kv :: kv' :: d)))
      with (Json.dumps_item kv
            ++ [44; 32] ++ Json.join_items (map Json.dumps_item (kv' :: d))).
    rewrite !length_app. cbn [length] in *. lia.
Qed.

Lemma scan_once_dumps_headers (f : nat) (d : list (Py.str * Py.str)) :
  Json.plain_headers d -> (length d <= f)%nat ->
  Json.scan_once (S (S f)) (Json.dumps_headers d)
  = Some (Json.Obj (Json.of_headers d), []).
Proof.
  intros Hd Hf. unfold Json.dumps_headers, Json.of_headers.
  cbn [app Json.scan_once Z.eqb Pos.eqb].
  destruct d as [|kv d].
  - reflexivity.
  - rewrite skip_ws_items.
    assert (Hhead : exists r', Json.join_items (map Json.dumps_item (kv :: d)) ++ [125]
                               = 34 :: r').
    { destruct d; eexists; reflexivity. }
    destruct Hhead as [r' Hhead]. rewrite Hhead.
    cbn [Z.eqb Pos.eqb]. rewrite <- Hhead. clear Hhead r'.
    rewrite members_items; [reflexivity | exact Hd | discriminate | exact Hf].
Qed.

(** What the capture hooks write into a header column, [json.loads] reads
    back as the dictionary of the headers. *)
Lemma loads_dumps_headers (d : list (Py.str * Py.str)) :
  Json.plain_headers d ->
  Json.loads (Json.dumps_headers d) = Some (Json.Obj (Json.of_headers d)).
Proof.
  intros Hd. unfold Json.loads.
  assert (Hskip : Json.skip_ws (Json.dumps_headers d) = Json.dumps_headers d)
    by reflexivity.
  rewrite Hskip.
  assert (Hlen : (S (length d) <= 2 * length (Json.dumps_headers d))%nat).
  { unfold Json.dumps_headers. rewrite !length_app. cbn [length].
    pose proof (join_items_length d). lia. }
  destruct (2 * length (Json.dumps_headers d))%nat as [|f] eqn:E; [lia|].
  rewrite scan_once_dumps_headers by (exact Hd || lia).
  reflexivity.
Qed.

End JsonRoundTrip.

(* ================================================================== *)
(** * The fuel of the scanner *)

Section ScannerFuel.

Lemma skip_ws_length (s : Py.str) :
  (length (Json.skip_ws s) <= length s)%nat.
Proof.
  induction s as [|c s IH]; cbn [Json.skip_ws length]; [lia|].
  destruct (Json.is_ws c); cbn [length]; lia.
Qed.

Lemma skip_ws_cons (s r : Py.str) (c : Z) :
  Json.skip_ws s = c :: r -> (S (length r) <= length s)%nat.
Proof.
  intros H. pose proof (skip_ws_length s) as Hl.
  rewrite H in Hl. exact Hl.
Qed.

Lemma scanstring_rest (n : nat) :
  forall s acc x r,
    (length s <= n)%nat ->
    Json.scanstring s acc = Some (x, r) -> (length r < length s)%nat.
Proof.
  induction n as [|n IH]; intros s acc x r Hn H.
  - destruct s; [discriminate H | cbn [length] in Hn; lia].
  - destruct s as [|c r0]; [discriminate H|].
    cbn [length] in Hn. cbn [Json.scanstring] in H.
    destruct (c =? 34).
    { inversion H; subst. cbn [length]. lia. }
    destruct (c =? 92).
    2:{ destruct (c <=? 0x1F); [discriminate H|].
        apply IH in H; [cbn [length]; lia | lia]. }
    destruct r0 as [|e r1]; [discriminate H|].
    cbn [length] in Hn |- *.
    destruct (e =? 117).
    2:{ destruct (Json.unescape e); [|discriminate H].
        apply IH in H; [lia | lia]. }
    destruct r1 as [|h1 [|h2 [|h3 [|h4 r2]]]]; try discriminate H.
    cbn [length] in Hn |- *.
    destruct (Json.hex4 h1 h2 h3 h4) as [c1|]; [|discriminate H].
    assert (Hplain : forall y, Json.scanstring r2 (c1 :: acc) = Some y ->
                               y = (x, r) -> (length r < 6 + length r2)%nat).
    { intros y Hy ->. apply IH in Hy; lia. }
    destruct r2 as [|b [|u [|g1 [|g2 [|g3 [|g4 r3]]]]]];
      try (exact (Hplain _ H eq_refl)).
    destruct (Json.is_high c1 && (b =? 92) && (u =? 117));
      [|exact (Hplain _ H eq_refl)].
    destruct (Json.hex4 g1 g2 g3 g4) as [c2|]; [|discriminate H].
    destruct (Json.is_low c2); [|exact (Hplain _ H eq_refl)].
    apply IH in H; cbn [length] in *; lia.
Qed.

Lemma span_digits_rest (s : Py.str) :
  forall acc ds r,
    Json.span_digits s acc = (ds, r) -> (length r <= length s)%nat.
Proof.
  induction s as [|c s IH]; intros acc ds r H; cbn [Json.span_digits] in H.
  - inversion H; subst. lia.
  - destruct (Json.is_digit c).
    + apply IH in H. cbn [length]. lia.
    + inversion H; subst. lia.
Qed.

Lemma int_part_rest (s ip r : Py.str) :
  Json.int_part s = Some (ip, r) -> (length r <= length s)%nat.
Proof.
  unfold Json.int_part. destruct s as [|c s']; [discriminate|].
  destruct (c =? 48).
  - intros H; inversion H; subst. cbn [length]. lia.
  - destruct (Json.is_digit c) eqn:Ed; [|discriminate].
    intros H.
    destruct (Json.span_digits (c :: s') []) as [ds r0] eqn:Hs.
    inversion H; subst. apply span_digits_rest in Hs. exact Hs.
Qed.

Lemma frac_part_rest (s fp r : Py.str) :
  Json.frac_part s = (fp, r) -> (length r <= length s)%nat.
Proof.
  unfold Json.frac_part.
  destruct s as [|dot [|d s']];
    try (intros H; inversion H; subst; lia).
  destruct ((dot =? 46) && Json.is_digit d).
  - cbn [tl]. intros H. apply span_digits_rest in H. cbn [length] in *. lia.
  - intros H; inversion H; subst. lia.
Qed.

Lemma exp_part_rest (s r : Py.str) (ex : option Z) :
  Json.exp_part s = (ex, r) -> (length r <= length s)%nat.
Proof.
  unfold Json.exp_part.
  destruct s as [|e s']; [intros H; inversion H; subst; lia|].
  destruct ((e =? 101) || (e =? 69)); [|intros H; inversion H; subst; lia].
  assert (Hsign : forall (neg : bool) (r1 : Py.str),
             (length r1 <= length s')%nat ->
             (let (ds, r2) := Json.span_digits r1 [] in
              match ds with
              | [] => (None, e :: s')
              | _ :: _ =>
                  (Some (if neg then - Json.nat_of_digits ds
                         else Json.nat_of_digits ds), r2)
              end) = (ex, r) -> (length r <= length (e :: s'))%nat).
  { intros neg r1 Hr1.
    destruct (Json.span_digits r1 []) as [ds r2] eqn:E.
    apply span_digits_rest in E.
    destruct ds; intros H; inversion H; subst; cbn [length]; lia. }
  destruct s' as [|sg r'].
  - exact (Hsign false [] (le_n _)).
  - destruct (sg =? 45); [apply (Hsign true r'); cbn [length]; lia|].
    destruct (sg =? 43); [apply (Hsign false r'); cbn [length]; lia|].
    exact (Hsign false (sg :: r') (le_n _)).
Qed.

Lemma match_number_rest (s r : Py.str) (v : Json.value) :
  Json.match_number s = Some (v, r) -> (length r <= length s)%nat.
Proof.
  unfold Json.match_number.
  assert (Hgo : forall (neg : bool) (s1 : Py.str),
             (length s1 <= length s)%nat ->
             match Json.int_part s1 with
             | None => None
             | Some (ip, s2) =>
                 let '(fp, s3) := Json.frac_part s2 in
                 let '(ex, s4) := Json.exp_part s3 in
                 let sign (z : Z) := if neg then - z else z in
                 match fp, ex with
                 | [], None => Some (Json.Int (sign (Json.nat_of_digits ip)), s4)
                 | _, _ =>
                     let e := match ex with Some e => e | None => 0 end in
                     Some (Json.Float (sign (Json.nat_of_digits (ip ++ fp)))
                                      (e - Z.of_nat (length fp)), s4)
                 end
             end = Some (v, r) -> (length r <= length s)%nat).
  { intros neg s1 Hs1.
    destruct (Json.int_part s1) as [[ip s2]|] eqn:E1; [|discriminate].
    apply int_part_rest in E1.
    destruct (Json.frac_part s2) as [fp s3] eqn:E2. apply frac_part_rest in E2.
    destruct (Json.exp_part s3) as [ex s4] eqn:E3. apply exp_part_rest in E3.
    destruct fp, ex; intros H; inversion H; subst; lia. }
  destruct s as [|c s'].
  - exact (Hgo false [] (le_n _)).
  - destruct (c =? 45).
    + apply (Hgo true s'). cbn [length]. lia.
    + exact (Hgo false (c :: s') (le_n _)).
Qed.

Lemma keyword_rest (s r : Py.str) (w : string) (v v' : Json.value) :
  Json.keyword s w v = Some (v', r) -> (length r <= length s)%nat.
Proof.
  unfold Json.keyword. destruct (Py.startswith s (Py.lit w)); [|discriminate].
  intros H; inversion H; subst. rewrite length_skipn. lia.
Qed.

(** One step of [scan_once] and one turn of the loop of [elements]. *)
Lemma scan_once_unfold (f : nat) (s : Py.str) :
  Json.scan_once (S f) s
  = match s with
    | [] => None
    | c :: r =>
        if c =? 34 then
          (' (x, r') <- Json.scanstring r [] ;; Some (Json.Str x, r'))%option
        else if c =? 123 then
          match Json.skip_ws r with
          | c' :: r' =>
              if c' =? 125 then Some (Json.Obj [], r')
              else Json.members f (c' :: r') []
          | [] => None
          end
        else if c =? 91 then
          match Json.skip_ws r with
          | c' :: r' =>
              if c' =? 93 then Some (Json.Arr [], r')
              else Json.elements f (c' :: r') []
          | [] => None
          end
        else if c =? 110 then Json.keyword s "null" Json.Null
        else if c =? 116 then Json.keyword s "true" (Json.Bool true)
        else if c =? 102 then Json.keyword s "false" (Json.Bool false)
        else if c =? 78 then Json.keyword s "NaN" Json.NaN
        else if c =? 73 then Json.keyword s "Infinity" (Json.Inf false)
        else if c =? 45 then
          Json.orelse (Json.keyword s "-Infinity" (Json.Inf true))
                      (Json.match_number s)
        else Json.match_number s
    end.
Proof. reflexivity. Qed.

Lemma elements_unfold (f : nat) (s : Py.str) (acc : list Json.value) :
  Json.elements (S f) s acc
  = (' (v, r1) <- Json.scan_once f s ;;
     match Json.skip_ws r1 with
     | d :: r2 =>
         if d =? 93 then Some (Json.Arr (rev (v :: acc)), r2)
         else if d =? 44 then Json.elements f (Json.skip_ws r2) (v :: acc)
         else None
     | [] => None
     end)%option.
Proof. reflexivity. Qed.

Lemma minus_rest (s r : Py.str) (v : Json.value) :
  Json.orelse (Json.keyword s "-Infinity" (Json.Inf true)) (Json.match_number s)
  = Some (v, r) ->
  (length r <= length s)%nat.
Proof.
  unfold Json.orelse.
  destruct (Json.keyword s "-Infinity" (Json.Inf true)) as [p|] eqn:E.
  - intros H. inversion H; subst. exact (keyword_rest _ _ _ _ _ E).
  - exact (match_number_rest _ _ _).
Qed.

(** The scanners return a part of the text they were given. *)
Lemma scan_once_rest_step (f : nat) :
  (forall s acc v r,
      Json.members f s acc = Some (v, r) -> (length r <= length s)%nat) ->
  (forall s acc v r,
      Json.elements f s acc = Some (v, r) -> (length r <= length s)%nat) ->
  forall s v r,
    Json.scan_once (S f) s = Some (v, r) -> (length r <= length s)%nat.
Proof.
  intros IHm IHe s v r H. rewrite scan_once_unfold in H.
  destruct s as [|c r0]; [discriminate H|].
  destruct (c =? 34).
  { destruct (Json.scanstring r0 []) as [[x r']|] eqn:E; [|discriminate H].
    cbn [obind] in H. inversion H; subst.
    apply (scanstring_rest (length r0)) in E; cbn [length]; lia. }
  destruct (c =? 123).
  { destruct (Json.skip_ws r0) as [|c' r'] eqn:E; [discriminate H|].
    apply skip_ws_cons in E.
    destruct (c' =? 125).
    - inversion H; subst. cbn [length]. lia.
    - apply IHm in H. cbn [length] in *. lia. }
  destruct (c =? 91).
  { destruct (Json.skip_ws r0) as [|c' r'] eqn:E; [discriminate H|].
    apply skip_ws_cons in E.
    destruct (c' =? 93).
    - inversion H; subst. cbn [length]. lia.
    - apply IHe in H. cbn [length] in *. lia. }
  destruct (c =? 110); [exact (keyword_rest _ _ _ _ _ H)|].
  destruct (c =? 116); [exact (keyword_rest _ _ _ _ _ H)|].
  destruct (c =? 102); [exact (keyword_rest _ _ _ _ _ H)|].
  destruct (c =? 78); [exact (keyword_rest _ _ _ _ _ H)|].
  destruct (c =? 73); [exact (keyword_rest _ _ _ _ _ H)|].
  destruct (c =? 45); [exact (minus_rest _ _ _ H)|].
  exact (match_number_rest _ _ _ H).
Qed.

Lemma members_rest_step (f : nat) :
  (forall s v r,
      Json.scan_once f s = Some (v, r) -> (length r <= length s)%nat) ->
  (forall s acc v r,
      Json.members f s acc = Some (v, r) -> (length r <= length s)%nat) ->
  forall s acc v r,
    Json.members (S f) s acc = Some (v, r) -> (length r <= length s)%nat.
Proof.
  intros IHs IHm s acc v r H. rewrite members_unfold in H.
  destruct s as [|q r0]; [discriminate H|]. cbn [length].
  destruct (q =? 34); [|discriminate H].
  destruct (Json.scanstring r0 []) as [[key r1]|] eqn:E1; [|discriminate H].
  cbn [obind] in H. apply (scanstring_rest (length r0)) in E1; [|lia].
  destruct (Json.skip_ws r1) as [|colon r2] eqn:E2; [discriminate H|].
  apply skip_ws_cons in E2.
  destruct (colon =? 58); [|discriminate H].
  destruct (Json.scan_once f (Json.skip_ws r2)) as [[v1 r3]|] eqn:E3;
    [|discriminate H].
  cbn [obind] in H. apply IHs in E3.
  pose proof (skip_ws_length r2) as Hr2.
  destruct (Json.skip_ws r3) as [|d r4] eqn:E4; [discriminate H|].
  apply skip_ws_cons in E4.
  destruct (d =? 125).
  { inversion H; subst. lia. }
  destruct (d =? 44); [|discriminate H].
  apply IHm in H. pose proof (skip_ws_length r4). lia.
Qed.

Lemma elements_rest_step (f : nat) :
  (forall s v r,
      Json.scan_once f s = Some (v, r) -> (length r <= length s)%nat) ->
  (forall s acc v r,
      Json.elements f s acc = Some (v, r) -> (length r <= length s)%nat) ->
  forall s acc v r,
    Json.elements (S f) s acc = Some (v, r) -> (length r <= length s)%nat.
Proof.
  intros IHs IHe s acc v r H. rewrite elements_unfold in H.
  destruct (Json.scan_once f s) as [[v1 r1]|] eqn:E1; [|discriminate H].
  cbn [obind] in H. apply IHs in E1.
  destruct (Json.skip_ws r1) as [|d r2] eqn:E2; [discriminate H|].
  apply skip_ws_cons in E2.
  destruct (d =? 93).
  { inversion H; subst. lia. }
  destruct (d =? 44); [|discriminate H].
  apply IHe in H. pose proof (skip_ws_length r2). lia.
Qed.

Lemma scan_rest (f : nat) :
  (forall s v r,
      Json.scan_once f s = Some (v, r) -> (length r <= length s)%nat)
  /\ (forall s acc v r,
         Json.members f s acc = Some (v, r) -> (length r <= length s)%nat)
  /\ (forall s acc v r,
         Json.elements f s acc = Some (v, r) -> (length r <= length s)%nat).
Proof.
  induction f as [|f (IHs & IHm & IHe)].
  { repeat split; intros; discriminate. }
  split; [|split].
  - exact (scan_once_rest_step f IHm IHe).
  - exact (members_rest_step f IHs IHm).
  - exact (elements_rest_step f IHs IHe).
Qed.

(** Beyond twice the length of the text the fuel makes no difference. *)
Lemma fuel_irrelevant (f : nat) :
  forall f',
    (forall s,
        (2 * length s < f)%nat -> (2 * length s < f')%nat ->
        Json.scan_once f s = Json.scan_once f' s)
    /\ (forall s acc,
           (2 * length s + 1 < f)%nat -> (2 * length s + 1 < f')%nat ->
           Json.members f s acc = Json.members f' s acc)
    /\ (forall s acc,
           (2 * length s + 1 < f)%nat -> (2 * length s + 1 < f')%nat ->
           Json.elements f s acc = Json.elements f' s acc).
Proof.
  induction f as [|g IH]; intros f'.
  { repeat split; intros; lia. }
  destruct f' as [|g'].
  { repeat split; intros; lia. }
  destruct (IH g') as (IHs & IHm & IHe). clear IH.
  split; [|split].
  - intros s Hg Hg'. rewrite !scan_once_unfold.
    destruct s as [|c r0]; [reflexivity|]. cbn [length] in Hg, Hg'.
    destruct (c =? 34); [reflexivity|].
    destruct (c =? 123).
    { destruct (Json.skip_ws r0) as [|c' r'] eqn:E; [reflexivity|].
      apply skip_ws_cons in E.
      destruct (c' =? 125); [reflexivity|].
      apply IHm; cbn [length]; lia. }
    destruct (c =? 91).
    { destruct (Json.skip_ws r0) as [|c' r'] eqn:E; [reflexivity|].
      apply skip_ws_cons in E.
      destruct (c' =? 93); [reflexivity|].
      apply IHe; cbn [length]; lia. }
    reflexivity.
  - intros s acc Hg Hg'. rewrite !members_unfold.
    destruct s as [|q r0]; [reflexivity|]. cbn [length] in Hg, Hg'.
    destruct (q =? 34); [|reflexivity].
    destruct (Json.scanstring r0 []) as [[key r1]|] eqn:E1; [|reflexivity].
    cbn [obind]. apply (scanstring_rest (length r0)) in E1; [|lia].
    destruct (Json.skip_ws r1) as [|colon r2] eqn:E2; [reflexivity|].
    apply skip_ws_cons in E2.
    destruct (colon =? 58); [|reflexivity].
    pose proof (skip_ws_length r2) as Hr2.
    rewrite (IHs (Json.skip_ws r2)) by lia.
    destruct (Json.scan_once g' (Json.skip_ws r2)) as [[v1 r3]|] eqn:E3;
      [|reflexivity].
    cbn [obind]. apply (proj1 (scan_rest g')) in E3.
    destruct (Json.skip_ws r3) as [|d r4] eqn:E4; [reflexivity|].
    apply skip_ws_cons in E4.
    destruct (d =? 125); [reflexivity|].
    destruct (d =? 44); [|reflexivity].
    pose proof (skip_ws_length r4).
    apply IHm; lia.
  - intros s acc Hg Hg'. rewrite !elements_unfold.
    rewrite (IHs s) by lia.
    destruct (Json.scan_once g' s) as [[v1 r1]|] eqn:E1; [|reflexivity].
    cbn [obind]. apply (proj1 (scan_rest g')) in E1.
    destruct (Json.skip_ws r1) as [|d r2] eqn:E2; [reflexivity|].
    apply skip_ws_cons in E2.
    destruct (d =? 93); [reflexivity|].
    destruct (d =? 44); [|reflexivity].
    pose proof (skip_ws_length r2).
    apply IHe; lia.
Qed.

(** [loads] never fails for lack of fuel: more fuel than it gives leads to
    the same outcome. *)
Lemma loads_fuel (s : Py.str) (f : nat) :
  (2 * length s < f)%nat ->
  Json.scan_once f (Json.skip_ws s)
  = Json.scan_once (S (2 * length s)) (Json.skip_ws s).
Proof.
  intros Hf. pose proof (skip_ws_length s) as Hs.
  apply (proj1 (fuel_irrelevant f (S (2 * length s)))); lia.
Qed.

End ScannerFuel.

(* ================================================================== *)
(** * The result monad *)

Lemma rbind_ok {A B} (r : result A) (k : A -> result B) (b : B) :
  rbind r k = Ok b -> exists a, r = Ok a /\ k a = Ok b.
Proof.
  destruct r as [a|e]; simpl; intros H.
  - exists a; split; [reflexivity | exact H].
  - discriminate H.
Qed.

Lemma respond_200 {A} (r : result A) (a : A) :
  respond r = Http200 a <-> r = Ok a.
Proof.
  destruct r; simpl; split; intros H; inversion H; reflexivity.
Qed.

(* ================================================================== *)
(** * The analysis of one exchange *)

Section Analysis.

Import Store CopilotAgent.

Lemma json_loads_ok (s : Py.str) (v : Json.value) :
  json_loads s = Ok v <-> Json.loads s = Some v.
Proof.
  unfold json_loads; destruct (Json.loads s); split; intros H;
    inversion H; reflexivity.
Qed.

Lemma json_loads_raise (s : Py.str) :
  Json.loads s = None -> json_loads s = Raise JSONDecodeError.
Proof. unfold json_loads; intros ->; reflexivity. Qed.

(** What a successful analysis went through. *)
Lemma analyze_request_inv (t : table) (request_id : Z) (a : RequestAnalysis) :
  analyze_request t request_id = Ok a ->
  exists req h rh issues,
    select_by_id request_id t = Some req
    /\ json_loads (headers req) = Ok h
    /\ json_loads (response_headers req) = Ok rh
    /\ _check_security req h rh = Ok issues
    /\ vulnerabilities a = issues
    /\ security_score a = Z.max 0 (100 - Z.of_nat (length issues) * 10).
Proof.
  unfold analyze_request.
  destruct (select_by_id request_id t) as [req|]; [|discriminate].
  intros H.
  apply rbind_ok in H; destruct H as [h [Hh H]].
  apply rbind_ok in H; destruct H as [rh [Hrh H]].
  apply rbind_ok in H; destruct H as [issues [Hsec H]].
  apply rbind_ok in H; destruct H as [best [Hbest H]].
  inversion H; subst a; clear H; simpl.
  exists req, h, rh, issues; repeat split; assumption.
Qed.

Lemma all_text_get (d : Json.dict) (k : Py.str) (v : Json.value) :
  all_text d = true -> Json.get d k = Some v -> exists s, v = Json.Str s.
Proof.
  induction d as [|[k' v'] d IH]; simpl; [discriminate|].
  intros Hall Hget.
  apply andb_true_iff in Hall; destruct Hall as [Hv Hd].
  destruct (Py.eqb k k').
  - inversion Hget; subst v'. destruct v; try discriminate. eauto.
  - auto.
Qed.

(** The security check goes through on two dictionaries when the request
    headers are all strings. *)
Lemma check_security_total (req : row) (hs rhs : Json.dict) :
  all_text hs = true ->
  exists issues, _check_security req (Json.Obj hs) (Json.Obj rhs) = Ok issues.
Proof.
  intros Hall. unfold _check_security. simpl rbind.
  destruct (Py.mem (Py.lit "authorization") (map Py.lower (Json.keys hs))).
  - destruct (Json.get hs (Py.lit "Authorization")) as [v|] eqn:E1.
    + destruct (all_text_get _ _ _ Hall E1) as [s ->]. simpl. eauto.
    + destruct (Json.get hs (Py.lit "authorization")) as [v|] eqn:E2.
      * destruct (all_text_get _ _ _ Hall E2) as [s ->]. simpl. eauto.
      * simpl. eauto.
  - simpl. eauto.
Qed.

Lemma check_best_practices_total (req : row) (hs rhs : Json.dict) :
  exists recs, _check_best_practices req (Json.Obj hs) (Json.Obj rhs) = Ok recs.
Proof.
  unfold _check_best_practices.
  destruct (Py.eqb (method req) (Py.lit "GET")); simpl; eauto.
Qed.

Lemma analyze_request_total (t : table) (request_id : Z) (req : row)
      (hs rhs : Json.dict) :
  select_by_id request_id t = Some req ->
  Json.loads (headers req) = Some (Json.Obj hs) ->
  Json.loads (response_headers req) = Some (Json.Obj rhs) ->
  all_text hs = true ->
  exists a, analyze_request t request_id = Ok a.
Proof.
  intros Hsel Hh Hrh Hall.
  unfold analyze_request. rewrite Hsel.
  apply json_loads_ok in Hh, Hrh. rewrite Hh, Hrh. simpl rbind.
  destruct (check_security_total req hs rhs Hall) as [issues ->].
  destruct (check_best_practices_total req hs rhs) as [recs ->].
  simpl. eauto.
Qed.

End Analysis.

(* ================================================================== *)
(** * Decoding and decimal digits *)

Section Text.

Ltac split_ifs :=
  repeat match goal with
         | |- context [if ?c then _ else _] => destruct c
         end.

Lemma utf8_ignore_length_le (n : nat) :
  forall bs, (length bs <= n)%nat ->
             (length (Py.utf8_ignore bs) <= length bs)%nat.
Proof.
  induction n as [|n IH]; intros bs Hn.
  - destruct bs; [simpl; lia | simpl in Hn; lia].
  - destruct bs as [|b1 r1]; [simpl; lia|].
    cbn [length] in Hn.
    assert (H1 := IH r1 ltac:(lia)).
    cbn [Py.utf8_ignore].
    remember (Py.utf8_ignore r1) as d1 eqn:E1; clear E1.
    destruct r1 as [|b2 r2]; cbn [length] in *;
      [split_ifs; cbn [length]; lia|].
    assert (H2 := IH r2 ltac:(lia)).
    remember (Py.utf8_ignore r2) as d2 eqn:E2; clear E2.
    destruct r2 as [|b3 r3]; cbn [length] in *;
      [split_ifs; cbn [length]; lia|].
    assert (H3 := IH r3 ltac:(lia)).
    remember (Py.utf8_ignore r3) as d3 eqn:E3; clear E3.
    destruct r3 as [|b4 r4]; cbn [length] in *;
      [split_ifs; cbn [length]; lia|].
    assert (H4 := IH r4 ltac:(lia)).
    remember (Py.utf8_ignore r4) as d4 eqn:E4; clear E4.
    split_ifs; cbn [length]; lia.
Qed.

(** Decoding never yields more characters than there were bytes. *)
Lemma decode_ignore_length (c : list byte) :
  (length (Py.decode_ignore c) <= length c)%nat.
Proof.
  unfold Py.decode_ignore.
  pose proof (utf8_ignore_length_le _ (map Py.byte_val c) (le_n _)) as H.
  rewrite length_map in H. exact H.
Qed.

(** ASCII bytes decode to themselves. *)
Lemma utf8_ignore_ascii (bs : list Z) :
  Forall (fun b => b < 0x80) bs -> Py.utf8_ignore bs = bs.
Proof.
  induction 1 as [|b bs Hb _ IH]; [reflexivity|].
  simpl. apply Z.ltb_lt in Hb. rewrite Hb, IH. reflexivity.
Qed.

Lemma decode_repeat_a (n : nat) :
  length (Py.decode_ignore (x61 :: repeat x61 n)) = S n.
Proof.
  unfold Py.decode_ignore.
  rewrite utf8_ignore_ascii.
  - rewrite length_map. cbn [length]. rewrite repeat_length. reflexivity.
  - apply Forall_forall. intros z Hz.
    apply in_map_iff in Hz. destruct Hz as [b [<- Hb]].
    destruct Hb as [<- | Hb]; [reflexivity|].
    apply repeat_spec in Hb. subst b. reflexivity.
Qed.

Lemma decode_big_content_length :
  Z.of_nat (length (Py.decode_ignore Scenario.big_content)) = MiB + 1.
Proof.
  unfold Scenario.big_content.
  rewrite decode_repeat_a, Nat2Z.inj_succ, Z2Nat.id.
  - lia.
  - unfold MiB. lia.
Qed.

Lemma digits_fuel_length (f : nat) :
  forall n acc, (length (Py.digits_fuel f n acc) <= f + length acc)%nat.
Proof.
  induction f as [|f IH]; intros n acc; simpl; [lia|].
  destruct (n <? 10); simpl; [lia|].
  specialize (IH (n / 10) ((48 + n mod 10) :: acc)). simpl in IH. lia.
Qed.

Lemma nat_of_digits_cons (ds : Py.str) :
  forall a, fold_left (fun n c => n * 10 + (c - 48)) ds a
            = a * 10 ^ Z.of_nat (length ds) + Json.nat_of_digits ds.
Proof.
  unfold Json.nat_of_digits.
  induction ds as [|d ds IH]; intros a.
  - simpl. lia.
  - cbn [fold_left length]. rewrite IH, (IH (0 * 10 + (d - 48))).
    rewrite Nat2Z.inj_succ, Z.pow_succ_r by lia. ring.
Qed.

(** The digits that [str] writes denote the number. *)
Lemma digits_fuel_value (f : nat) :
  forall n acc, 0 <= n < 2 ^ Z.of_nat f ->
    Json.nat_of_digits (Py.digits_fuel f n acc)
    = n * 10 ^ Z.of_nat (length acc) + Json.nat_of_digits acc.
Proof.
  induction f as [|f IH]; intros n acc Hn.
  - simpl in Hn. assert (n = 0) by lia. subst n. simpl. lia.
  - cbn [Py.digits_fuel].
    rewrite Nat2Z.inj_succ, Z.pow_succ_r in Hn by lia.
    assert (Hstep :
      Json.nat_of_digits ((48 + n mod 10) :: acc)
      = (n mod 10) * 10 ^ Z.of_nat (length acc) + Json.nat_of_digits acc).
    { unfold Json.nat_of_digits at 1. cbn [fold_left].
      rewrite nat_of_digits_cons. f_equal. f_equal. lia. }
    destruct (n <? 10) eqn:E.
    + apply Z.ltb_lt in E. rewrite Hstep, Z.mod_small by lia. reflexivity.
    + apply Z.ltb_ge in E.
      rewrite IH.
      * rewrite Hstep. cbn [length].
        rewrite Nat2Z.inj_succ, Z.pow_succ_r by lia.
        pose proof (Z.div_mod n 10 ltac:(lia)) as Hdm.
        remember (n / 10) as q eqn:Eq. remember (n mod 10) as m eqn:Em.
        clear Eq Em. rewrite Hdm. ring.
      * split; [apply Z.div_pos; lia|].
        apply Z.div_lt_upper_bound; lia.
Qed.

Lemma str_of_nat_value (n : Z) :
  0 <= n -> Json.nat_of_digits (Py.str_of_nat n) = n.
Proof.
  intros Hn. unfold Py.str_of_nat.
  rewrite digits_fuel_value.
  - simpl. unfold Json.nat_of_digits. simpl. lia.
  - split; [exact Hn|].
    rewrite Nat2Z.inj_succ, Z2Nat.id by apply Z.log2_nonneg.
    destruct (Z.eq_dec n 0) as [-> | Hz]; [reflexivity|].
    apply Z.log2_spec. lia.
Qed.

Lemma str_of_nat_length (n : Z) :
  0 <= n < 2 ^ 63 -> (length (Py.str_of_nat n) <= 64)%nat.
Proof.
  intros Hn. unfold Py.str_of_nat.
  pose proof (digits_fuel_length (S (Z.to_nat (Z.log2 n))) n []) as H.
  change (length (@nil Z)) with 0%nat in H.
  assert (Z.log2 n < 63).
  { destruct (Z.eq_dec n 0) as [-> | Hz]; [reflexivity|].
    apply Z.log2_lt_pow2; lia. }
  pose proof (Z.log2_nonneg n) as Hnn. clear Hn.
  remember (Z.log2 n) as l eqn:El. clear El.
  remember (Py.digits_fuel (S (Z.to_nat l)) n []) as ds eqn:Eds. clear Eds.
  lia.
Qed.

End Text.

(* ================================================================== *)
(** * The capture hooks *)

Section Capture.

Import Store.

(** What one run of the response hook of [proxy_server.py] does to the
    world: three readings of the clock and one inserted row. *)
Lemma proxy_response_run (flow : HTTPFlow) (w : world) :
  ProxyServer.response flow w
  = (tt,
     {| db := insert
          {| v_timestamp := now w (S (S (calls w)));
             v_method := req_method (request_of flow);
             v_url := req_url (request_of flow);
             v_host := req_host (request_of flow);
             v_path := req_path (request_of flow);
             v_headers := Json.dumps_headers (req_headers (request_of flow));
             v_body := ProxyServer.request_body (request_of flow);
             v_response_status :=
               match response_of flow with
               | Some r => Some (status_code r)
               | None => None
               end;
             v_response_headers :=
               Json.dumps_headers
                 match response_of flow with
                 | Some r => resp_headers r
                 | None => []
                 end;
             v_response_body := ProxyServer.response_body (response_of flow);
             v_duration :=
               now w (calls w)
               - match start_time flow with
                 | Some t0 => t0
                 | None => now w (S (calls w))
                 end;
             v_protocol := req_scheme (request_of flow) |}
          (db w);
        now := now w;
        calls := S (S (S (calls w))) |}).
Proof. reflexivity. Qed.

(** The same for the hook of [bin/traffic_analyzer.py]. *)
Lemma analyzer_response_run (flow : HTTPFlow) (w : world) :
  exists v,
    TrafficAnalyzer.response flow w
    = (tt, {| db := insert v (db w);
              now := now w;
              calls := S (S (S (calls w))) |})
    /\ v_timestamp v = now w (S (S (calls w)))
    /\ v_duration v
       = now w (calls w)
         - match start_time flow with
           | Some t0 => t0
           | None => now w (S (calls w))
           end
    /\ v_body v = Py.decode_ignore (request_bytes flow)
    /\ v_response_body v = Py.decode_ignore (response_bytes flow).
Proof.
  eexists. split.
  { cbv beta iota zeta
        delta [TrafficAnalyzer.response bind time_time db_write db now calls].
    reflexivity. }
  cbn [v_timestamp v_duration v_body v_response_body].
  repeat split.
  - unfold request_bytes, nonempty_content.
    destruct (req_content (request_of flow)) as [[|b bs]|]; reflexivity.
  - unfold response_bytes, nonempty_content.
    destruct (response_of flow) as [r|]; [|reflexivity].
    destruct (resp_content r) as [[|b bs]|]; reflexivity.
Qed.

Lemma request_body_decodes (flow : HTTPFlow) :
  ProxyServer.request_body (request_of flow)
  = Py.decode_ignore (request_bytes flow).
Proof.
  unfold ProxyServer.request_body, request_bytes, nonempty_content.
  destruct (req_content (request_of flow)) as [[|b bs]|]; reflexivity.
Qed.

Lemma response_body_cases (flow : HTTPFlow) :
  ProxyServer.response_body (response_of flow)
  = if Z.of_nat (length (response_bytes flow)) <? MiB
    then Py.decode_ignore (response_bytes flow)
    else ProxyServer.too_large (Z.of_nat (length (response_bytes flow))).
Proof.
  unfold ProxyServer.response_body, response_bytes, nonempty_content.
  destruct (response_of flow) as [r|]; [|reflexivity].
  destruct (resp_content r) as [[|b bs]|]; reflexivity.
Qed.

(** C3 (counterexample).  The proxy hook stores a request body of one
    byte more than 1 MiB whole: the stored text is longer than the cap. *)
Lemma request_body_over_cap_is_stored_whole :
  exists r,
    rows (db (snd (ProxyServer.response Scenario.big_request_flow
                                        (Scenario.fresh Scenario.ticking))))
    = [r]
    /\ Z.of_nat (length (body r)) = MiB + 1
    /\ ~ Z.of_nat (length (body r)) <= MiB.
Proof.
  rewrite proxy_response_run.
  eexists. split; [reflexivity|].
  cbn [body mk_row v_body].
  rewrite request_body_decodes.
  change (request_bytes Scenario.big_request_flow) with Scenario.big_content.
  rewrite decode_big_content_length. split; lia.
Qed.

(** The capture hook of the CLI stores a response of that size whole as
    well. *)
Lemma analyzer_response_over_cap_is_stored_whole :
  exists r,
    rows (db (snd (TrafficAnalyzer.response Scenario.big_response_flow
                                            (Scenario.fresh Scenario.ticking))))
    = [r]
    /\ Z.of_nat (length (response_body r)) = MiB + 1.
Proof.
  destruct (analyzer_response_run Scenario.big_response_flow
              (Scenario.fresh Scenario.ticking))
    as (v & Hrun & _ & _ & _ & Hbody).
  rewrite Hrun. eexists. split; [reflexivity|].
  cbn [response_body mk_row]. rewrite Hbody.
  change (response_bytes Scenario.big_response_flow) with Scenario.big_content.
  apply decode_big_content_length.
Qed.

(** C3 (amended).  For every exchange that the hook of [proxy_server.py]
    persists, the stored response body is shorter than 1 MiB: a response
    of fewer than 1 MiB bytes is stored as its decoded text, and a response
    of 1 MiB or more as the placeholder that spells out the byte count in
    decimal, not as the content.  (The content of a Python [bytes] object
    has fewer than 2^63 bytes.)  The request body is stored as its decoded
    text whatever its size. *)
Theorem proxy_response_body_capped (flow : HTTPFlow) (w : world) :
  Z.of_nat (length (response_bytes flow)) < 2 ^ 63 ->
  exists r,
    rows (db (snd (ProxyServer.response flow w))) = rows (db w) ++ [r]
    /\ Z.of_nat (length (response_body r)) < MiB
    /\ (Z.of_nat (length (response_bytes flow)) < MiB ->
        response_body r = Py.decode_ignore (response_bytes flow))
    /\ (MiB <= Z.of_nat (length (response_bytes flow)) ->
        response_body r
        = Py.lit "[Response too large: "
          ++ Py.str_of_nat (Z.of_nat (length (response_bytes flow)))
          ++ Py.lit " bytes]"
        /\ Json.nat_of_digits
             (Py.str_of_nat (Z.of_nat (length (response_bytes flow))))
           = Z.of_nat (length (response_bytes flow)))
    /\ body r = Py.decode_ignore (request_bytes flow).
Proof.
  intros Hsize.
  rewrite proxy_response_run.
  eexists. split; [reflexivity|].
  cbn [response_body body mk_row v_response_body v_body].
  rewrite response_body_cases, request_body_decodes.
  set (n := Z.of_nat (length (response_bytes flow))) in *.
  assert (Hn : 0 <= n) by (subst n; lia).
  destruct (n <? MiB) eqn:E.
  - apply Z.ltb_lt in E.
    split; [|split; [reflexivity|split; [lia|reflexivity]]].
    pose proof (decode_ignore_length (response_bytes flow)). lia.
  - apply Z.ltb_ge in E.
    split; [|split; [lia|split; [|reflexivity]]].
    + unfold ProxyServer.too_large.
      rewrite !length_app.
      pose proof (str_of_nat_length n (conj Hn Hsize)) as Hd.
      change (length (Py.lit "[Response too large: ")) with 21%nat.
      change (length (Py.lit " bytes]")) with 7%nat.
      unfold MiB. lia.
    + intros _. split; [reflexivity | apply str_of_nat_value; exact Hn].
Qed.

Lemma proxy_response_body_capped_witness :
  exists r,
    rows (db (snd (ProxyServer.response Scenario.hardened_flow
                                        (Scenario.fresh Scenario.ticking))))
    = rows (db (Scenario.fresh Scenario.ticking)) ++ [r]
    /\ Z.of_nat (length (response_body r)) < MiB.
Proof.
  destruct (proxy_response_body_capped Scenario.hardened_flow
              (Scenario.fresh Scenario.ticking))
    as (r & Hrows & Hlen & _).
  - vm_compute. reflexivity.
  - exists r. split; [exact Hrows | exact Hlen].
Defined.

(** C4 (the code at the failing input).  A response whose body is the byte
    FF followed by the letter a is stored as the one letter: the byte that
    is not UTF-8 is dropped, without a replacement character and without
    base64, and this is what the detail endpoint returns for the exchange. *)
Theorem invalid_bytes_are_dropped :
  let w := snd (ProxyServer.response Scenario.binary_flow
                                     (Scenario.fresh Scenario.ticking)) in
  response_bytes Scenario.binary_flow = [xff; x61]
  /\ exists r,
      fst (ProxyManager.get_request_detail 1 w) = Http200 r
      /\ response_body r = Py.lit "a".
Proof.
  intros w. split; [reflexivity|].
  eexists. split; vm_compute; reflexivity.
Qed.




(** C7 (counterexample).  The request hook fires at reading 100, the
    response hook runs afterwards, and the stored timestamp is 103, the
    reading taken for the INSERT, not the request start 100. *)
Lemma timestamp_is_not_request_start :
  let started := ProxyServer.request Scenario.new_flow
                                     (Scenario.fresh Scenario.ticking) in
  let flow := Scenario.with_response (fst started) Scenario.hardened_response in
  exists r,
    start_time flow = Some 100
    /\ rows (db (snd (ProxyServer.response flow (snd started)))) = [r]
    /\ timestamp r = 103
    /\ timestamp r <> 100.
Proof.
  intros started flow.
  eexists. split; [reflexivity|].
  split; [vm_compute; reflexivity|].
  split; [reflexivity | discriminate].
Qed.

(** C7 (amended).  For every exchange persisted by a capture hook, the
    stored timestamp is the reading of the clock that the response hook
    takes when it builds the INSERT: its third reading, after the two it
    takes for the duration. *)
Theorem timestamp_is_insert_time (flow : HTTPFlow) (w : world) :
  (exists r,
      rows (db (snd (ProxyServer.response flow w))) = rows (db w) ++ [r]
      /\ timestamp r = now w (S (S (calls w))))
  /\ (exists r,
      rows (db (snd (TrafficAnalyzer.response flow w))) = rows (db w) ++ [r]
      /\ timestamp r = now w (S (S (calls w)))).
Proof.
  split.
  - rewrite proxy_response_run. eexists. split; reflexivity.
  - destruct (analyzer_response_run flow w) as (v & Hrun & Ht & _).
    rewrite Hrun. eexists. split; [reflexivity|].
    cbn [timestamp mk_row]. exact Ht.
Qed.

End Capture.

(* ================================================================== *)
(** * Selections of rows *)

Section Selection.

Import Store.







Lemma limit_length (n : Z) (l : list row) :
  length (limit n l)
  = if n <? 0 then length l else Nat.min (Z.to_nat n) (length l).
Proof.
  unfold limit. destruct (n <? 0); [reflexivity | apply length_firstn].
Qed.

Lemma limit_in (n : Z) (x : row) (l : list row) :
  In x (limit n l) -> In x l.
Proof.
  unfold limit. destruct (n <? 0); [auto|].
  generalize (Z.to_nat n) as k. clear n.
  induction l as [|y l IH]; intros [|k]; simpl; try tauto.
  intros [H | H]; [auto|]. right. exact (IH k H).
Qed.

(** Ordering is a permutation, and it sorts. *)
Lemma insert_sorted_perm (desc : bool) (r : row) (l : list row) :
  Permutation (insert_sorted desc r l) (r :: l).
Proof.
  induction l as [|x l IH]; simpl; [reflexivity|].
  destruct (before desc x r); [|reflexivity].
  rewrite IH. apply perm_swap.
Qed.

Lemma order_by_timestamp_perm (desc : bool) (l : list row) :
  Permutation (order_by_timestamp desc l) l.
Proof.
  unfold order_by_timestamp.
  assert (H : forall acc,
             Permutation (fold_left (fun acc r => insert_sorted desc r acc) l acc)
                         (acc ++ l)).
  { induction l as [|r l IH]; intros acc; simpl.
    - rewrite app_nil_r. reflexivity.
    - rewrite IH, insert_sorted_perm. apply Permutation_middle. }
  apply (H []).
Qed.

Lemma before_total (desc : bool) (a b : row) :
  before desc a b = true \/ before desc b a = true.
Proof. unfold before. destruct desc; rewrite !Z.leb_le; lia. Qed.

Lemma before_trans (desc : bool) (a b c : row) :
  before desc a b = true -> before desc b c = true -> before desc a c = true.
Proof. unfold before. destruct desc; rewrite !Z.leb_le; lia. Qed.

Lemma insert_sorted_sorted (desc : bool) (r : row) (l : list row) :
  StronglySorted (fun a b => before desc a b = true) l ->
  StronglySorted (fun a b => before desc a b = true) (insert_sorted desc r l).
Proof.
  induction 1 as [|x l Hs IH Hx]; simpl.
  - repeat constructor.
  - destruct (before desc x r) eqn:E.
    + constructor; [exact IH|].
      rewrite Forall_forall. intros y Hy.
      apply (Permutation_in _ (insert_sorted_perm desc r l)) in Hy.
      destruct Hy as [<- | Hy]; [exact E|].
      rewrite Forall_forall in Hx. exact (Hx y Hy).
    + assert (Hrx : before desc r x = true).
      { destruct (before_total desc x r) as [H | H]; [congruence | exact H]. }
      constructor; [constructor; assumption|].
      constructor; [exact Hrx|].
      eapply Forall_impl; [|exact Hx].
      intros y Hy. exact (before_trans desc _ _ _ Hrx Hy).
Qed.

Lemma order_by_timestamp_sorted (desc : bool) (l : list row) :
  StronglySorted (fun a b => before desc a b = true) (order_by_timestamp desc l).
Proof.
  unfold order_by_timestamp.
  assert (H : forall acc,
             StronglySorted (fun a b => before desc a b = true) acc ->
             StronglySorted (fun a b => before desc a b = true)
               (fold_left (fun acc r => insert_sorted desc r acc) l acc)).
  { induction l as [|r l IH]; intros acc Hacc; simpl; [exact Hacc|].
    apply IH, insert_sorted_sorted, Hacc. }
  apply H. constructor.
Qed.

Lemma sorted_weaken {A} (R R' : A -> A -> Prop) (l : list A) :
  (forall a b, R a b -> R' a b) -> StronglySorted R l -> StronglySorted R' l.
Proof.
  intros HR. induction 1 as [|a m Hm IH Ha]; constructor; [exact IH|].
  eapply Forall_impl; [|exact Ha]. intros b. apply HR.
Qed.

Lemma sorted_rev {A} (R : A -> A -> Prop) (l : list A) :
  StronglySorted R l -> StronglySorted (fun a b => R b a) (rev l).
Proof.
  induction 1 as [|a m Hm IH Ha]; cbn [rev]; [constructor|].
  assert (Hsnoc : forall k,
             StronglySorted (fun a b => R b a) k ->
             Forall (fun y => R a y) k ->
             StronglySorted (fun a b => R b a) (k ++ [a])).
  { induction 1 as [|y k Hk IHk Hy]; intros Hall; simpl.
    - repeat constructor.
    - apply Forall_cons_iff in Hall. destruct Hall as [Hay Hall].
      constructor; [exact (IHk Hall)|].
      apply Forall_app. split; [exact Hy|]. repeat constructor. exact Hay. }
  apply Hsnoc; [exact IH|].
  rewrite Forall_forall in *. intros y Hy. apply Ha, in_rev. exact Hy.
Qed.

Lemma sorted_firstn {A} (R : A -> A -> Prop) (l : list A) (k : nat) :
  StronglySorted R l -> StronglySorted R (firstn k l).
Proof.
  intros H. revert k. induction H as [|x l Hs IH Hx]; intros [|k]; simpl;
    try constructor.
  - apply IH.
  - rewrite Forall_forall in *. intros y Hy. apply Hx.
    rewrite <- (firstn_skipn k l). apply in_or_app. left. exact Hy.
Qed.

Lemma sorted_split {A} (R : A -> A -> Prop) (l : list A) (k : nat) :
  StronglySorted R l ->
  forall x y, In x (firstn k l) -> In y (skipn k l) -> R x y.
Proof.
  intros H. revert k. induction H as [|a l Hs IH Ha]; intros [|k] x y Hx Hy;
    simpl in *; try contradiction.
  destruct Hx as [<- | Hx].
  - rewrite Forall_forall in Ha. apply Ha.
    rewrite <- (firstn_skipn k l). apply in_or_app. right. exact Hy.
  - exact (IH k x y Hx Hy).
Qed.

(** Both the sort and the index read backwards return the rows from the
    newest to the oldest. *)
Lemma sort_newest_first : newest_first (order_by_timestamp true).
Proof.
  intros l. split; [apply order_by_timestamp_perm|].
  eapply sorted_weaken; [|apply (order_by_timestamp_sorted true l)].
  cbn. intros a b H. apply Z.leb_le. exact H.
Qed.

Lemma index_newest_first : newest_first along_index_desc.
Proof.
  intros l. unfold along_index_desc. split.
  - rewrite <- Permutation_rev. apply order_by_timestamp_perm.
  - apply sorted_rev.
    eapply sorted_weaken; [|apply (order_by_timestamp_sorted false l)].
    cbn. intros a b H. apply Z.leb_le. exact H.
Qed.

(** The rows within the limit: as many as the limit allows, and no row
    beyond the limit is newer than one within it. *)
Lemma newest_within_limit (newest : list row -> list row) (n : Z)
      (l : list row) :
  newest_first newest ->
  exists rest,
    Permutation l (limit n (newest l) ++ rest)
    /\ length (limit n (newest l))
       = (if n <? 0 then length l else Nat.min (Z.to_nat n) (length l))
    /\ forall x y, In x (limit n (newest l)) -> In y rest ->
                   timestamp y <= timestamp x.
Proof.
  intros Hnew. destruct (Hnew l) as [Hperm Hsorted].
  assert (Hk : exists k, limit n (newest l) = firstn k (newest l)).
  { unfold limit. destruct (n <? 0); [|eauto].
    exists (length (newest l)). symmetry. apply firstn_all. }
  destruct Hk as [k Hk].
  exists (skipn k (newest l)). split; [|split].
  - rewrite Hk, firstn_skipn. symmetry. exact Hperm.
  - rewrite limit_length, (Permutation_length Hperm). reflexivity.
  - rewrite Hk. intros x y Hx Hy.
    exact (sorted_split _ _ k Hsorted x y Hx Hy).
Qed.

End Selection.

(* ================================================================== *)
(** * Every stored exchange can be analyzed *)

Section Reachable.

Import Store.

Lemma captured_row_set_analyzed (r : row) :
  captured_row r -> captured_row (set_analyzed r).
Proof. intros H. exact H. Qed.

(** Every operation keeps the rows as the capture hooks write them. *)
Lemma step_captured (w w' : world) :
  step w w' ->
  Forall captured_row (rows (db w)) -> Forall captured_row (rows (db w')).
Proof.
  intros Hstep Hinv. destruct Hstep.
  - exact Hinv.
  - rewrite proxy_response_run. cbn [snd db insert rows].
    apply Forall_app. split; [exact Hinv|]. constructor; [|constructor].
    destruct H as [Hreq Hresp].
    exists (req_headers (request_of flow)),
           (match response_of flow with Some r => resp_headers r | None => [] end).
    repeat split; try assumption.
    destruct (response_of flow); [exact Hresp | constructor].
  - exact Hinv.
  - destruct H as [Hreq Hresp].
    apply Forall_app. split; [exact Hinv|]. constructor; [|constructor].
    exists (req_headers (request_of flow)),
           (match response_of flow with Some r => resp_headers r | None => [] end).
    repeat split; try assumption.
    + destruct (response_of flow); [exact Hresp | constructor].
    + cbn [response_headers mk_row v_response_headers].
      destruct (response_of flow); reflexivity.
  - exact Hinv.
  - exact Hinv.
  - unfold CopilotAPIServer.replay_request, bind, db_read, ret.
    destruct (select_by_id i (db w)); exact Hinv.
  - unfold CopilotAPIServer.modify_and_replay, bind, db_read, ret.
    destruct (CopilotAgent.json_loads payload); [|exact Hinv].
    destruct (select_by_id i (db w)); exact Hinv.
  - exact Hinv.
  - exact Hinv.
  - exact Hinv.
  - unfold ProxyManager.analyze_request, bind, db_read, db_write, ret.
    destruct (select_by_id i (db w)); [|exact Hinv].
    match goal with
    | |- context [match ?r with Ok _ => _ | Raise _ => _ end] => destruct r
    end; [|exact Hinv].
    cbn [snd db update_analyzed rows].
    apply Forall_forall. intros x Hx.
    apply in_map_iff in Hx. destruct Hx as [x0 [<- Hx0]].
    assert (H0 : captured_row x0) by (revert x0 Hx0; apply Forall_forall; exact Hinv).
    destruct (id x0 =? i); [apply captured_row_set_analyzed|]; exact H0.
  - constructor.
  - exact Hinv.
  - exact Hinv.
  - exact Hinv.
Qed.

Lemma reachable_captured (w : world) :
  reachable w -> Forall captured_row (rows (db w)).
Proof.
  induction 1 as [clock | w w' _ IH Hstep].
  - constructor.
  - exact (step_captured w w' Hstep IH).
Qed.

Lemma all_text_of_headers (d : list (Py.str * Py.str)) :
  CopilotAgent.all_text (Json.of_headers d) = true.
Proof.
  unfold Json.of_headers.
  assert (Hset : forall acc k v,
             CopilotAgent.all_text acc = true ->
             CopilotAgent.all_text (Json.set acc k (Json.Str v)) = true).
  { induction acc as [|[k' v'] acc IH]; intros k v Hacc; cbn.
    - reflexivity.
    - cbn in Hacc. apply andb_true_iff in Hacc. destruct Hacc as [Hv' Hacc].
      destruct (Py.eqb k k'); cbn.
      + exact Hacc.
      + rewrite Hv'. apply IH. exact Hacc. }
  assert (Hfold : forall acc,
             CopilotAgent.all_text acc = true ->
             CopilotAgent.all_text
               (fold_left (fun a kv => Json.set a (fst kv) (Json.Str (snd kv))) d acc)
             = true).
  { induction d as [|kv d IH]; intros acc Hacc; cbn [fold_left]; [exact Hacc|].
    apply IH, Hset, Hacc. }
  apply Hfold. reflexivity.
Qed.

Lemma select_by_id_found (t : table) (r : row) :
  In r (rows t) ->
  exists r', select_by_id (id r) t = Some r' /\ In r' (rows t).
Proof.
  intros Hin. unfold select_by_id.
  destruct (find (fun r0 => id r0 =? id r) (rows t)) as [r'|] eqn:E.
  - exists r'. split; [reflexivity|]. apply (find_some _ _ E).
  - exfalso. pose proof (find_none _ _ E r Hin) as Hn. cbn in Hn.
    rewrite Z.eqb_refl in Hn. discriminate Hn.
Qed.

(** Every exchange that the running system has stored is analyzed: the
    analysis returns, with the score that the formula gives. *)
Lemma stored_exchange_is_analyzed (w : world) (r : row) :
  reachable w -> In r (rows (db w)) ->
  exists a,
    CopilotAgent.analyze_request (db w) (id r) = Ok a
    /\ CopilotAgent.security_score a
       = Z.max 0 (100 - 10 * Z.of_nat (length (CopilotAgent.vulnerabilities a))).
Proof.
  intros Hreach Hin.
  destruct (select_by_id_found (db w) r Hin) as (r' & Hsel & Hin').
  assert (Hcap : captured_row r').
  { pose proof (reachable_captured w Hreach) as Hall.
    rewrite Forall_forall in Hall. exact (Hall r' Hin'). }
  destruct Hcap as (hs & rhs & Hhs & Hrhs & Eh & Erh).
  destruct (analyze_request_total (db w) (id r) r'
              (Json.of_headers hs) (Json.of_headers rhs)) as [a Ha].
  - exact Hsel.
  - rewrite Eh. apply loads_dumps_headers. exact Hhs.
  - rewrite Erh. apply loads_dumps_headers. exact Hrhs.
  - apply all_text_of_headers.
  - exists a. split; [exact Ha|].
    destruct (analyze_request_inv _ _ _ Ha)
      as (req & h & rh & issues & _ & _ & _ & _ & Hv & Hs).
    rewrite Hs, Hv. f_equal. lia.
Qed.


End Reachable.

(* ================================================================== *)
(** * The security score *)

Section Score.

Import Store CopilotAgent.

(** C1.  Whatever [analyze_request] returns, its security score is 100
    minus 10 per security finding of the result, floored at 0.  It does
    return for every exchange that the running system has stored, and more
    generally for a stored exchange whose two header columns hold JSON
    objects with text values in the request headers.  For the login
    exchange (GET http://example.com/login?password=123 over http, no
    response headers) it returns the five findings of the scenario and the
    score 50. *)
Theorem analyze_request_score :
  (forall (t : table) (request_id : Z) (a : RequestAnalysis),
      analyze_request t request_id = Ok a ->
      security_score a
      = Z.max 0 (100 - 10 * Z.of_nat (length (vulnerabilities a))))
  /\ (forall (w : world) (r : row),
      reachable w -> In r (rows (db w)) ->
      exists a, analyze_request (db w) (id r) = Ok a)
  /\ (forall (t : table) (request_id : Z) (req : row) (hs rhs : Json.dict),
      select_by_id request_id t = Some req ->
      Json.loads (headers req) = Some (Json.Obj hs) ->
      Json.loads (response_headers req) = Some (Json.Obj rhs) ->
      all_text hs = true ->
      exists a, analyze_request t request_id = Ok a)
  /\ (exists a,
      analyze_request Scenario.login_table 1 = Ok a
      /\ vulnerabilities a
         = [msg_sensitive_url; msg_missing_hsts; msg_missing_xcto;
            msg_missing_xfo; msg_insecure_http]
      /\ length (vulnerabilities a) = 5%nat
      /\ security_score a = 50).
Proof.
  split; [|split; [|split]].
  - intros t request_id a H.
    destruct (analyze_request_inv _ _ _ H)
      as (req & h & rh & issues & _ & _ & _ & _ & Hv & Hs).
    rewrite Hs, Hv. f_equal. lia.
  - intros w r Hreach Hin.
    destruct (stored_exchange_is_analyzed w r Hreach Hin) as [a [Ha _]].
    exists a. exact Ha.
  - exact analyze_request_total.
  - eexists. split; [vm_compute; reflexivity|].
    repeat split.
Qed.

Lemma analyze_request_score_witness :
  exists a, analyze_request Scenario.login_table 1 = Ok a
            /\ security_score a
               = Z.max 0 (100 - 10 * Z.of_nat (length (vulnerabilities a))).
Proof.
  destruct analyze_request_score as [Hscore [_ [Htotal _]]].
  destruct (Htotal Scenario.login_table 1
              (Store.mk_row 1 Scenario.login_values) [] [])
    as [a Ha]; try reflexivity.
  exists a. split; [exact Ha | exact (Hscore _ _ _ Ha)].
Defined.

(** The loop of [security_scan]: it analyzes every id, and appends an
    entry for those that score below 70. *)
Lemma scan_loop_spec (t : table) (ids : list Z) :
  forall (si : list Py.str) (hr : list CopilotAPIServer.high_risk) si' hr',
    CopilotAPIServer.scan_loop t ids si hr = Ok (si', hr') ->
    Forall (fun i => exists a, analyze_request t i = Ok a) ids
    /\ forall h,
        In h hr' <->
        In h hr \/
        exists i a, In i ids /\ analyze_request t i = Ok a
                    /\ security_score a < 70
                    /\ h = {| CopilotAPIServer.hr_request_id := i;
                              CopilotAPIServer.hr_score := security_score a;
                              CopilotAPIServer.hr_issues := vulnerabilities a |}.
Proof.
  induction ids as [|i ids IH]; simpl; intros si hr si' hr' H.
  - inversion H; subst. split; [constructor|].
    intros h; split; [tauto|].
    intros [Hin | (i & a & [] & _)]; exact Hin.
  - apply rbind_ok in H; destruct H as [a [Ha H]].
    apply IH in H; destruct H as [Hall Hiff].
    split; [constructor; eauto|].
    intros h. rewrite Hiff. clear Hiff IH.
    unfold append_if.
    destruct (security_score a <? 70) eqn:Hlt.
    + apply Z.ltb_lt in Hlt. rewrite in_app_iff. simpl. split.
      * intros [[Hin | [<- | []]] | (j & b & Hj & Hb & Hs & ->)].
        -- left; exact Hin.
        -- right; exists i, a; auto.
        -- right; exists j, b; auto.
      * intros [Hin | (j & b & [<- | Hj] & Hb & Hs & ->)].
        -- auto.
        -- rewrite Ha in Hb; inversion Hb; subst b. auto.
        -- right; exists j, b; auto.
    + apply Z.ltb_ge in Hlt. split.
      * intros [Hin | (j & b & Hj & Hb & Hs & ->)].
        -- left; exact Hin.
        -- right; exists j, b; simpl; auto.
      * intros [Hin | (j & b & [<- | Hj] & Hb & Hs & ->)].
        -- auto.
        -- rewrite Ha in Hb; inversion Hb; subst b. lia.
        -- right; exists j, b; auto.
Qed.

Lemma score_below_70 (t : table) (request_id : Z) (a : RequestAnalysis) :
  analyze_request t request_id = Ok a ->
  security_score a < 70 <-> (4 <= length (vulnerabilities a))%nat.
Proof.
  intros H.
  destruct (analyze_request_inv _ _ _ H)
    as (req & h & rh & issues & _ & _ & _ & _ & Hv & Hs).
  rewrite Hs, Hv. lia.
Qed.

Lemma scan_loop_total (t : table) (ids : list Z) :
  Forall (fun i => exists a, analyze_request t i = Ok a) ids ->
  forall si hr, exists r, CopilotAPIServer.scan_loop t ids si hr = Ok r.
Proof.
  induction 1 as [|i ids [a Ha] _ IH]; intros si hr; cbn [CopilotAPIServer.scan_loop].
  - eauto.
  - rewrite Ha. cbn [rbind]. apply IH.
Qed.

Lemma recent_ids_stored (newest : list row -> list row) (t : table) (i : Z) :
  newest_first newest ->
  In i (CopilotAPIServer.recent_ids newest t) ->
  exists r, In r (rows t) /\ id r = i.
Proof.
  unfold CopilotAPIServer.recent_ids. intros Hnew Hin.
  apply in_map_iff in Hin. destruct Hin as [r [Hid Hr]].
  apply limit_in in Hr.
  apply (Permutation_in _ (proj1 (Hnew (rows t)))) in Hr. eauto.
Qed.

(** C10 (counterexample).  A table of 101 exchanges like the login
    exchange, stored one after the other at the times 1 to 101.  Each of
    them has five findings and the score 50, yet the scan lists only one
    hundred: the exchange of id 1, the oldest, is beyond the limit of the
    SELECT and is not listed, whether the database returns the rows along
    its index or from a sort. *)
Lemma old_exchange_below_70_is_not_listed :
  let w := {| db := Scenario.crowded_table; now := Scenario.frozen; calls := 0 |} in
  length (rows (db w)) = 101%nat
  /\ (exists a, analyze_request (db w) 1 = Ok a
                /\ security_score a = 50
                /\ length (vulnerabilities a) = 5%nat)
  /\ (exists rep,
         fst (CopilotAPIServer.security_scan along_index_desc w) = Http200 rep
         /\ map CopilotAPIServer.hr_request_id
                (CopilotAPIServer.high_risk_requests rep)
            = map Z.of_nat (rev (List.seq 2 100))
         /\ ~ exists h, In h (CopilotAPIServer.high_risk_requests rep)
                        /\ CopilotAPIServer.hr_request_id h = 1)
  /\ (exists rep,
         fst (CopilotAPIServer.security_scan (order_by_timestamp true) w)
         = Http200 rep
         /\ map CopilotAPIServer.hr_request_id
                (CopilotAPIServer.high_risk_requests rep)
            = map Z.of_nat (rev (List.seq 2 100))
         /\ ~ exists h, In h (CopilotAPIServer.high_risk_requests rep)
                        /\ CopilotAPIServer.hr_request_id h = 1).
Proof.
  cbv zeta.
  assert (Hnot : forall l : list CopilotAPIServer.high_risk,
             map CopilotAPIServer.hr_request_id l
             = map Z.of_nat (rev (List.seq 2 100)) ->
             ~ exists h, In h l /\ CopilotAPIServer.hr_request_id h = 1).
  { intros l Hl (h & Hin & Hid).
    apply (in_map CopilotAPIServer.hr_request_id) in Hin.
    rewrite Hl, Hid in Hin. apply in_map_iff in Hin.
    destruct Hin as (n & Hn & Hin). apply in_rev, in_seq in Hin. lia. }
  split; [vm_compute; reflexivity|].
  split; [eexists; split; [vm_compute; reflexivity|]; split; reflexivity|].
  split.
  - eexists. split; [vm_compute; reflexivity|].
    split; [vm_compute; reflexivity|].
    apply Hnot. vm_compute. reflexivity.
  - eexists. split; [vm_compute; reflexivity|].
    split; [vm_compute; reflexivity|].
    apply Hnot. vm_compute. reflexivity.
Qed.

(** C10 (amended).  [security_scan] analyzes the 100 most recent
    exchanges: of the stored rows taken from the newest to the oldest, in
    whatever order the database returns rows of equal timestamp, the
    first 100, and all of them when there are no more than 100.  When it
    answers with a report, an exchange is listed in [high_risk_requests]
    exactly when it is one of these and its security score is strictly
    below 70, which is exactly when it has at least 4 security findings;
    an exchange with 3 findings or fewer is not listed, and neither is an
    exchange beyond the 100 most recent.  On the table of a running system
    the scan does answer with a report. *)
Theorem security_scan_high_risk (newest : list row -> list row) (w : world) :
  newest_first newest ->
  let scanned := CopilotAPIServer.recent_ids newest (db w) in
  (exists sel rest,
      scanned = map id sel
      /\ Permutation (rows (db w)) (sel ++ rest)
      /\ length sel = Nat.min 100 (length (rows (db w)))
      /\ forall x y, In x sel -> In y rest -> timestamp y <= timestamp x)
  /\ ((length (rows (db w)) <= 100)%nat ->
      forall r, In r (rows (db w)) -> In (id r) scanned)
  /\ (forall rep : CopilotAPIServer.scan_report,
         fst (CopilotAPIServer.security_scan newest w) = Http200 rep ->
         (forall h, In h (CopilotAPIServer.high_risk_requests rep) ->
                    In (CopilotAPIServer.hr_request_id h) scanned)
         /\ forall (request_id : Z) (a : RequestAnalysis),
             analyze_request (db w) request_id = Ok a ->
             ((exists h, In h (CopilotAPIServer.high_risk_requests rep)
                         /\ CopilotAPIServer.hr_request_id h = request_id)
              <-> In request_id scanned /\ security_score a < 70)
             /\ (In {| CopilotAPIServer.hr_request_id := request_id;
                       CopilotAPIServer.hr_score := security_score a;
                       CopilotAPIServer.hr_issues := vulnerabilities a |}
                    (CopilotAPIServer.high_risk_requests rep)
                 <-> In request_id scanned /\ security_score a < 70)
             /\ (security_score a < 70
                 <-> (4 <= length (vulnerabilities a))%nat)
             /\ ((length (vulnerabilities a) <= 3)%nat ->
                 forall h, In h (CopilotAPIServer.high_risk_requests rep) ->
                           CopilotAPIServer.hr_request_id h <> request_id))
  /\ (reachable w ->
      exists rep, fst (CopilotAPIServer.security_scan newest w) = Http200 rep).
Proof.
  intros Hnew scanned. subst scanned.
  split; [|split; [|split]].
  - destruct (newest_within_limit newest 100 (rows (db w)) Hnew)
      as (rest & Hperm & Hlen & Hrest).
    exists (limit 100 (newest (rows (db w)))), rest.
    split; [reflexivity|]. split; [exact Hperm|]. split; [exact Hlen|].
    exact Hrest.
  - intros Hfew r Hr. unfold CopilotAPIServer.recent_ids.
    apply in_map. unfold limit. cbn [Z.ltb Z.compare].
    rewrite firstn_all2.
    + apply (Permutation_in _ (Permutation_sym (proj1 (Hnew (rows (db w)))))).
      exact Hr.
    + rewrite (Permutation_length (proj1 (Hnew (rows (db w))))).
      change (Z.to_nat 100) with 100%nat. exact Hfew.
  - intros rep Hscan.
    unfold CopilotAPIServer.security_scan, bind, db_read, ret in Hscan.
    simpl in Hscan. apply respond_200 in Hscan.
    unfold CopilotAPIServer.scan in Hscan.
    apply rbind_ok in Hscan. destruct Hscan as [[si hr] [Hloop Hrep]].
    inversion Hrep; subst rep; clear Hrep. simpl.
    destruct (scan_loop_spec _ _ _ _ _ _ Hloop) as [_ Hiff].
    split.
    { intros h Hin. apply Hiff in Hin.
      destruct Hin as [[] | (i & b & Hi & _ & _ & ->)]. exact Hi. }
    intros request_id a Ha.
    assert (Hentry :
      In {| CopilotAPIServer.hr_request_id := request_id;
            CopilotAPIServer.hr_score := security_score a;
            CopilotAPIServer.hr_issues := vulnerabilities a |} hr
      <-> In request_id (CopilotAPIServer.recent_ids newest (db w))
          /\ security_score a < 70).
    { rewrite Hiff. split.
      - intros [[] | (i & b & Hi & Hb & Hs & Heq)].
        inversion Heq; subst i.
        rewrite Ha in Hb; inversion Hb; subst b. auto.
      - intros [Hin Hs]. right. exists request_id, a. auto. }
    assert (Hlisted :
      (exists h, In h hr /\ CopilotAPIServer.hr_request_id h = request_id)
      <-> In request_id (CopilotAPIServer.recent_ids newest (db w))
          /\ security_score a < 70).
    { split.
      - intros (h & Hin & Hid). apply Hiff in Hin.
        destruct Hin as [[] | (i & b & Hi & Hb & Hs & ->)].
        simpl in Hid; subst i.
        rewrite Ha in Hb; inversion Hb; subst b. auto.
      - intros H. eexists. split; [apply Hentry; exact H | reflexivity]. }
    split; [exact Hlisted|]. split; [exact Hentry|].
    split; [exact (score_below_70 _ _ _ Ha)|].
    intros Hle h Hin Hid.
    assert (Hs : security_score a < 70)
      by (apply Hlisted; exists h; auto).
    apply (score_below_70 _ _ _ Ha) in Hs. lia.
  - intros Hreach.
    unfold CopilotAPIServer.security_scan, bind, db_read, ret. simpl.
    unfold CopilotAPIServer.scan.
    destruct (scan_loop_total (db w)
                (CopilotAPIServer.recent_ids newest (db w)))
      with (si := @nil Py.str) (hr := @nil CopilotAPIServer.high_risk)
      as [[si hr] ->].
    + apply Forall_forall. intros i Hi.
      destruct (recent_ids_stored newest _ _ Hnew Hi) as (r & Hr & <-).
      destruct (stored_exchange_is_analyzed w r Hreach Hr) as [a [Ha _]].
      eauto.
    + simpl. eauto.
Qed.

Lemma security_scan_high_risk_witness :
  exists rep,
    fst (CopilotAPIServer.security_scan
           along_index_desc
           {| db := Scenario.login_table; now := Scenario.frozen; calls := 0 |})
    = Http200 rep
    /\ In {| CopilotAPIServer.hr_request_id := 1;
             CopilotAPIServer.hr_score := 50;
             CopilotAPIServer.hr_issues :=
               [msg_sensitive_url; msg_missing_hsts; msg_missing_xcto;
                msg_missing_xfo; msg_insecure_http] |}
          (CopilotAPIServer.high_risk_requests rep).
Proof.
  pose (w := {| db := Scenario.login_table; now := Scenario.frozen; calls := 0 |}).
  pose (issues := [msg_sensitive_url; msg_missing_hsts; msg_missing_xcto;
                   msg_missing_xfo; msg_insecure_http]).
  pose (a := {| request_id := 1; security_score := 50;
                vulnerabilities := issues;
                recommendations := [AddCacheHeaders; NotCompressed] |}).
  pose (h := {| CopilotAPIServer.hr_request_id := 1;
                CopilotAPIServer.hr_score := 50;
                CopilotAPIServer.hr_issues := issues |}).
  pose (rep := {| CopilotAPIServer.total_issues := 5;
                  CopilotAPIServer.unique_issues := 5;
                  CopilotAPIServer.high_risk_requests := [h];
                  CopilotAPIServer.all_issues := issues |}).
  assert (Hscan : fst (CopilotAPIServer.security_scan along_index_desc w)
                  = Http200 rep)
    by (vm_compute; reflexivity).
  assert (Ha : analyze_request (db w) 1 = Ok a)
    by (vm_compute; reflexivity).
  destruct (security_scan_high_risk along_index_desc w index_newest_first)
    as (_ & Hall & Hlisted & _).
  exists rep. split; [exact Hscan|].
  apply (proj1 (proj2 (proj2 (Hlisted rep Hscan) 1 a Ha))).
  split.
  - apply (Hall ltac:(vm_compute; lia) (Store.mk_row 1 Scenario.login_values)).
    left. reflexivity.
  - vm_compute. reflexivity.
Defined.

End Score.

(* ================================================================== *)
(** * Header checks and corrupt columns *)

Section Headers.

Import Store CopilotAgent.

Lemma in_append_if {A} (c : bool) (m x : A) (l : list A) :
  In x (append_if c m l) <-> In x l \/ (c = true /\ x = m).
Proof.
  unfold append_if. destruct c.
  - rewrite in_app_iff. simpl. split.
    + intros [H | [H | []]]; auto.
    + intros [H | [_ H]]; auto.
  - split; [auto | intros [H | [H _]]; [exact H | discriminate H]].
Qed.

(** The findings of [_check_security], as the chain of its eight
    conditional appends; the three in the middle are governed by the
    lookups of the lower-case names. *)
Lemma check_security_shape (req : row) (h : Json.value) (rhs : Json.dict)
      (issues : list Py.str) :
  _check_security req h (Json.Obj rhs) = Ok issues ->
  exists b1 b5 b6 b7 b8,
    issues
    = append_if b8 msg_xss
        (append_if b7 msg_sql
           (append_if b6 msg_basic_auth
              (append_if b5 msg_insecure_http
                 (append_if
                    (negb (Json.truthy_opt
                             (Json.get rhs (Py.lit "x-frame-options"))))
                    msg_missing_xfo
                    (append_if
                       (negb (Json.truthy_opt
                                (Json.get rhs (Py.lit "x-content-type-options"))))
                       msg_missing_xcto
                       (append_if
                          (negb (Json.truthy_opt
                                   (Json.get rhs
                                      (Py.lit "strict-transport-security"))))
                          msg_missing_hsts
                          (append_if b1 msg_sensitive_url []))))))).
Proof.
  unfold _check_security. cbn [rbind as_dict]. intros H.
  apply rbind_ok in H; destruct H as [hd [_ H]].
  apply rbind_ok in H; destruct H as [is1 [Hauth H]].
  inversion H; subst issues; clear H.
  destruct (Py.mem _ _).
  - apply rbind_ok in Hauth; destruct Hauth as [basic [_ Hauth]].
    inversion Hauth; subst is1; clear Hauth.
    match goal with
    | |- exists _ _ _ _ _,
        append_if ?x8 _
          (append_if ?x7 _
             (append_if ?x6 _
                (append_if ?x5 _
                   (append_if _ _
                      (append_if _ _
                         (append_if _ _ (append_if ?x1 _ []))))))) = _ =>
        exists x1, x5, x6, x7, x8; reflexivity
    end.
  - inversion Hauth; subst is1; clear Hauth.
    match goal with
    | |- exists _ _ _ _ _,
        append_if ?x8 _
          (append_if ?x7 _
             (append_if ?x5 _
                (append_if _ _
                   (append_if _ _
                      (append_if _ _ (append_if ?x1 _ [])))))) = _ =>
        exists x1, x5, false, x7, x8; reflexivity
    end.
Qed.

Lemma chain_middle {A} (m1 m2 m3 m4 m5 m6 m7 m8 : A)
      (b1 b2 b3 b4 b5 b6 b7 b8 : bool) :
  NoDup [m1; m2; m3; m4; m5; m6; m7; m8] ->
  let l :=
    append_if b8 m8
      (append_if b7 m7
         (append_if b6 m6
            (append_if b5 m5
               (append_if b4 m4
                  (append_if b3 m3
                     (append_if b2 m2 (append_if b1 m1 []))))))) in
  (In m2 l <-> b2 = true) /\ (In m3 l <-> b3 = true) /\ (In m4 l <-> b4 = true).
Proof.
  intros Hd l. subst l.
  repeat match type of Hd with
         | NoDup (_ :: _) =>
             let Hn := fresh "Hn" in
             apply NoDup_cons_iff in Hd; destruct Hd as [Hn Hd]; cbn [In] in Hn
         end.
  rewrite !in_append_if. cbn [In].
  repeat split; intros Hx;
    repeat match goal with
           | H : _ \/ _ |- _ => destruct H
           | H : _ /\ _ |- _ => destruct H
           | H : False |- _ => destruct H
           end; subst; try tauto; auto 20.
Qed.

(** The eight messages differ from one another. *)
Lemma messages_distinct :
  NoDup [msg_sensitive_url; msg_missing_hsts; msg_missing_xcto;
         msg_missing_xfo; msg_insecure_http; msg_basic_auth; msg_sql; msg_xss].
Proof.
  repeat (constructor; [vm_compute; intuition discriminate|]). constructor.
Qed.

(** A missing-header finding is emitted exactly when the lookup of the
    lower-case name in the stored dictionary finds nothing, or finds a
    value that counts as false. *)
Lemma missing_header_finding_iff (req : row) (h : Json.value) (rhs : Json.dict)
      (issues : list Py.str) :
  _check_security req h (Json.Obj rhs) = Ok issues ->
  (In msg_missing_hsts issues
   <-> Json.truthy_opt (Json.get rhs (Py.lit "strict-transport-security")) = false)
  /\ (In msg_missing_xcto issues
      <-> Json.truthy_opt (Json.get rhs (Py.lit "x-content-type-options")) = false)
  /\ (In msg_missing_xfo issues
      <-> Json.truthy_opt (Json.get rhs (Py.lit "x-frame-options")) = false).
Proof.
  intros H. apply check_security_shape in H.
  destruct H as (b1 & b5 & b6 & b7 & b8 & ->).
  rewrite <- !negb_true_iff.
  exact (chain_middle _ _ _ _ _ _ _ _ b1 _ _ _ b5 b6 b7 b8 messages_distinct).
Qed.

(** C2 (the code at the failing input).  The exchange captured from a
    response that carries Strict-Transport-Security,
    X-Content-Type-Options and X-Frame-Options in their usual spelling is
    stored with these three keys, and [analyze_request] still reports
    each of the three headers as missing: the lookups use the lower-case
    names on a dictionary whose keys keep the case they arrived in. *)
Theorem missing_header_findings_for_present_headers :
  let w := snd (ProxyServer.response Scenario.hardened_flow
                                     (Scenario.fresh Scenario.ticking)) in
  exists req rhs a,
    select_by_id 1 (db w) = Some req
    /\ Json.loads (response_headers req) = Some (Json.Obj rhs)
    /\ Json.keys rhs = [Py.lit "Strict-Transport-Security";
                        Py.lit "X-Content-Type-Options";
                        Py.lit "X-Frame-Options"]
    /\ analyze_request (db w) 1 = Ok a
    /\ vulnerabilities a = [msg_missing_hsts; msg_missing_xcto; msg_missing_xfo]
    /\ security_score a = 70.
Proof.
  intros w. do 3 eexists.
  repeat (split; [vm_compute; reflexivity|]).
  vm_compute; reflexivity.
Qed.

(** C5 (counterexample).  The stored exchange of [corrupt_table] has a
    [headers] column that is not JSON, and [analyze_request] returns no
    analysis for it: the parse failure reaches the caller. *)
Lemma analyze_request_corrupt_headers_raises :
  exists req,
    select_by_id 1 Scenario.corrupt_table = Some req
    /\ Json.loads (headers req) = None
    /\ analyze_request Scenario.corrupt_table 1 = Raise JSONDecodeError
    /\ ~ exists a, analyze_request Scenario.corrupt_table 1 = Ok a.
Proof.
  eexists. split; [vm_compute; reflexivity|].
  split; [vm_compute; reflexivity|].
  assert (H : analyze_request Scenario.corrupt_table 1 = Raise JSONDecodeError)
    by (vm_compute; reflexivity).
  split; [exact H|].
  intros [a Ha]. rewrite H in Ha. discriminate Ha.
Qed.

(** C5 (amended).  For a stored exchange whose [headers] or
    [response_headers] column is not valid JSON, [analyze_request] raises
    the parse failure instead of returning an analysis, and the endpoint
    of the API server answers with status 500 and leaves the world as it
    was. *)
Theorem analyze_request_propagates_parse_failure
        (t : table) (request_id : Z) (req : row) :
  select_by_id request_id t = Some req ->
  Json.loads (headers req) = None \/ Json.loads (response_headers req) = None ->
  analyze_request t request_id = Raise JSONDecodeError
  /\ forall w, db w = t ->
       CopilotAPIServer.analyze_request request_id w
       = (Http500 JSONDecodeError, w).
Proof.
  intros Hsel Hbad.
  assert (H : analyze_request t request_id = Raise JSONDecodeError).
  { unfold analyze_request. rewrite Hsel.
    destruct (Json.loads (headers req)) as [h|] eqn:Hh.
    - destruct Hbad as [Hbad | Hbad]; [discriminate Hbad|].
      apply json_loads_ok in Hh. rewrite Hh.
      rewrite (json_loads_raise _ Hbad). reflexivity.
    - rewrite (json_loads_raise _ Hh). reflexivity. }
  split; [exact H|].
  intros w <-.
  unfold CopilotAPIServer.analyze_request, bind, db_read, ret.
  rewrite H. reflexivity.
Qed.

Lemma analyze_request_propagates_parse_failure_witness :
  analyze_request Scenario.corrupt_table 1 = Raise JSONDecodeError.
Proof.
  apply (analyze_request_propagates_parse_failure
           Scenario.corrupt_table 1
           (Store.mk_row 1 Scenario.corrupt_values)).
  - reflexivity.
  - left. vm_compute. reflexivity.
Defined.

End Headers.

(* ================================================================== *)
(** * The HAR exports *)

Section HarExport.

Import Store.









End HarExport.

(* ================================================================== *)
(** * The replay endpoints *)

Section Replay.

Import Store.

(** C9.  The replay endpoints do not write: whatever the table holds and
    whatever id (and request body) they are called with, found or not,
    the table after [replay_request] and after [modify_and_replay] of the
    API server and after [replay_request] of the web interface is the
    table before, row by row and field by field. *)
Theorem replay_endpoints_do_not_write
        (w : world) (request_id : Z) (payload : Py.str) :
  db (snd (CopilotAPIServer.replay_request request_id w)) = db w
  /\ db (snd (CopilotAPIServer.modify_and_replay request_id payload w)) = db w
  /\ db (snd (ProxyManager.replay_request request_id w)) = db w.
Proof.
  split; [|split].
  - unfold CopilotAPIServer.replay_request, bind, db_read, ret.
    destruct (select_by_id request_id (db w)); reflexivity.
  - unfold CopilotAPIServer.modify_and_replay, bind, db_read, ret.
    destruct (CopilotAgent.json_loads payload); [|reflexivity].
    destruct (select_by_id request_id (db w)); reflexivity.
  - unfold ProxyManager.replay_request, bind, db_read, ret.
    destruct (select_by_id request_id (db w)); reflexivity.
Qed.

(** By contrast, the analysis endpoint of the web interface does write:
    it marks the row as analyzed. *)
Example proxy_analyze_request_writes :
  let w := {| db := Scenario.login_table; now := Scenario.frozen; calls := 0 |} in
  map analyzed (rows (db w)) = [false]
  /\ map analyzed (rows (db (snd (ProxyManager.analyze_request 1 w)))) = [true].
Proof. split; vm_compute; reflexivity. Qed.

(** The replay endpoints answer from the stored row. *)
Example replay_request_answers :
  let w := {| db := Scenario.login_table; now := Scenario.frozen; calls := 0 |} in
  fst (CopilotAPIServer.replay_request 1 w)
  = Http200 {| CopilotAPIServer.rp_method := Py.lit "GET";
               CopilotAPIServer.rp_url :=
                 Py.lit "http://example.com/login?password=123";
               CopilotAPIServer.rp_headers := Json.Obj [];
               CopilotAPIServer.rp_body := [] |}
  /\ fst (CopilotAPIServer.replay_request 2 w) = Http404
  /\ fst (ProxyManager.replay_request 2 w) = Http404.
Proof. repeat split; vm_compute; reflexivity. Qed.

End Replay.

(* ================================================================== *)
(** * Text and SQL *)

Section SqlFacts.

Import Store.

Lemma py_eqb_eq (a b : Py.str) : Py.eqb a b = true <-> a = b.
Proof.
  revert b. induction a as [|x a IH]; intros [|y b]; simpl;
    try (split; [discriminate | discriminate]); [tauto|].
  rewrite andb_true_iff, Z.eqb_eq, IH. split.
  - intros [-> ->]. reflexivity.
  - intros H. inversion H. auto.
Qed.

Lemma py_eqb_refl (a : Py.str) : Py.eqb a a = true.
Proof. apply py_eqb_eq. reflexivity. Qed.

(** ** LIKE *)

Lemma like_percent (p x : Py.str) :
  Sql.like (37 :: p) x
  = Sql.like p x || match x with
                    | [] => false
                    | _ :: x' => Sql.like (37 :: p) x'
                    end.
Proof. destruct x; reflexivity. Qed.

Lemma like_char (c : Z) (p x : Py.str) :
  c <> 37 ->
  Sql.like (c :: p) x
  = match x with
    | [] => false
    | a :: x' =>
        ((c =? 95) || (Py.lower_cp c =? Py.lower_cp a)) && Sql.like p x'
    end.
Proof.
  intros Hc. cbn [Sql.like]. apply Z.eqb_neq in Hc. rewrite Hc. reflexivity.
Qed.

Lemma like_percent_only (x : Py.str) : Sql.like [37] x = true.
Proof.
  induction x as [|a x IH]; rewrite like_percent; [reflexivity|].
  rewrite IH. apply orb_true_r.
Qed.

Lemma like_literal_prefix (q : Py.str) :
  Sql.literal q ->
  forall x, Sql.like (q ++ [37]) x = Py.startswith (Py.lower x) (Py.lower q).
Proof.
  induction 1 as [|c q [H37 H95] _ IH]; intros x.
  - cbn [app]. rewrite like_percent_only.
    destruct (Py.lower x); reflexivity.
  - cbn [app]. rewrite (like_char c _ x H37).
    destruct x as [|a x]; [reflexivity|].
    cbn [Py.lower map Py.startswith].
    apply Z.eqb_neq in H95. rewrite H95. cbn [orb].
    rewrite IH. reflexivity.
Qed.

Lemma like_anywhere_literal (q : Py.str) :
  Sql.literal q ->
  forall x, Sql.like (Sql.anywhere q) x = Py.contains (Py.lower q) (Py.lower x).
Proof.
  intros Hq x. unfold Sql.anywhere. cbn [app].
  induction x as [|a x IH]; rewrite like_percent.
  - rewrite (like_literal_prefix q Hq). cbn [Py.lower map Py.contains].
    rewrite orb_false_r. reflexivity.
  - rewrite (like_literal_prefix q Hq), IH. reflexivity.
Qed.

Lemma like_anywhere_percent (q x : Py.str) :
  q = [] \/ q = [37] -> Sql.like (Sql.anywhere q) x = true.
Proof.
  intros [-> | ->]; unfold Sql.anywhere; cbn [app].
  - induction x as [|a x IH]; rewrite like_percent, like_percent_only;
      reflexivity.
  - induction x as [|a x IH]; rewrite like_percent.
    + rewrite like_percent, like_percent_only. reflexivity.
    + rewrite IH. apply orb_true_r.
Qed.

Lemma like_zybooks (x : Py.str) :
  Sql.like (Py.lit "%zybooks%") x
  = Py.contains (Py.lit "zybooks") (Py.lower x).
Proof.
  change (Py.lit "%zybooks%") with (Sql.anywhere (Py.lit "zybooks")).
  rewrite like_anywhere_literal; [reflexivity|].
  repeat (constructor; [split; discriminate|]). constructor.
Qed.

(** ** ORDER BY *)

Section OrderBy.

Context {A : Type} (before : A -> A -> bool).

Lemma insert_by_perm (r : A) (l : list A) :
  Permutation (Sql.insert_by before r l) (r :: l).
Proof.
  induction l as [|x l IH]; simpl; [reflexivity|].
  destruct (before x r); [|reflexivity].
  rewrite IH. apply perm_swap.
Qed.

Lemma fold_insert_by_perm (l : list A) :
  forall acc,
    Permutation (fold_left (fun acc r => Sql.insert_by before r acc) l acc)
                (acc ++ l).
Proof.
  induction l as [|r l IH]; intros acc; simpl.
  - rewrite app_nil_r. reflexivity.
  - rewrite IH, insert_by_perm. apply Permutation_middle.
Qed.

Lemma order_by_perm (l : list A) : Permutation (Sql.order_by before l) l.
Proof. unfold Sql.order_by. rewrite fold_insert_by_perm. reflexivity. Qed.

Hypothesis before_or_after :
  forall a b, before a b = true \/ before b a = true.
Hypothesis before_chain :
  forall a b c, before a b = true -> before b c = true -> before a c = true.

Lemma insert_by_sorted (r : A) (l : list A) :
  StronglySorted (fun a b => before a b = true) l ->
  StronglySorted (fun a b => before a b = true) (Sql.insert_by before r l).
Proof.
  induction 1 as [|x l Hs IH Hx]; simpl.
  - repeat constructor.
  - destruct (before x r) eqn:E.
    + constructor; [exact IH|].
      rewrite Forall_forall. intros y Hy.
      apply (Permutation_in _ (insert_by_perm r l)) in Hy.
      destruct Hy as [<- | Hy]; [exact E|].
      rewrite Forall_forall in Hx. exact (Hx y Hy).
    + assert (Hrx : before r x = true).
      { destruct (before_or_after x r) as [H | H]; [congruence | exact H]. }
      constructor; [constructor; assumption|].
      constructor; [exact Hrx|].
      eapply Forall_impl; [|exact Hx].
      intros y Hy. exact (before_chain _ _ _ Hrx Hy).
Qed.

Lemma order_by_sorted (l : list A) :
  StronglySorted (fun a b => before a b = true) (Sql.order_by before l).
Proof.
  unfold Sql.order_by.
  assert (H : forall acc,
             StronglySorted (fun a b => before a b = true) acc ->
             StronglySorted (fun a b => before a b = true)
               (fold_left (fun acc r => Sql.insert_by before r acc) l acc)).
  { induction l as [|r l IH]; intros acc Hacc; simpl; [exact Hacc|].
    apply IH, insert_by_sorted, Hacc. }
  apply H. constructor.
Qed.

(** The sort is one of the orders that ORDER BY may return. *)
Lemma order_by_ordered :
  Sql.ordered_by (fun a b => before a b = true) (Sql.order_by before).
Proof. intros l. split; [apply order_by_perm | apply order_by_sorted]. Qed.

End OrderBy.

Lemma ordered_by_weaken {A} (R R' : A -> A -> Prop) (order : list A -> list A) :
  (forall a b, R a b -> R' a b) ->
  Sql.ordered_by R order -> Sql.ordered_by R' order.
Proof.
  intros HR H l. destruct (H l) as [Hp Hs].
  split; [exact Hp | exact (sorted_weaken _ _ _ HR Hs)].
Qed.

Lemma newest_first_ordered (newest : list row -> list row) :
  newest_first newest
  <-> Sql.ordered_by (fun a b => timestamp b <= timestamp a) newest.
Proof. reflexivity. Qed.

Lemma slowest_first_sort :
  Sql.ordered_by (fun a b : row => duration b <= duration a)
                 (Sql.order_by Sql.duration_desc).
Proof.
  eapply ordered_by_weaken; [|apply order_by_ordered].
  - cbn. intros a b H. apply Z.leb_le. exact H.
  - intros a b. unfold Sql.duration_desc. rewrite !Z.leb_le. lia.
  - intros a b c. unfold Sql.duration_desc. rewrite !Z.leb_le. lia.
Qed.

Lemma largest_first_sort {K} :
  Sql.ordered_by (fun a b : K * Z => snd b <= snd a)
                 (Sql.order_by Sql.count_desc).
Proof.
  eapply ordered_by_weaken; [|apply order_by_ordered].
  - cbn. intros a b H. apply Z.leb_le. exact H.
  - intros a b. unfold Sql.count_desc. rewrite !Z.leb_le. lia.
  - intros a b c. unfold Sql.count_desc. rewrite !Z.leb_le. lia.
Qed.

(** The first rows of an order, and the rows that it leaves out. *)
Lemma ordered_firstn {A} (R : A -> A -> Prop) (order : list A -> list A)
      (k : nat) (l : list A) :
  Sql.ordered_by R order ->
  StronglySorted R (firstn k (order l))
  /\ length (firstn k (order l)) = Nat.min k (length l)
  /\ Permutation l (firstn k (order l) ++ skipn k (order l))
  /\ forall x y, In x (firstn k (order l)) -> In y (skipn k (order l)) -> R x y.
Proof.
  intros H. destruct (H l) as [Hp Hs].
  split; [apply sorted_firstn; exact Hs|].
  split; [rewrite length_firstn, (Permutation_length Hp); reflexivity|].
  split; [rewrite firstn_skipn; symmetry; exact Hp|].
  apply sorted_split. exact Hs.
Qed.

(** The newest rows up to a limit. *)
Lemma newest_rows (newest : list row -> list row) (n : Z) (l : list row) :
  newest_first newest ->
  let sel := limit n (newest l) in
  length sel = (if n <? 0 then length l else Nat.min (Z.to_nat n) (length l))
  /\ StronglySorted (fun a b => timestamp b <= timestamp a) sel
  /\ (forall r, In r sel -> In r l)
  /\ exists rest,
      Permutation l (sel ++ rest)
      /\ forall x y, In x sel -> In y rest -> timestamp y <= timestamp x.
Proof.
  intros Hnew. cbv zeta.
  destruct (newest_within_limit newest n l Hnew) as (rest & Hp & Hlen & Hr).
  destruct (Hnew l) as [Hperm Hsorted].
  split; [exact Hlen|]. split; [|split].
  - unfold limit. destruct (n <? 0); [exact Hsorted|].
    apply sorted_firstn. exact Hsorted.
  - intros r Hin. apply limit_in in Hin.
    exact (Permutation_in _ Hperm Hin).
  - exists rest. split; [exact Hp | exact Hr].
Qed.

Lemma sorted_map {A B} (f : A -> B) (R : B -> B -> Prop) (l : list A) :
  StronglySorted (fun a b => R (f a) (f b)) l -> StronglySorted R (map f l).
Proof.
  induction 1 as [|a m Hm IH Ha]; cbn [map]; constructor; [exact IH|].
  rewrite Forall_map. exact Ha.
Qed.

(** ** GROUP BY and counting in a [dict] *)

Lemma total_acc (l : list Z) :
  forall a, fold_left Z.add l a = a + Sql.total l.
Proof.
  unfold Sql.total. induction l as [|x l IH]; intros a; simpl; [lia|].
  rewrite (IH (a + x)), (IH x). lia.
Qed.

Lemma total_cons (x : Z) (l : list Z) : Sql.total (x :: l) = x + Sql.total l.
Proof. unfold Sql.total at 1. simpl. rewrite total_acc. lia. Qed.

Lemma total_app (l l' : list Z) :
  Sql.total (l ++ l') = Sql.total l + Sql.total l'.
Proof.
  induction l as [|x l IH]; simpl; [reflexivity|].
  rewrite !total_cons, IH. lia.
Qed.

Lemma total_perm (l l' : list Z) :
  Permutation l l' -> Sql.total l = Sql.total l'.
Proof.
  induction 1; rewrite ?total_cons in *; lia.
Qed.

Section Tally.

Context {K : Type} (eqb : K -> K -> bool).
Hypothesis eqb_spec : forall a b, eqb a b = true <-> a = b.

Lemma eqb_sym (a b : K) : eqb a b = eqb b a.
Proof.
  destruct (eqb a b) eqn:E, (eqb b a) eqn:E'; try reflexivity.
  - apply eqb_spec in E. subst b. rewrite <- E'. symmetry. now apply eqb_spec.
  - apply eqb_spec in E'. subst b. rewrite <- E. now apply eqb_spec.
Qed.

Lemma count_of_bump (k k' : K) (d : list (K * Z)) :
  Sql.count_of eqb k' (Sql.bump eqb k d)
  = Sql.count_of eqb k' d + (if eqb k k' then 1 else 0).
Proof.
  unfold Sql.count_of.
  induction d as [|[k0 n] d IH]; cbn [Sql.bump find fst snd].
  - rewrite (eqb_sym k' k). destruct (eqb k k'); reflexivity.
  - destruct (eqb k k0) eqn:E; cbn [find fst snd].
    + apply eqb_spec in E. subst k0. rewrite (eqb_sym k' k).
      destruct (eqb k k'); cbn [snd]; lia.
    + destruct (eqb k' k0) eqn:E'; cbn [snd]; [|exact IH].
      apply eqb_spec in E'. subst k0. rewrite E. lia.
Qed.

Lemma keys_bump (k k' : K) (d : list (K * Z)) :
  In k' (map fst (Sql.bump eqb k d)) <-> k' = k \/ In k' (map fst d).
Proof.
  induction d as [|[k0 n] d IH]; cbn [Sql.bump map fst In].
  - intuition.
  - destruct (eqb k k0) eqn:E; cbn [map fst In].
    + apply eqb_spec in E. subst k0. intuition.
    + rewrite IH. intuition.
Qed.

Lemma nodup_bump (k : K) (d : list (K * Z)) :
  NoDup (map fst d) -> NoDup (map fst (Sql.bump eqb k d)).
Proof.
  induction d as [|[k0 n] d IH]; cbn [Sql.bump map fst]; intros H.
  - repeat constructor. intros [].
  - apply NoDup_cons_iff in H. destruct H as [Hn Hd].
    destruct (eqb k k0) eqn:E; cbn [map fst].
    + constructor; assumption.
    + constructor; [|exact (IH Hd)].
      rewrite keys_bump. intros [-> | H]; [|exact (Hn H)].
      assert (eqb k k = true) by now apply eqb_spec. congruence.
Qed.

Lemma positive_bump (k : K) (d : list (K * Z)) :
  Forall (fun kv => 0 < snd kv) d ->
  Forall (fun kv => 0 < snd kv) (Sql.bump eqb k d).
Proof.
  induction 1 as [|[k0 n] d Hn Hd IH]; cbn [Sql.bump].
  - repeat constructor.
  - destruct (eqb k k0); constructor; cbn [snd] in *; try assumption; lia.
Qed.

Lemma total_bump (k : K) (d : list (K * Z)) :
  Sql.total (map snd (Sql.bump eqb k d)) = Sql.total (map snd d) + 1.
Proof.
  induction d as [|[k0 n] d IH]; cbn [Sql.bump map snd].
  - reflexivity.
  - destruct (eqb k k0); cbn [map snd]; rewrite !total_cons; lia.
Qed.

(** The number of occurrences of a key in a list. *)
Lemma tally_fold (ks : list K) :
  forall d,
    let d' := fold_left (fun d k => Sql.bump eqb k d) ks d in
    (NoDup (map fst d) -> NoDup (map fst d'))
    /\ (Forall (fun kv => 0 < snd kv) d -> Forall (fun kv => 0 < snd kv) d')
    /\ (forall k, In k (map fst d') <-> In k (map fst d) \/ In k ks)
    /\ (forall k, Sql.count_of eqb k d'
                  = Sql.count_of eqb k d
                    + Z.of_nat (length (filter (fun x => eqb x k) ks)))
    /\ Sql.total (map snd d')
       = Sql.total (map snd d) + Z.of_nat (length ks).
Proof.
  induction ks as [|k0 ks IH]; intros d; cbn [fold_left].
  - cbn. repeat split; auto; try tauto; try lia.
  - destruct (IH (Sql.bump eqb k0 d)) as (H1 & H2 & H3 & H4 & H5).
    repeat split.
    + intros H. apply H1, nodup_bump, H.
    + intros H. apply H2, positive_bump, H.
    + intros H. rewrite H3, keys_bump in H. cbn [In]. intuition.
    + intros H. rewrite H3, keys_bump. cbn [In] in H. intuition.
    + intros k. rewrite H4, count_of_bump. cbn [filter].
      destruct (eqb k0 k); cbn [length]; lia.
    + rewrite H5, total_bump. cbn [length]. lia.
Qed.

Lemma count_of_in (d : list (K * Z)) (k : K) (n : Z) :
  NoDup (map fst d) ->
  (In (k, n) d <-> In k (map fst d) /\ Sql.count_of eqb k d = n).
Proof.
  unfold Sql.count_of.
  induction d as [|[k0 m] d IH]; cbn [map fst In find]; intros H.
  - tauto.
  - apply NoDup_cons_iff in H. destruct H as [Hn Hd].
    destruct (eqb k k0) eqn:E; cbn [fst snd].
    + apply eqb_spec in E. subst k0. split.
      * intros [H | H]; [inversion H; auto|].
        exfalso. apply Hn. apply (in_map fst) in H. exact H.
      * intros [_ ->]. auto.
    + assert (Hkk : eqb k k = true) by now apply eqb_spec.
      split.
      * intros [H | H].
        -- inversion H; subst. congruence.
        -- apply (IH Hd) in H. tauto.
      * intros [[H | H] Hc].
        -- subst k0. congruence.
        -- right. apply (IH Hd). tauto.
Qed.

Lemma tally_spec (ks : list K) :
  NoDup (map fst (Sql.tally eqb ks))
  /\ (forall k n,
         In (k, n) (Sql.tally eqb ks)
         <-> In k ks /\ n = Z.of_nat (length (filter (fun x => eqb x k) ks)))
  /\ Sql.total (map snd (Sql.tally eqb ks)) = Z.of_nat (length ks).
Proof.
  destruct (tally_fold ks []) as (H1 & _ & H3 & H4 & H5).
  fold (Sql.tally eqb ks) in *. cbn in H1, H3, H4, H5.
  assert (Hd : NoDup (map fst (Sql.tally eqb ks))) by (apply H1; constructor).
  split; [exact Hd|]. split; [|exact H5].
  intros k n. rewrite (count_of_in _ _ _ Hd), H3, H4. intuition.
Qed.

End Tally.

End SqlFacts.

(* ================================================================== *)
(** * The ids of the exchanges *)

Section Ids.

Import Store.

Lemma sorted_snoc (l : list Z) (x : Z) :
  StronglySorted Z.lt l -> Forall (fun y => y < x) l ->
  StronglySorted Z.lt (l ++ [x]).
Proof.
  induction 1 as [|a l Hs IH Ha]; intros Hx; simpl.
  - repeat constructor.
  - apply Forall_cons_iff in Hx. destruct Hx as [Hax Hx].
    constructor; [exact (IH Hx)|].
    apply Forall_app. split; [exact Ha|]. repeat constructor. exact Hax.
Qed.

Lemma sorted_nodup (l : list Z) : StronglySorted Z.lt l -> NoDup l.
Proof.
  induction 1 as [|a l Hs IH Ha]; constructor; [|exact IH].
  intros Hin. rewrite Forall_forall in Ha. specialize (Ha a Hin). lia.
Qed.

Lemma same_exchange_refl (r : row) : same_exchange r r.
Proof. reflexivity. Qed.

Lemma same_exchange_set_analyzed (r : row) : same_exchange r (set_analyzed r).
Proof. reflexivity. Qed.

Lemma same_exchange_trans (a b c : row) :
  same_exchange a b -> same_exchange b c -> same_exchange a c.
Proof. unfold same_exchange. congruence. Qed.

Lemma same_exchange_id (a b : row) : same_exchange a b -> id a = id b.
Proof. unfold same_exchange. intros H. exact (f_equal id H). Qed.

Lemma keeps_numbering_refl (t : table) : keeps_numbering t t.
Proof.
  split; [tauto|]. split; [lia|].
  intros r' H _. exists r'. split; [exact H | reflexivity].
Qed.

Lemma keeps_numbering_insert (v : values) (t : table) :
  keeps_numbering t (insert v t).
Proof.
  unfold keeps_numbering, well_numbered, insert. cbn [rows seq].
  split; [|split].
  - intros (Hs & Hb & H0). split; [|split].
    + rewrite map_app. cbn [map mk_row id]. apply sorted_snoc; [exact Hs|].
      rewrite Forall_map. eapply Forall_impl; [|exact Hb].
      cbn. intros r Hr. lia.
    + apply Forall_app. split.
      * eapply Forall_impl; [|exact Hb]. cbn. intros r Hr. lia.
      * repeat constructor; cbn [mk_row id]; lia.
    + lia.
  - lia.
  - intros r' Hin Hid. apply in_app_or in Hin. destruct Hin as [Hin | [<- | []]].
    + exists r'. split; [exact Hin | reflexivity].
    + cbn [mk_row id] in Hid. lia.
Qed.

Lemma keeps_numbering_update (i : Z) (t : table) :
  keeps_numbering t (update_analyzed i t).
Proof.
  unfold keeps_numbering, well_numbered, update_analyzed. cbn [rows seq].
  assert (Hid : map id (map (fun r => if id r =? i then set_analyzed r else r)
                            (rows t)) = map id (rows t)).
  { rewrite map_map. apply map_ext. intros r. destruct (id r =? i); reflexivity. }
  split; [|split].
  - intros (Hs & Hb & H0). rewrite Hid. split; [exact Hs|]. split; [|exact H0].
    rewrite Forall_map. eapply Forall_impl; [|exact Hb].
    cbn. intros r Hr. destruct (id r =? i); exact Hr.
  - lia.
  - intros r' Hin _. apply in_map_iff in Hin. destruct Hin as [r [<- Hin]].
    exists r. split; [exact Hin|].
    destruct (id r =? i); reflexivity.
Qed.

Lemma keeps_numbering_delete (t : table) : keeps_numbering t (delete_all t).
Proof.
  unfold keeps_numbering, well_numbered, delete_all. cbn [rows seq map].
  split; [|split].
  - intros (_ & _ & H0). repeat split; try constructor; tauto.
  - lia.
  - intros r' [].
Qed.

(** The handlers that only read leave the table as it is. *)
Lemma api_replay_reads (i : Z) (w : world) :
  db (snd (CopilotAPIServer.replay_request i w)) = db w.
Proof.
  unfold CopilotAPIServer.replay_request, bind, db_read, ret.
  destruct (select_by_id i (db w)); reflexivity.
Qed.

Lemma api_modify_reads (i : Z) (payload : Py.str) (w : world) :
  db (snd (CopilotAPIServer.modify_and_replay i payload w)) = db w.
Proof.
  unfold CopilotAPIServer.modify_and_replay, bind, db_read, ret.
  destruct (CopilotAgent.json_loads payload); [|reflexivity].
  destruct (select_by_id i (db w)); reflexivity.
Qed.

Lemma web_analyze_writes (i : Z) (w : world) :
  db (snd (ProxyManager.analyze_request i w)) = db w
  \/ db (snd (ProxyManager.analyze_request i w)) = update_analyzed i (db w).
Proof.
  unfold ProxyManager.analyze_request, bind, db_read, db_write, ret.
  destruct (select_by_id i (db w)); [|left; reflexivity].
  match goal with
  | |- context [match ?r with Ok _ => _ | Raise _ => _ end] => destruct r
  end; [right | left]; reflexivity.
Qed.

Lemma step_keeps_numbering (w w' : world) :
  step w w' -> keeps_numbering (db w) (db w').
Proof.
  intros Hstep. destruct Hstep;
    try apply keeps_numbering_refl.
  - rewrite proxy_response_run. apply keeps_numbering_insert.
  - destruct (analyzer_response_run flow w) as (v & -> & _).
    apply keeps_numbering_insert.
  - rewrite api_replay_reads. apply keeps_numbering_refl.
  - rewrite api_modify_reads. apply keeps_numbering_refl.
  - destruct (web_analyze_writes i w) as [-> | ->];
      [apply keeps_numbering_refl | apply keeps_numbering_update].
  - apply keeps_numbering_delete.
Qed.

Lemma keeps_numbering_trans (a b c : table) :
  keeps_numbering a b -> keeps_numbering b c -> keeps_numbering a c.
Proof.
  intros (H1 & H2 & H3) (H1' & H2' & H3').
  split; [tauto|]. split; [lia|].
  intros r' Hin Hid.
  destruct (H3' r' Hin ltac:(lia)) as (r1 & Hin1 & Hs1).
  destruct (H3 r1 Hin1) as (r & Hin0 & Hs0).
  - rewrite (same_exchange_id _ _ Hs1). exact Hid.
  - exists r. split; [exact Hin0|]. exact (same_exchange_trans _ _ _ Hs0 Hs1).
Qed.

Lemma later_keeps_numbering (w w' : world) :
  later w w' -> keeps_numbering (db w) (db w').
Proof.
  induction 1 as [w | w w1 w2 _ IH Hstep].
  - apply keeps_numbering_refl.
  - exact (keeps_numbering_trans _ _ _ IH (step_keeps_numbering _ _ Hstep)).
Qed.

Lemma reachable_numbered (w : world) : reachable w -> well_numbered (db w).
Proof.
  induction 1 as [clock | w w' _ IH Hstep].
  - repeat split; cbn; try constructor; lia.
  - exact (proj1 (step_keeps_numbering _ _ Hstep) IH).
Qed.

Lemma numbered_unique (t : table) (r r' : row) :
  well_numbered t -> In r (rows t) -> In r' (rows t) -> id r = id r' -> r = r'.
Proof.
  intros (Hs & _ & _). apply sorted_nodup in Hs.
  revert Hs. induction (rows t) as [|x l IH]; cbn [map In]; [tauto|].
  intros Hd [-> | Hr] [-> | Hr'] Hid; try reflexivity.
  - exfalso. apply NoDup_cons_iff in Hd. apply (proj1 Hd).
    rewrite Hid. apply in_map. exact Hr'.
  - exfalso. apply NoDup_cons_iff in Hd. apply (proj1 Hd).
    rewrite <- Hid. apply in_map. exact Hr.
  - apply NoDup_cons_iff in Hd. exact (IH (proj2 Hd) Hr Hr' Hid).
Qed.

(** The world of the examples: one exchange, stored by the proxy hook. *)
Lemma hardened_flow_plain : plain_flow Scenario.hardened_flow.
Proof.
  split; cbn; repeat (constructor; cbn [fst snd]); lia.
Qed.

Lemma one_exchange_reachable : reachable Examples.one_exchange.
Proof.
  apply (reachable_step (Scenario.fresh Scenario.frozen));
    [apply reachable_start|].
  apply step_proxy_response, hardened_flow_plain.
Qed.

Lemma one_exchange_next_id : seq (db Examples.one_exchange) + 1 = 2.
Proof. vm_compute. reflexivity. Qed.

(** X1.  The id of an exchange is never handed out again.  In every
    world that the running system gets to, the ids of the stored rows are
    positive, differ from one another and are not beyond the
    AUTOINCREMENT counter; the counter never goes back; and at any later
    time a row that carries an id which the counter had already reached
    is a row that was stored then, the same in every column but
    [analyzed].  This holds across [clear_traffic] too: the rows are
    gone, their ids are not used again. *)
Theorem ids_are_never_reused (w w' : world) :
  reachable w -> later w w' ->
  (NoDup (map id (rows (db w')))
   /\ Forall (fun r => 0 < id r <= seq (db w')) (rows (db w')))
  /\ seq (db w) <= seq (db w')
  /\ (forall r', In r' (rows (db w')) -> id r' <= seq (db w) ->
                exists r, In r (rows (db w)) /\ same_exchange r r')
  /\ (forall r r', In r (rows (db w)) -> In r' (rows (db w')) ->
                  id r' = id r -> same_exchange r r').
Proof.
  intros Hreach Hlater.
  pose proof (reachable_numbered w Hreach) as Hw.
  destruct (later_keeps_numbering w w' Hlater) as (Hn & Hseq & Hold).
  destruct (Hn Hw) as (Hs & Hb & H0).
  split; [split; [exact (sorted_nodup _ Hs) | exact Hb]|].
  split; [exact Hseq|]. split; [exact Hold|].
  intros r r' Hr Hr' Hid.
  destruct Hw as (Hws & Hwb & Hw0).
  assert (Hle : id r' <= seq (db w)).
  { rewrite Forall_forall in Hwb. specialize (Hwb r Hr). lia. }
  destruct (Hold r' Hr' Hle) as (r0 & Hr0 & Hsame).
  assert (r0 = r).
  { apply (numbered_unique (db w)); try assumption.
    - repeat split; assumption.
    - rewrite (same_exchange_id _ _ Hsame). exact Hid. }
  subst r0. exact Hsame.
Qed.

Lemma ids_are_never_reused_witness :
  seq (db Examples.one_exchange) <= seq (db Examples.cleared_then_one)
  /\ forall r r',
      In r (rows (db Examples.one_exchange)) ->
      In r' (rows (db Examples.cleared_then_one)) ->
      id r' <> id r.
Proof.
  assert (Hlater : later Examples.one_exchange Examples.cleared_then_one).
  { apply (later_step _ (snd (ProxyManager.clear_traffic Examples.one_exchange)));
      [apply (later_step _ Examples.one_exchange); [apply later_now|]|].
    - apply step_web_clear.
    - apply step_proxy_response, hardened_flow_plain. }
  destruct (ids_are_never_reused _ _ one_exchange_reachable Hlater)
    as (_ & Hseq & Hold & _).
  split; [exact Hseq|].
  intros r r' Hr Hr' Hid.
  vm_compute in Hr. destruct Hr as [<- | []].
  vm_compute in Hr'. destruct Hr' as [<- | []].
  vm_compute in Hid. discriminate Hid.
Defined.

End Ids.

(* ================================================================== *)
(** * What is captured is what is found *)

Section RoundTrip.

Import Store.

Lemma find_snoc {A} (f : A -> bool) (l : list A) (x : A) :
  find f (l ++ [x])
  = match find f l with
    | Some y => Some y
    | None => if f x then Some x else None
    end.
Proof.
  induction l as [|y l IH]; simpl; [reflexivity|].
  destruct (f y); [reflexivity | exact IH].
Qed.

Lemma select_fresh (t : table) (i : Z) :
  well_numbered t -> seq t < i -> select_by_id i t = None.
Proof.
  intros (_ & Hb & _) Hi. unfold select_by_id.
  destruct (find (fun r => id r =? i) (rows t)) as [r|] eqn:E; [|reflexivity].
  apply find_some in E. destruct E as [Hin Hid].
  rewrite Forall_forall in Hb. specialize (Hb r Hin).
  apply Z.eqb_eq in Hid. lia.
Qed.

Lemma select_insert (v : values) (t : table) (j : Z) :
  well_numbered t ->
  select_by_id j (insert v t)
  = if j =? seq t + 1 then Some (mk_row (seq t + 1) v) else select_by_id j t.
Proof.
  intros Hn. unfold select_by_id, insert. cbn [rows].
  rewrite find_snoc. cbn [mk_row id].
  destruct (j =? seq t + 1) eqn:E.
  - apply Z.eqb_eq in E. subst j.
    pose proof (select_fresh t (seq t + 1) Hn ltac:(lia)) as Hf.
    unfold select_by_id in Hf. rewrite Hf, Z.eqb_refl. reflexivity.
  - rewrite Z.eqb_sym, E.
    destruct (find (fun r => id r =? j) (rows t)); reflexivity.
Qed.

Lemma set_fresh (acc : Json.dict) (k : Py.str) (v : Json.value) :
  ~ In k (Json.keys acc) -> Json.set acc k v = acc ++ [(k, v)].
Proof.
  unfold Json.keys. induction acc as [|[k' v'] acc IH]; cbn [Json.set map fst In app];
    intros Hn; [reflexivity|].
  destruct (Py.eqb k k') eqn:E.
  - apply py_eqb_eq in E. subst k'. tauto.
  - rewrite IH; [reflexivity | tauto].
Qed.

Lemma of_headers_distinct (d : list (Py.str * Py.str)) :
  NoDup (map fst d) ->
  Json.of_headers d = map (fun kv => (fst kv, Json.Str (snd kv))) d.
Proof.
  unfold Json.of_headers. intros Hd.
  assert (H : forall acc,
             NoDup (Json.keys acc ++ map fst d) ->
             fold_left (fun a kv => Json.set a (fst kv) (Json.Str (snd kv))) d acc
             = acc ++ map (fun kv => (fst kv, Json.Str (snd kv))) d).
  { clear Hd. induction d as [|[k v] d IH]; intros acc Hacc; cbn [fold_left map fst snd].
    - rewrite app_nil_r. reflexivity.
    - cbn [map fst] in Hacc.
      rewrite set_fresh.
      + rewrite IH.
        * rewrite <- app_assoc. reflexivity.
        * unfold Json.keys in *. rewrite map_app, <- app_assoc. exact Hacc.
      + apply NoDup_remove_2 in Hacc. intros Hin. apply Hacc.
        apply in_or_app. left. exact Hin. }
  apply (H []). exact Hd.
Qed.

(** X2.  An exchange that the proxy hook has stored is found under its
    id.  In a running system the hook gives the exchange the id after the
    counter, and [get_request_detail] of that id returns the row with
    the method, URL, host, path and scheme of the request, the dump of
    its headers, its decoded body and the status of the response, not
    yet analyzed; the answer for every other id is what it was before. *)
Theorem captured_exchange_is_found_by_id (flow : HTTPFlow) (w : world) :
  reachable w ->
  let w' := snd (ProxyServer.response flow w) in
  let i := seq (db w) + 1 in
  (exists r,
      fst (ProxyManager.get_request_detail i w') = Http200 r
      /\ id r = i
      /\ method r = req_method (request_of flow)
      /\ url r = req_url (request_of flow)
      /\ host r = req_host (request_of flow)
      /\ path r = req_path (request_of flow)
      /\ protocol r = req_scheme (request_of flow)
      /\ headers r = Json.dumps_headers (req_headers (request_of flow))
      /\ body r = Py.decode_ignore (request_bytes flow)
      /\ response_status r = option_map status_code (response_of flow)
      /\ analyzed r = false)
  /\ (forall j, j <> i ->
        fst (ProxyManager.get_request_detail j w')
        = fst (ProxyManager.get_request_detail j w)).
Proof.
  intros Hreach w' i. subst w' i.
  pose proof (reachable_numbered w Hreach) as Hn.
  rewrite proxy_response_run.
  unfold ProxyManager.get_request_detail, bind, db_read, ret. cbn [fst snd db].
  split.
  - rewrite (select_insert _ _ _ Hn), Z.eqb_refl.
    eexists. split; [reflexivity|].
    cbn [mk_row id method url host path protocol headers body response_status
         analyzed v_method v_url v_host v_path v_protocol v_headers v_body
         v_response_status].
    repeat split. apply request_body_decodes.
  - intros j Hj. rewrite (select_insert _ _ _ Hn).
    apply Z.eqb_neq in Hj. rewrite Hj. reflexivity.
Qed.

Lemma captured_exchange_is_found_by_id_witness :
  exists r,
    fst (ProxyManager.get_request_detail
           2 (snd (ProxyServer.response Scenario.binary_flow
                                        Examples.one_exchange)))
    = Http200 r
    /\ id r = 2
    /\ url r = Py.lit "https://example.com/"
    /\ response_status r = Some 200
    /\ analyzed r = false.
Proof.
  pose proof (captured_exchange_is_found_by_id
                Scenario.binary_flow Examples.one_exchange
                one_exchange_reachable) as H.
  cbv zeta in H. rewrite one_exchange_next_id in H.
  destruct H as ((r & Hget & Hid & _ & Hurl & _ & _ & _ & _ & _ & Hst & Han) & _).
  exists r. split; [exact Hget|]. split; [exact Hid|].
  split; [rewrite Hurl; vm_compute; reflexivity|].
  split; [rewrite Hst; reflexivity | exact Han].
Defined.

(** X3.  A captured request comes back from the replay endpoint as it
    was: for a flow with plain header text, [replay_request] of the new
    id answers with the method, the URL and the decoded body of the
    request and with its headers, parsed back from the stored dump; when
    the header names differ from one another these are the pairs of the
    request, in their order. *)
Theorem captured_request_is_replayed (flow : HTTPFlow) (w : world) :
  reachable w -> plain_flow flow ->
  fst (CopilotAPIServer.replay_request
         (seq (db w) + 1) (snd (ProxyServer.response flow w)))
  = Http200
      {| CopilotAPIServer.rp_method := req_method (request_of flow);
         CopilotAPIServer.rp_url := req_url (request_of flow);
         CopilotAPIServer.rp_headers :=
           Json.Obj (Json.of_headers (req_headers (request_of flow)));
         CopilotAPIServer.rp_body := Py.decode_ignore (request_bytes flow) |}
  /\ (NoDup (map fst (req_headers (request_of flow))) ->
      Json.of_headers (req_headers (request_of flow))
      = map (fun kv => (fst kv, Json.Str (snd kv)))
            (req_headers (request_of flow))).
Proof.
  intros Hreach [Hplain _].
  pose proof (reachable_numbered w Hreach) as Hn.
  split; [|apply of_headers_distinct].
  rewrite proxy_response_run.
  unfold CopilotAPIServer.replay_request, bind, db_read, ret. cbn [fst snd db].
  rewrite (select_insert _ _ _ Hn), Z.eqb_refl.
  cbn [fst mk_row method url headers body v_method v_url v_headers v_body].
  unfold CopilotAgent.json_loads.
  rewrite (loads_dumps_headers _ Hplain). cbn [rbind respond].
  rewrite request_body_decodes. reflexivity.
Qed.

Lemma captured_request_is_replayed_witness :
  fst (CopilotAPIServer.replay_request
         2 (snd (ProxyServer.response Scenario.hardened_flow
                                      Examples.one_exchange)))
  = Http200
      {| CopilotAPIServer.rp_method := Py.lit "GET";
         CopilotAPIServer.rp_url := Py.lit "https://example.com/";
         CopilotAPIServer.rp_headers :=
           Json.Obj [(Py.lit "Host", Json.Str (Py.lit "example.com"))];
         CopilotAPIServer.rp_body := [] |}.
Proof.
  pose proof (proj1 (captured_request_is_replayed
                       Scenario.hardened_flow Examples.one_exchange
                       one_exchange_reachable hardened_flow_plain)) as H.
  rewrite one_exchange_next_id in H. rewrite H.
  vm_compute. reflexivity.
Defined.

(** X4.  The two capture hooks store the same row for a flow that has a
    response of less than 1 MiB; for a flow without response they agree
    on every column but the status, which the hook of the proxy server
    leaves NULL and the hook of the CLI sets to 0. *)
Theorem capture_hooks_agree (flow : HTTPFlow) (w : world) :
  (forall r,
      response_of flow = Some r ->
      Z.of_nat (length (response_bytes flow)) < MiB ->
      ProxyServer.response flow w = TrafficAnalyzer.response flow w)
  /\ (response_of flow = None ->
      exists r1 r2,
        rows (db (snd (ProxyServer.response flow w))) = rows (db w) ++ [r1]
        /\ rows (db (snd (TrafficAnalyzer.response flow w))) = rows (db w) ++ [r2]
        /\ response_status r1 = None
        /\ response_status r2 = Some 0
        /\ r2 = {| id := id r1;
                   timestamp := timestamp r1;
                   method := method r1;
                   url := url r1;
                   host := host r1;
                   path := path r1;
                   headers := headers r1;
                   body := body r1;
                   response_status := Some 0;
                   response_headers := response_headers r1;
                   response_body := response_body r1;
                   duration := duration r1;
                   protocol := protocol r1;
                   analyzed := analyzed r1;
                   notes := notes r1 |}).
Proof.
  split.
  - intros r Hr Hlen. rewrite proxy_response_run.
    pose proof (response_body_cases flow) as Hb.
    apply Z.ltb_lt in Hlen. rewrite Hlen in Hb. rewrite Hb, request_body_decodes.
    unfold TrafficAnalyzer.response, bind, time_time, db_write.
    cbn [db now calls]. unfold response_bytes, request_bytes.
    rewrite Hr.
    destruct (req_content (request_of flow)) as [[|b bs]|];
      destruct (resp_content r) as [[|c cs]|]; reflexivity.
  - intros Hr. rewrite proxy_response_run.
    unfold TrafficAnalyzer.response, bind, time_time, db_write.
    cbn [db now calls snd]. rewrite Hr.
    eexists. eexists. split; [reflexivity|]. split; [reflexivity|].
    split; [reflexivity|]. split; [reflexivity|].
    cbn [mk_row id timestamp method url host path headers body
         response_headers response_body duration protocol analyzed notes
         v_timestamp v_method v_url v_host v_path v_headers v_body
         v_response_headers v_response_body v_duration v_protocol].
    unfold ProxyServer.request_body, ProxyServer.response_body.
    reflexivity.
Qed.

End RoundTrip.

(* ================================================================== *)
(** * The handlers of the web interface *)

Section WebInterface.

Import Store.

Lemma find_map_id (f : row -> row) (i : Z) (l : list row) :
  (forall r, id (f r) = id r) ->
  find (fun r => id r =? i) (map f l)
  = option_map f (find (fun r => id r =? i) l).
Proof.
  intros Hf. induction l as [|x l IH]; simpl; [reflexivity|].
  rewrite Hf. destruct (id x =? i); [reflexivity | exact IH].
Qed.

Lemma select_update (i j : Z) (t : table) :
  select_by_id j (update_analyzed i t)
  = option_map (fun r => if id r =? i then set_analyzed r else r)
               (select_by_id j t).
Proof.
  unfold select_by_id, update_analyzed. cbn [rows].
  apply find_map_id. intros r. destruct (id r =? i); reflexivity.
Qed.

Lemma update_twice (i : Z) (t : table) :
  update_analyzed i (update_analyzed i t) = update_analyzed i t.
Proof.
  unfold update_analyzed. cbn [rows seq]. f_equal.
  rewrite map_map. apply map_ext. intros r.
  destruct (id r =? i) eqn:E; cbn [id set_analyzed]; rewrite E; reflexivity.
Qed.

(** X5.  [analyze_request] of the web interface marks the request and
    nothing else.  When it answers with an analysis, every row of the
    given id is marked as analyzed and the rows of the other ids are as
    they were; when it answers that the request was not found, or fails
    on a [headers] column that is not a JSON object, the table is as it
    was; the clock is not read.  Asking again gives the same answer and
    changes nothing more. *)
Theorem web_analyze_marks_the_request (i : Z) (w : world) :
  let answer := fst (ProxyManager.analyze_request i w) in
  let w' := snd (ProxyManager.analyze_request i w) in
  now w' = now w /\ calls w' = calls w /\ seq (db w') = seq (db w)
  /\ match answer with
     | Http200 a =>
         Forall2 (fun r r' =>
                    same_exchange r r'
                    /\ (id r = i -> analyzed r' = true)
                    /\ (id r <> i -> r' = r))
                 (rows (db w)) (rows (db w'))
     | _ => db w' = db w
     end
  /\ ProxyManager.analyze_request i w' = (answer, w').
Proof.
  cbv zeta.
  unfold ProxyManager.analyze_request, bind, db_read, db_write, ret.
  destruct (select_by_id i (db w)) as [r|] eqn:Hsel.
  - destruct (CopilotAgent.json_loads (headers r)) as [h|e] eqn:Hh;
      cbn [rbind].
    + destruct (CopilotAgent.as_dict h) as [d|e] eqn:Hd; cbn [rbind fst snd].
      * cbn [now calls db].
        split; [reflexivity|]. split; [reflexivity|]. split; [reflexivity|].
        split.
        -- cbn [rows update_analyzed].
           induction (rows (db w)) as [|x l IH]; cbn [map]; constructor;
             [|exact IH].
           destruct (id x =? i) eqn:E.
           ++ repeat split; apply Z.eqb_eq in E; tauto.
           ++ repeat split; apply Z.eqb_neq in E; tauto.
        -- rewrite select_update, Hsel. cbn [option_map].
           assert (Hid : (id r =? i) = true).
           { unfold select_by_id in Hsel. apply find_some in Hsel. tauto. }
           rewrite Hid. cbn [headers set_analyzed]. rewrite Hh. cbn [rbind].
           rewrite Hd. cbn [rbind db now calls]. rewrite update_twice.
           reflexivity.
      * repeat split. cbn [db]. rewrite Hsel, Hh. cbn [rbind]. rewrite Hd.
        reflexivity.
    + cbn [fst snd]. repeat split. rewrite Hsel, Hh. reflexivity.
  - cbn [fst snd]. repeat split. rewrite Hsel. reflexivity.
Qed.






(** X8.  [get_requests] lists the newest exchanges: at most 1000 of
    them, each with the nine columns of its row, the newest first; no
    exchange that is left out is newer than one that is listed.  The
    handler changes nothing. *)
Theorem get_requests_lists_the_newest
        (newest : list row -> list row) (w : world) :
  newest_first newest ->
  exists sel rest,
    ProxyManagerList.get_requests newest w
    = (Http200 (map ProxyManagerList.columns sel), w)
    /\ length sel = Nat.min 1000 (length (rows (db w)))
    /\ StronglySorted (fun a b => timestamp b <= timestamp a) sel
    /\ Permutation (rows (db w)) (sel ++ rest)
    /\ forall x y, In x sel -> In y rest -> timestamp y <= timestamp x.
Proof.
  intros Hnew.
  destruct (newest_rows newest 1000 (rows (db w)) Hnew)
    as (Hlen & Hs & _ & rest & Hp & Hr).
  exists (ProxyManagerList.listed_rows newest (db w)), rest.
  repeat split; assumption.
Qed.

Lemma get_requests_lists_the_newest_witness :
  exists sel rest,
    ProxyManagerList.get_requests
      along_index_desc
      Examples.crowded
    = (Http200 (map ProxyManagerList.columns sel),
       Examples.crowded)
    /\ length sel = 101%nat
    /\ Permutation (rows Scenario.crowded_table) (sel ++ rest).
Proof.
  destruct (get_requests_lists_the_newest
              along_index_desc
              Examples.crowded
              index_newest_first)
    as (sel & rest & Hget & Hlen & _ & Hperm & _).
  exists sel, rest. split; [exact Hget|]. split; [|exact Hperm].
  rewrite Hlen. vm_compute. reflexivity.
Defined.

(** X9.  [export_json] exports every stored row, once and unchanged,
    the newest first, and reports their number; it changes nothing. *)
Theorem export_json_exports_every_row
        (newest : list row -> list row) (w : world) :
  newest_first newest ->
  exists e,
    CopilotAPIQueries.export_json newest w = (Http200 e, w)
    /\ CopilotAPIQueries.export_count e = Z.of_nat (length (rows (db w)))
    /\ Permutation (CopilotAPIQueries.traffic e) (rows (db w))
    /\ StronglySorted (fun a b => timestamp b <= timestamp a)
                      (CopilotAPIQueries.traffic e).
Proof.
  intros Hnew. destruct (Hnew (rows (db w))) as [Hperm Hsorted].
  eexists. split; [reflexivity|].
  cbn [CopilotAPIQueries.export_count CopilotAPIQueries.traffic].
  split; [|split].
  - rewrite (Permutation_length Hperm). reflexivity.
  - exact Hperm.
  - exact Hsorted.
Qed.

Lemma export_json_exports_every_row_witness :
  exists e,
    CopilotAPIQueries.export_json
      (order_by_timestamp true)
      Examples.crowded
    = (Http200 e,
       Examples.crowded)
    /\ CopilotAPIQueries.export_count e = 101.
Proof.
  destruct (export_json_exports_every_row
              (order_by_timestamp true)
              Examples.crowded
              sort_newest_first)
    as (e & Hexp & Hcount & _).
  exists e. split; [exact Hexp|]. rewrite Hcount. vm_compute. reflexivity.
Defined.

End WebInterface.

(* ================================================================== *)
(** * The statistics and query endpoints *)

Section Queries.

Import Store.

Lemma filter_map_length {A B} (f : A -> B) (p : B -> bool) (l : list A) :
  length (filter p (map f l)) = length (filter (fun x => p (f x)) l).
Proof.
  induction l as [|x l IH]; simpl; [reflexivity|].
  destruct (p (f x)); simpl; rewrite IH; reflexivity.
Qed.

Lemma filter_length_pos {A} (p : A -> bool) (l : list A) :
  (0 < length (filter p l))%nat <-> exists x, In x l /\ p x = true.
Proof.
  induction l as [|x l IH]; simpl.
  - split; [lia | intros (x & [] & _)].
  - destruct (p x) eqn:E; simpl.
    + split; [intros _; exists x; auto | lia].
    + rewrite IH. split.
      * intros (y & Hy & Hp). exists y. auto.
      * intros (y & [-> | Hy] & Hp); [congruence | exists y; auto].
Qed.

Lemma tally_counts_rows {K} (eqb : K -> K -> bool) (f : row -> K)
      (l : list row) :
  (forall a b, eqb a b = true <-> a = b) ->
  Sql.counts_rows_by eqb f l (Sql.tally eqb (map f l)).
Proof.
  intros Hspec.
  destruct (tally_spec eqb Hspec (map f l)) as (Hd & Hin & Htot).
  split; [exact Hd|]. split.
  - intros k n. rewrite Hin, filter_map_length. split.
    + intros [Hk ->]. split; [|reflexivity].
      apply in_map_iff in Hk. destruct Hk as (r & <- & Hr).
      assert (0 < length (filter (fun x => eqb (f x) (f r)) l))%nat; [|lia].
      apply filter_length_pos. exists r. split; [exact Hr|]. now apply Hspec.
    + intros [Hpos ->]. split; [|reflexivity].
      assert (H : (0 < length (filter (fun x => eqb (f x) k) l))%nat) by lia.
      apply filter_length_pos in H. destruct H as (r & Hr & Hk).
      apply Hspec in Hk. subst k. apply in_map. exact Hr.
  - rewrite Htot, length_map. reflexivity.
Qed.

Lemma counts_rows_perm {K} (eqb : K -> K -> bool) (f : row -> K)
      (l : list row) (d d' : list (K * Z)) :
  Permutation d d' ->
  Sql.counts_rows_by eqb f l d -> Sql.counts_rows_by eqb f l d'.
Proof.
  intros Hp (Hd & Hin & Htot). split; [|split].
  - eapply Permutation_NoDup; [|exact Hd]. apply Permutation_map. exact Hp.
  - intros k n. rewrite <- Hin. split; apply Permutation_in;
      [symmetry|]; exact Hp.
  - rewrite <- Htot. symmetry. apply total_perm, Permutation_map. exact Hp.
Qed.

(** X10.  [query_hosts] and [query_methods] count every stored row
    once: each host (each method) of a stored row is listed once, with
    the number of the rows that have it, the counts add up to the number
    of the rows, and the list goes from the largest count down.  Neither
    handler changes anything. *)
Theorem query_hosts_and_methods_count_every_row
        (largest : list (Py.str * Z) -> list (Py.str * Z)) (w : world) :
  Sql.ordered_by (fun a b => snd b <= snd a) largest ->
  exists hosts methods,
    CopilotAPIQueries.query_hosts largest w = (Http200 hosts, w)
    /\ CopilotAPIQueries.query_methods largest w = (Http200 methods, w)
    /\ Sql.counts_rows_by Py.eqb host (rows (db w)) hosts
    /\ StronglySorted (fun a b => snd b <= snd a) hosts
    /\ Sql.counts_rows_by Py.eqb method (rows (db w)) methods
    /\ StronglySorted (fun a b => snd b <= snd a) methods.
Proof.
  intros Hord.
  exists (CopilotAPIQueries.hosts_of largest (db w)),
         (CopilotAPIQueries.methods_of largest (db w)).
  split; [reflexivity|]. split; [reflexivity|].
  unfold CopilotAPIQueries.hosts_of, CopilotAPIQueries.methods_of.
  split; [|split; [|split]]; try apply Hord;
    (eapply counts_rows_perm;
     [symmetry; apply Hord | apply tally_counts_rows, py_eqb_eq]).
Qed.

Lemma query_hosts_and_methods_count_every_row_witness :
  exists hosts methods,
    CopilotAPIQueries.query_hosts
      (Sql.order_by Sql.count_desc)
      Examples.crowded
    = (Http200 hosts,
       Examples.crowded)
    /\ CopilotAPIQueries.query_methods
         (Sql.order_by Sql.count_desc)
         Examples.crowded
       = (Http200 methods,
          Examples.crowded)
    /\ Sql.counts_rows_by Py.eqb host (rows Scenario.crowded_table) hosts
    /\ Sql.counts_rows_by Py.eqb method (rows Scenario.crowded_table) methods.
Proof.
  destruct (query_hosts_and_methods_count_every_row
              (Sql.order_by Sql.count_desc)
              Examples.crowded
              largest_first_sort)
    as (hosts & methods & Hh & Hm & Hch & _ & Hcm & _).
  exists hosts, methods.
  split; [exact Hh|]. split; [exact Hm|]. split; [exact Hch | exact Hcm].
Defined.

(** ** [performance_analysis] *)

Lemma fold_min (l : list Z) :
  forall x, let m := fold_left Z.min l x in
            m <= x /\ Forall (fun y => m <= y) l /\ (m = x \/ In m l).
Proof.
  induction l as [|y l IH]; intros x; cbn [fold_left].
  - cbn. repeat split; [lia | constructor | auto].
  - destruct (IH (Z.min x y)) as (H1 & H2 & H3). cbv zeta in *.
    repeat split; [lia | constructor; [lia | exact H2] |].
    destruct H3 as [H3 | H3]; [|right; right; exact H3].
    destruct (Z.min_spec x y) as [[_ E] | [_ E]]; rewrite H3, E; cbn [In]; auto.
Qed.

Lemma fold_max (l : list Z) :
  forall x, let m := fold_left Z.max l x in
            x <= m /\ Forall (fun y => y <= m) l /\ (m = x \/ In m l).
Proof.
  induction l as [|y l IH]; intros x; cbn [fold_left].
  - cbn. repeat split; [lia | constructor | auto].
  - destruct (IH (Z.max x y)) as (H1 & H2 & H3). cbv zeta in *.
    repeat split; [lia | constructor; [lia | exact H2] |].
    destruct H3 as [H3 | H3]; [|right; right; exact H3].
    destruct (Z.max_spec x y) as [[_ E] | [_ E]]; rewrite H3, E; cbn [In]; auto.
Qed.

Lemma min_spec (l : list Z) (m : Z) :
  Sql.min l = Some m -> Forall (fun y => m <= y) l /\ In m l.
Proof.
  destruct l as [|x l]; [discriminate|]. cbn [Sql.min]. intros H.
  inversion H; subst m; clear H.
  destruct (fold_min l x) as (H1 & H2 & H3). cbv zeta in *.
  split; [constructor; assumption|]. cbn [In]. intuition.
Qed.

Lemma max_spec (l : list Z) (m : Z) :
  Sql.max l = Some m -> Forall (fun y => y <= m) l /\ In m l.
Proof.
  destruct l as [|x l]; [discriminate|]. cbn [Sql.max]. intros H.
  inversion H; subst m; clear H.
  destruct (fold_max l x) as (H1 & H2 & H3). cbv zeta in *.
  split; [constructor; assumption|]. cbn [In]. intuition.
Qed.

Lemma ms_or_0_value (x : option Z) :
  CopilotAPIQueries.ms_or_0 x = match x with Some d => d * 1000 | None => 0 end.
Proof.
  destruct x as [d|]; [|reflexivity]. cbn.
  destruct (d =? 0) eqn:E; [|reflexivity]. apply Z.eqb_eq in E. lia.
Qed.

Lemma total_indicator (p : row -> bool) (l : list row) :
  Sql.total (map (fun r => if p r then 1 else 0) l)
  = Z.of_nat (length (filter p l)).
Proof.
  induction l as [|x l IH]; [reflexivity|]. cbn [map filter].
  rewrite total_cons, IH. destruct (p x); cbn [length]; lia.
Qed.

(** X11.  The metrics of [performance_analysis] fit the table.  The
    number of requests is the number of rows; on an empty table the
    three times are 0, the number of slow requests is null and no
    request is listed; otherwise the number of slow requests is the
    number of rows that took more than two seconds, every duration lies
    between the least and the greatest response time, and the list of
    the slowest requests holds the ten rows of the longest duration (all
    rows when there are fewer), the slowest first, so that its first
    entry took the greatest response time. *)
Theorem performance_analysis_metrics
        (slowest : list row -> list row) (w : world) :
  Sql.ordered_by (fun a b => duration b <= duration a) slowest ->
  exists p,
    CopilotAPIQueries.performance_analysis slowest w = (Http200 p, w)
    /\ let m := CopilotAPIQueries.perf_metrics p in
       let slowest := CopilotAPIQueries.slowest_requests p in
       CopilotAPIQueries.total_requests m = Z.of_nat (length (rows (db w)))
       /\ (rows (db w) = [] ->
           CopilotAPIQueries.slow_requests m = None
           /\ CopilotAPIQueries.min_response_time_ms m = 0
           /\ CopilotAPIQueries.max_response_time_ms m = 0
           /\ Sql.numer (CopilotAPIQueries.avg_response_time_ms m) = 0
           /\ slowest = [])
       /\ (rows (db w) <> [] ->
           CopilotAPIQueries.slow_requests m
           = Some (Z.of_nat (length (filter (fun r => duration r >? 2 * second)
                                            (rows (db w))))))
       /\ (forall r, In r (rows (db w)) ->
                     CopilotAPIQueries.min_response_time_ms m
                     <= duration r * 1000
                     <= CopilotAPIQueries.max_response_time_ms m)
       /\ length slowest = Nat.min 10 (length (rows (db w)))
       /\ StronglySorted
            (fun a b => CopilotAPIQueries.se_duration b
                        <= CopilotAPIQueries.se_duration a) slowest
       /\ (forall e, In e slowest ->
                     exists r, In r (rows (db w))
                               /\ CopilotAPIQueries.se_id e = id r
                               /\ CopilotAPIQueries.se_duration e = duration r)
       /\ (forall e, nth_error slowest 0 = Some e ->
                     CopilotAPIQueries.max_response_time_ms m
                     = CopilotAPIQueries.se_duration e * 1000).
Proof.
  intros Hord. eexists. split; [reflexivity|]. cbv zeta.
  cbn [CopilotAPIQueries.performance_of CopilotAPIQueries.perf_metrics
       CopilotAPIQueries.slowest_requests CopilotAPIQueries.total_requests
       CopilotAPIQueries.slow_requests CopilotAPIQueries.min_response_time_ms
       CopilotAPIQueries.max_response_time_ms
       CopilotAPIQueries.avg_response_time_ms].
  set (l := rows (db w)).
  set (sorted := slowest l).
  assert (Hperm : Permutation sorted l) by apply Hord.
  assert (Hsorted : StronglySorted (fun a b => duration b <= duration a) sorted)
    by apply Hord.
  assert (Hlim : limit 10 sorted = firstn 10 sorted) by reflexivity.
  rewrite Hlim, !ms_or_0_value.
  split; [reflexivity|]. split; [|split; [|split; [|split; [|split; [|split]]]]].
  - intros Hl. rewrite Hl in *.
    apply Permutation_sym, Permutation_nil in Hperm. rewrite Hperm.
    repeat split.
  - intros Hl. destruct l as [|x l'] eqn:El; [congruence|].
    cbn [map Sql.sum]. rewrite <- El.
    change (Sql.total ((if duration x >? 2 * second then 1 else 0)
                       :: map (fun r => if duration r >? 2 * second then 1 else 0) l'))
      with (Sql.total (map (fun r => if duration r >? 2 * second then 1 else 0)
                           (x :: l'))).
    rewrite <- El, total_indicator. reflexivity.
  - intros r Hr.
    destruct (Sql.min (map duration l)) as [lo|] eqn:Elo.
    + destruct (Sql.max (map duration l)) as [hi|] eqn:Ehi.
      * apply min_spec in Elo. apply max_spec in Ehi.
        destruct Elo as [Hlo _], Ehi as [Hhi _].
        rewrite Forall_forall in Hlo, Hhi.
        specialize (Hlo (duration r) (in_map duration _ _ Hr)).
        specialize (Hhi (duration r) (in_map duration _ _ Hr)). lia.
      * destruct l; [destruct Hr | discriminate].
    + destruct l; [destruct Hr | discriminate].
  - rewrite length_map, length_firstn.
    rewrite (Permutation_length Hperm). reflexivity.
  - apply sorted_map. cbn [CopilotAPIQueries.se_duration].
    apply sorted_firstn. exact Hsorted.
  - intros e He. apply in_map_iff in He. destruct He as (r & <- & Hr).
    exists r. split; [|split; reflexivity].
    apply (Permutation_in _ Hperm).
    rewrite <- (firstn_skipn 10 sorted). apply in_or_app. left. exact Hr.
  - intros e He.
    destruct sorted as [|s rest] eqn:Es; [discriminate|].
    cbn in He. inversion He; subst e; clear He.
    cbn [CopilotAPIQueries.se_duration].
    assert (Hs : In s l) by (apply (Permutation_in _ Hperm); left; reflexivity).
    destruct (Sql.max (map duration l)) as [hi|] eqn:Ehi.
    + apply max_spec in Ehi. destruct Ehi as [Hhi Hin].
      rewrite Forall_forall in Hhi.
      specialize (Hhi (duration s) (in_map duration _ _ Hs)).
      apply in_map_iff in Hin. destruct Hin as (r & Hr & Hrin).
      apply (Permutation_in _ (Permutation_sym Hperm)) in Hrin.
      inversion Hsorted as [|? ? _ Hall]; subst.
      destruct Hrin as [-> | Hrin]; [lia|].
      rewrite Forall_forall in Hall. specialize (Hall r Hrin). lia.
    + destruct l; [destruct Hs | discriminate].
Qed.

Lemma performance_analysis_metrics_witness :
  exists p,
    CopilotAPIQueries.performance_analysis
      (Sql.order_by Sql.duration_desc)
      Examples.crowded
    = (Http200 p,
       Examples.crowded)
    /\ CopilotAPIQueries.total_requests (CopilotAPIQueries.perf_metrics p)
       = 101
    /\ length (CopilotAPIQueries.slowest_requests p) = 10%nat.
Proof.
  destruct (performance_analysis_metrics
              (Sql.order_by Sql.duration_desc)
              Examples.crowded
              slowest_first_sort)
    as (p & Hp & Htotal & _ & _ & _ & Hlen & _).
  exists p. split; [exact Hp|]. split.
  - rewrite Htotal. vm_compute. reflexivity.
  - rewrite Hlen. vm_compute. reflexivity.
Defined.

End Queries.

Section QueryFilters.

Import Store.





End QueryFilters.

(* ================================================================== *)
(** * The session analysis *)

Section Session.

Import Store CopilotAgentReport.

(** The loop of [analyze_session], counter by counter. *)
Lemma count_rows_fold (l : list row) :
  forall c,
    let c' := fold_left count_row l c in
    methods c'
    = fold_left (fun d k => Sql.bump Py.eqb k d) (map method l) (methods c)
    /\ hosts c'
       = fold_left (fun d k => Sql.bump Py.eqb k d) (map host l) (hosts c)
    /\ status_codes c'
       = fold_left (fun d k => Sql.bump Z.eqb k d)
                   (flat_map (fun r => match response_status r with
                                       | Some st => if st =? 0 then [] else [st]
                                       | None => []
                                       end) l)
                   (status_codes c)
    /\ total_duration c' = total_duration c + Sql.total (map duration l)
    /\ security_issues c'
       = security_issues c
         + Z.of_nat (length (filter (fun r => Py.eqb (protocol r) (Py.lit "http")) l)).
Proof.
  induction l as [|r l IH]; intros c; cbn [fold_left map flat_map filter].
  - cbn. repeat split; try reflexivity; unfold Sql.total; cbn; lia.
  - destruct (IH (count_row c r)) as (H1 & H2 & H3 & H4 & H5). cbv zeta in *.
    rewrite H1, H2, H3, H4, H5. clear IH H1 H2 H3 H4 H5.
    cbn [count_row methods hosts status_codes total_duration security_issues].
    rewrite total_cons.
    split; [reflexivity|]. split; [reflexivity|]. split; [|split].
    + destruct (response_status r) as [st|]; [|reflexivity].
      destruct (st =? 0); reflexivity.
    + lia.
    + destruct (Py.eqb (protocol r) (Py.lit "http")); cbn [length]; lia.
Qed.

Lemma status_count (st : Z) (l : list row) :
  st <> 0 ->
  length (filter (fun x => x =? st)
                 (flat_map (fun r => match response_status r with
                                     | Some st => if st =? 0 then [] else [st]
                                     | None => []
                                     end) l))
  = length (filter (fun r => match response_status r with
                             | Some x => x =? st
                             | None => false
                             end) l).
Proof.
  intros Hst. induction l as [|r l IH]; [reflexivity|].
  cbn [flat_map filter]. rewrite filter_app, length_app, IH.
  destruct (response_status r) as [x|]; [|reflexivity].
  destruct (x =? 0) eqn:E0.
  - apply Z.eqb_eq in E0. subst x.
    assert (E : (0 =? st) = false) by (apply Z.eqb_neq; lia).
    rewrite E. reflexivity.
  - cbn [filter]. destruct (x =? st); reflexivity.
Qed.

Lemma status_in (st : Z) (l : list row) :
  In st (flat_map (fun r => match response_status r with
                            | Some st => if st =? 0 then [] else [st]
                            | None => []
                            end) l)
  <-> st <> 0 /\ exists r, In r l /\ response_status r = Some st.
Proof.
  rewrite in_flat_map. split.
  - intros (r & Hr & Hin). destruct (response_status r) as [x|] eqn:E;
      [|destruct Hin].
    destruct (x =? 0) eqn:E0; [destruct Hin|].
    destruct Hin as [<- | []]. apply Z.eqb_neq in E0. eauto.
  - intros (Hst & r & Hr & E). exists r. split; [exact Hr|]. rewrite E.
    apply Z.eqb_neq in Hst. rewrite Hst. left. reflexivity.
Qed.

Lemma in_session_recommendations (c1 c2 c3 : bool) (h f n s : Z)
      (x : session_recommendation) :
  In x (CopilotAgent.append_if c3 (SlowRequests s)
          (CopilotAgent.append_if c2 (HighFailureRate f n)
             (CopilotAgent.append_if c1 (InsecureRequests h) [])))
  <-> (c1 = true /\ x = InsecureRequests h)
      \/ (c2 = true /\ x = HighFailureRate f n)
      \/ (c3 = true /\ x = SlowRequests s).
Proof. rewrite !in_append_if. cbn [In]. tauto. Qed.

(** X13.  [analyze_session] counts the selected rows, the newest up to
    the limit (all rows under a negative limit).  It reports that there is no traffic exactly when no row
    is selected.  Otherwise the total is the number of the selected
    rows; every method is counted with the rows that have it; the status
    codes are counted likewise, leaving out the rows whose status is
    missing or 0; the number of unique hosts is the number of different
    hosts, and the top hosts are the ten of the largest counts (all when
    there are fewer), the largest first; the number of security issues
    is the number of requests over plain http, and it is the number that
    the recommendation about insecure requests prints; the average time
    is the sum of the durations over the total.  The recommendation
    about slow requests appears exactly when a request took more than
    two seconds, the one about failures exactly when more than a tenth
    of the requests have a status of 400 or more. *)
Theorem analyze_session_counts (newest : list row -> list row)
        (t : table) (limit_ : Z) :
  newest_first newest ->
  - 2 ^ 63 <= limit_ < 2 ^ 63 ->
  let sel := limit limit_ (newest (rows t)) in
  let count p := Z.of_nat (length (filter p sel)) in
  (length sel
   = if limit_ <? 0 then length (rows t)
     else Nat.min (Z.to_nat limit_) (length (rows t)))
  /\ (exists rest,
         Permutation (rows t) (sel ++ rest)
         /\ forall x y, In x sel -> In y rest -> timestamp y <= timestamp x)
  /\
  match analyze_session newest t limit_ with
  | NoTraffic => sel = []
  | Analyzed s =>
      total_requests s = Z.of_nat (length sel) /\ 0 < total_requests s
      /\ Sql.counts_rows_by Py.eqb method sel (session_methods s)
      /\ NoDup (map fst (session_status_codes s))
      /\ (forall st n,
             In (st, n) (session_status_codes s)
             <-> st <> 0 /\ 0 < n
                 /\ n = count (fun r => match response_status r with
                                        | Some x => x =? st
                                        | None => false
                                        end))
      /\ (exists hosts,
             Sql.counts_rows_by Py.eqb host sel hosts
             /\ unique_hosts s = Z.of_nat (length hosts)
             /\ length (top_hosts s) = Nat.min 10 (length hosts)
             /\ StronglySorted (fun a b => snd b <= snd a) (top_hosts s)
             /\ (forall x, In x (top_hosts s) -> In x hosts)
             /\ (forall x y, In x (top_hosts s) -> In y hosts ->
                             ~ In y (top_hosts s) -> snd y <= snd x))
      /\ security_issues_found s
         = count (fun r => Py.eqb (protocol r) (Py.lit "http"))
      /\ avg_response_time_ms s
         = {| Sql.numer := Sql.total (map duration sel) * 1000;
              Sql.denom := total_requests s |}
      /\ (forall x,
             In x (session_recommendations s)
             <-> (x = InsecureRequests (security_issues_found s)
                  /\ 0 < security_issues_found s)
                 \/ (x = HighFailureRate (count failed) (total_requests s)
                     /\ total_requests s < 10 * count failed)
                 \/ (x = SlowRequests (count (fun r => duration r >? 2 * second))
                     /\ 0 < count (fun r => duration r >? 2 * second)))
  end.
Proof.
  intros Hnew _. cbv zeta.
  destruct (newest_rows newest limit_ (rows t) Hnew)
    as (Hsel_len & _ & _ & Hsel_rest).
  split; [exact Hsel_len|]. split; [exact Hsel_rest|].
  clear Hsel_len Hsel_rest.
  unfold analyze_session.
  set (sel := limit limit_ (newest (rows t))).
  destruct sel as [|r0 sel'] eqn:Esel; [reflexivity|].
  rewrite <- Esel.
  assert (Hlen : 0 < Z.of_nat (length sel)) by (rewrite Esel; cbn [length]; lia).
  destruct (count_rows_fold sel no_counts) as (Hm & Hh & Hs & Hd & Hi).
  cbv zeta in *. cbn [no_counts methods hosts status_codes total_duration
                      security_issues] in Hm, Hh, Hs, Hd, Hi.
  cbn [total_requests avg_response_time_ms unique_hosts security_issues_found
       session_methods session_status_codes top_hosts session_recommendations].
  rewrite Hm, Hh, Hs, Hd, Hi. clear Hm Hh Hs Hd Hi.
  split; [reflexivity|]. split; [exact Hlen|].
  split; [apply tally_counts_rows, py_eqb_eq|].
  destruct (tally_spec Z.eqb Z.eqb_eq
              (flat_map (fun r => match response_status r with
                                  | Some st => if st =? 0 then [] else [st]
                                  | None => []
                                  end) sel)) as (Hnd & Hin & _).
  split; [exact Hnd|]. split.
  { intros st n. unfold Sql.tally in Hin. rewrite Hin, status_in.
    set (p := fun r1 : row => match response_status r1 with
                              | Some x => x =? st
                              | None => false
                              end).
    split.
    - intros [[Hst (r & Hr & E)] ->]. rewrite (status_count st sel Hst).
      fold p. split; [exact Hst|]. split; [|reflexivity].
      assert (0 < length (filter p sel))%nat; [|lia].
      apply filter_length_pos. exists r. split; [exact Hr|].
      unfold p. rewrite E. apply Z.eqb_refl.
    - intros (Hst & Hpos & ->). rewrite (status_count st sel Hst). fold p.
      split; [|reflexivity]. split; [exact Hst|].
      assert (H : (0 < length (filter p sel))%nat) by lia.
      apply filter_length_pos in H. destruct H as (r & Hr & E).
      exists r. split; [exact Hr|]. unfold p in E.
      destruct (response_status r) as [x|]; [|discriminate].
      apply Z.eqb_eq in E. congruence. }
  split.
  { set (hs := fold_left (fun d k => Sql.bump Py.eqb k d) (map host sel) []).
    assert (Hc : Sql.counts_rows_by Py.eqb host sel hs)
      by (apply (tally_counts_rows Py.eqb host sel), py_eqb_eq).
    pose proof (order_by_perm Sql.count_desc hs) as Hperm.
    pose proof (proj2 (largest_first_sort hs)) as Hsorted.
    exists hs. split; [exact Hc|]. split; [reflexivity|].
    split; [|split; [|split]].
    - rewrite length_firstn, (Permutation_length Hperm). reflexivity.
    - apply sorted_firstn. exact Hsorted.
    - intros x Hx. apply (Permutation_in _ Hperm).
      rewrite <- (firstn_skipn 10 (Sql.order_by Sql.count_desc hs)).
      apply in_or_app. left. exact Hx.
    - intros x y Hx Hy Hny.
      apply (Permutation_in _ (Permutation_sym Hperm)) in Hy.
      rewrite <- (firstn_skipn 10 (Sql.order_by Sql.count_desc hs)) in Hy.
      apply in_app_or in Hy. destruct Hy as [Hy | Hy]; [contradiction|].
      exact (sorted_split _ _ 10 Hsorted x y Hx Hy). }
  split; [lia|]. split.
  { destruct (Z.of_nat (length sel) >? 0) eqn:E; [|lia].
    reflexivity. }
  intros x. unfold _generate_session_recommendations, count.
  rewrite in_session_recommendations.
  rewrite !Z.gtb_lt, ?Z.add_0_l. tauto.
Qed.

Lemma analyze_session_counts_witness :
  exists s,
    analyze_session along_index_desc Scenario.crowded_table 100 = Analyzed s
    /\ total_requests s = 100
    /\ security_issues_found s = 100
    /\ In (InsecureRequests 100) (session_recommendations s).
Proof.
  pose proof (analyze_session_counts
                along_index_desc Scenario.crowded_table 100
                index_newest_first ltac:(lia)) as H.
  cbv zeta in H. destruct H as (Hlen & _ & H).
  destruct (analyze_session along_index_desc Scenario.crowded_table 100)
    as [|s] eqn:E.
  - exfalso. rewrite H in Hlen. vm_compute in Hlen. discriminate Hlen.
  - exists s. split; [reflexivity|].
    destruct H as (Htotal & _ & _ & _ & _ & _ & Hsec & _ & Hrec).
    assert (Hn : security_issues_found s = 100).
    { rewrite Hsec. vm_compute. reflexivity. }
    split; [|split; [exact Hn|]].
    + rewrite Htotal, Hlen. vm_compute. reflexivity.
    + apply Hrec. left. rewrite Hn. split; [reflexivity | lia].
Defined.

End Session.

(* ================================================================== *)
(** * The findings, the score and the summary *)

Section Findings.

Import Store CopilotAgent.

(** A chain of conditional appends is the list of the messages whose
    condition holds. *)
Lemma append_if_filter {A} (b : bool) (m : A) (l : list (bool * A)) :
  append_if b m (map snd (filter fst l))
  = map snd (filter fst (l ++ [(b, m)])).
Proof.
  rewrite filter_app, map_app. cbn [filter fst].
  unfold append_if. destruct b; cbn [map snd]; [reflexivity|].
  rewrite app_nil_r. reflexivity.
Qed.

Lemma chosen_nodup {A} (l : list (bool * A)) :
  NoDup (map snd l) -> NoDup (map snd (filter fst l)).
Proof.
  induction l as [|[b m] l IH]; cbn [map snd filter fst]; intros H;
    [constructor|].
  apply NoDup_cons_iff in H. destruct H as [Hn Hd].
  destruct b; cbn [map snd]; [|exact (IH Hd)].
  constructor; [|exact (IH Hd)].
  intros Hin. apply Hn. apply in_map_iff in Hin.
  destruct Hin as ([b' m'] & Hm & Hin). apply filter_In in Hin.
  cbn [snd] in Hm. subst m'. destruct Hin as [Hin _].
  apply (in_map snd) in Hin. exact Hin.
Qed.

Lemma chosen_length {A} (l : list (bool * A)) :
  (length (map snd (filter fst l)) <= length l)%nat.
Proof. rewrite length_map. apply filter_length_le. Qed.

Lemma chosen_in {A} (l : list (bool * A)) (m : A) :
  NoDup (map snd l) ->
  (In m (map snd (filter fst l)) <-> In (true, m) l).
Proof.
  intros Hd. rewrite in_map_iff. split.
  - intros ([b m'] & Hm & Hin). apply filter_In in Hin.
    cbn [fst snd] in *. destruct Hin as [Hin Hb]. subst. exact Hin.
  - intros Hin. exists (true, m). split; [reflexivity|].
    apply filter_In. auto.
Qed.

Lemma chain_chosen {A} (m1 m2 m3 m4 m5 m6 m7 m8 : A)
      (b1 b2 b3 b4 b5 b6 b7 b8 : bool) :
  append_if b8 m8
    (append_if b7 m7
       (append_if b6 m6
          (append_if b5 m5
             (append_if b4 m4
                (append_if b3 m3
                   (append_if b2 m2 (append_if b1 m1 [])))))))
  = map snd (filter fst [(b1, m1); (b2, m2); (b3, m3); (b4, m4);
                         (b5, m5); (b6, m6); (b7, m7); (b8, m8)]).
Proof.
  destruct b1, b2, b3, b4, b5, b6, b7, b8; reflexivity.
Qed.

(** The findings of [_check_security] as the choice among its eight
    messages; the finding about basic authentication needs a header
    whose name is authorization in some casing. *)
Lemma check_security_chosen (req : row) (h rh : Json.value)
      (issues : list Py.str) :
  _check_security req h rh = Ok issues ->
  exists hd b1 b2 b3 b4 b5 b6 b7 b8,
    h = Json.Obj hd
    /\ issues
       = map snd (filter fst
           [(b1, msg_sensitive_url); (b2, msg_missing_hsts);
            (b3, msg_missing_xcto); (b4, msg_missing_xfo);
            (b5, msg_insecure_http); (b6, msg_basic_auth);
            (b7, msg_sql); (b8, msg_xss)])
    /\ (b6 = true ->
        Py.mem (Py.lit "authorization") (map Py.lower (Json.keys hd)) = true).
Proof.
  unfold _check_security. intros H.
  apply rbind_ok in H; destruct H as [rhd [_ H]].
  apply rbind_ok in H; destruct H as [hd [Hh H]].
  apply rbind_ok in H; destruct H as [is1 [Hauth H]].
  inversion H; subst issues; clear H.
  assert (Eh : h = Json.Obj hd).
  { destruct h; try discriminate Hh. inversion Hh. reflexivity. }
  exists hd. cbv beta zeta in Hauth.
  destruct (Py.mem (Py.lit "authorization") (map Py.lower (Json.keys hd))) eqn:Em.
  - apply rbind_ok in Hauth; destruct Hauth as [basic [_ Hauth]].
    inversion Hauth; subst is1; clear Hauth.
    do 8 eexists. split; [exact Eh|]. split; [apply chain_chosen|]. reflexivity.
  - inversion Hauth; subst is1; clear Hauth.
    match goal with
    | |- context [append_if ?x8 msg_xss (append_if ?x7 msg_sql ?rest)] =>
        change rest with (append_if false msg_basic_auth rest)
    end.
    do 5 eexists. exists false. do 2 eexists.
    split; [exact Eh|]. split; [apply chain_chosen | discriminate].
Qed.

Lemma check_security_bounds (req : row) (h rh : Json.value)
      (issues : list Py.str) :
  _check_security req h rh = Ok issues ->
  (length issues <= 8)%nat /\ NoDup issues.
Proof.
  intros H. apply check_security_chosen in H.
  destruct H as (hd & b1 & b2 & b3 & b4 & b5 & b6 & b7 & b8 & _ & -> & _).
  split.
  - etransitivity; [apply chosen_length | cbn [length]; lia].
  - apply chosen_nodup. exact messages_distinct.
Qed.

(** X14.  The score is never clamped.  [_check_security] makes at most
    eight findings, each at most once, so the score of an analysis is
    100 minus 10 for each finding and lies between 20 and 100; the floor
    at 0 is never reached. *)
Theorem security_score_range (t : table) (request_id : Z)
        (a : RequestAnalysis) :
  analyze_request t request_id = Ok a ->
  (length (vulnerabilities a) <= 8)%nat
  /\ NoDup (vulnerabilities a)
  /\ security_score a = 100 - 10 * Z.of_nat (length (vulnerabilities a))
  /\ 20 <= security_score a <= 100.
Proof.
  intros H.
  destruct (analyze_request_inv _ _ _ H)
    as (req & h & rh & issues & _ & _ & _ & Hc & Hv & Hs).
  destruct (check_security_bounds _ _ _ _ Hc) as [Hlen Hd].
  rewrite Hv, Hs. repeat split; try assumption; lia.
Qed.

Lemma security_score_range_witness :
  exists a,
    analyze_request Scenario.login_table 1 = Ok a
    /\ security_score a = 100 - 10 * Z.of_nat (length (vulnerabilities a))
    /\ 20 <= security_score a <= 100.
Proof.
  eexists. split; [vm_compute; reflexivity|].
  refine (proj2 (proj2 (security_score_range Scenario.login_table 1 _ _))).
  vm_compute. reflexivity.
Defined.

(** X15.  A response over the size limit is never reported as large.
    The proxy hook stores a response of 1 MiB or more as the short
    placeholder, so [_check_performance] on the stored row recommends
    nothing about its size; whenever it does report a large response for
    a row of the hook, the response had fewer than 1 MiB bytes and the
    number it prints is the length of the decoded body, above
    1000000. *)
Theorem over_cap_response_is_not_reported_large (flow : HTTPFlow) (w : world) :
  Z.of_nat (length (response_bytes flow)) < 2 ^ 63 ->
  exists r,
    rows (db (snd (ProxyServer.response flow w))) = rows (db w) ++ [r]
    /\ (MiB <= Z.of_nat (length (response_bytes flow)) ->
        forall n, ~ In (LargeResponse n) (_check_performance r))
    /\ (forall n, In (LargeResponse n) (_check_performance r) ->
                  Z.of_nat (length (response_bytes flow)) < MiB
                  /\ n = Z.of_nat (length (Py.decode_ignore (response_bytes flow)))
                  /\ 1000000 < n < MiB).
Proof.
  intros Hsize. rewrite proxy_response_run.
  eexists. split; [reflexivity|].
  assert (Hlarge : forall r n,
             In (LargeResponse n) (_check_performance r) ->
             n = Z.of_nat (length (response_body r)) /\ 1000000 < n).
  { intros r n. unfold _check_performance. rewrite in_append_if.
    intros [Hin | [Hc Hn]].
    - destruct (duration r >? 5 * second); [|destruct (duration r >? 2 * second)];
        cbn [app In] in Hin; intuition discriminate.
    - inversion Hn; subst n. split; [reflexivity|].
      apply Z.gtb_lt in Hc. exact Hc. }
  set (r := mk_row _ _).
  assert (Hbody : response_body r
                  = if Z.of_nat (length (response_bytes flow)) <? MiB
                    then Py.decode_ignore (response_bytes flow)
                    else ProxyServer.too_large
                           (Z.of_nat (length (response_bytes flow)))).
  { subst r. cbn [response_body mk_row v_response_body].
    apply response_body_cases. }
  set (len := Z.of_nat (length (response_bytes flow))) in *.
  assert (Hshort : MiB <= len -> Z.of_nat (length (response_body r)) <= 92).
  { intros Hge. rewrite Hbody.
    destruct (len <? MiB) eqn:E; [apply Z.ltb_lt in E; lia|].
    unfold ProxyServer.too_large. rewrite !length_app.
    pose proof (str_of_nat_length len (conj (Nat2Z.is_nonneg _) Hsize)) as Hd.
    change (length (Py.lit "[Response too large: ")) with 21%nat.
    change (length (Py.lit " bytes]")) with 7%nat. lia. }
  split.
  - intros Hge n Hin. destruct (Hlarge r n Hin) as [-> Hn].
    specialize (Hshort Hge). lia.
  - intros n Hin. destruct (Hlarge r n Hin) as [-> Hn].
    destruct (len <? MiB) eqn:E.
    + apply Z.ltb_lt in E. rewrite Hbody. split; [exact E|].
      split; [reflexivity|]. rewrite Hbody in Hn. split; [exact Hn|].
      pose proof (decode_ignore_length (response_bytes flow)). lia.
    + apply Z.ltb_ge in E. specialize (Hshort E). lia.
Qed.

Lemma over_cap_response_is_not_reported_large_witness :
  exists r,
    rows (db (snd (ProxyServer.response Scenario.hardened_flow
                                        (Scenario.fresh Scenario.ticking))))
    = rows (db (Scenario.fresh Scenario.ticking)) ++ [r]
    /\ forall n, In (LargeResponse n) (_check_performance r) -> 1000000 < n < MiB.
Proof.
  destruct (over_cap_response_is_not_reported_large
              Scenario.hardened_flow (Scenario.fresh Scenario.ticking))
    as (r & Hrows & _ & Hlarge).
  - vm_compute. reflexivity.
  - exists r. split; [exact Hrows|].
    intros n Hn. exact (proj2 (proj2 (Hlarge n Hn))).
Defined.

End Findings.

Section Report.

Import Store CopilotAgent.

Lemma mem_lower_authorization (keys : list Py.str) :
  Py.mem (Py.lit "authorization") (map Py.lower keys) = true ->
  existsb (fun h => Py.contains (Py.lit "auth") (Py.lower h)) keys = true.
Proof.
  unfold Py.mem. rewrite !existsb_exists.
  intros (k' & Hin & Heq). apply in_map_iff in Hin.
  destruct Hin as (k & <- & Hk). exists k. split; [exact Hk|].
  apply py_eqb_eq in Heq. rewrite <- Heq. vm_compute. reflexivity.
Qed.

(** X16.  The summary and the insights say what the analysis found.
    [analyze_request] with its summary and insights returns exactly when
    the analysis without them does, with the same score, findings and
    recommendations, and fails with the same exception otherwise.  The
    summary says that no security issue was detected exactly when the
    score is 100, and otherwise names a number of issues n, between 1
    and 8, with the score 100 - 10 n; it names suggestions exactly when
    there are recommendations; it leaves the status out exactly when
    the status is missing or 0, and calls a status a server error only
    when it is below 200 or at least 500.  The insights report an
    authorization header whenever basic authentication was found. *)
Theorem report_agrees_with_analysis (t : table) (request_id : Z) :
  match CopilotAgentReport.analyze_request t request_id with
  | Ok rep =>
      let a := CopilotAgentReport.analysis rep in
      let s := CopilotAgentReport.summary_text rep in
      let i := CopilotAgentReport.insights_of rep in
      analyze_request t request_id = Ok a
      /\ (CopilotAgentReport.sum_found s = None <-> security_score a = 100)
      /\ (forall n, CopilotAgentReport.sum_found s = Some n ->
                    security_score a = 100 - 10 * n /\ 1 <= n <= 8)
      /\ (CopilotAgentReport.sum_suggestions s = None
          <-> recommendations a = [])
      /\ (CopilotAgentReport.sum_status s = None
          <-> CopilotAgentReport.in_status_code i = None
              \/ CopilotAgentReport.in_status_code i = Some 0)
      /\ (forall st,
             CopilotAgentReport.sum_status s
             = Some (CopilotAgentReport.ServerError st) ->
             st < 200 \/ 500 <= st)
      /\ CopilotAgentReport.sum_duration_ms s
         = CopilotAgentReport.in_duration_ms i
      /\ (In msg_basic_auth (vulnerabilities a) ->
          CopilotAgentReport.in_has_auth i = true)
  | Raise e => analyze_request t request_id = Raise e
  end.
Proof.
  unfold CopilotAgentReport.analyze_request, analyze_request.
  destruct (select_by_id request_id t) as [req|]; [|reflexivity].
  destruct (json_loads (headers req)) as [h|e]; [|reflexivity].
  destruct (json_loads (response_headers req)) as [rh|e]; [|reflexivity].
  cbn [rbind].
  destruct (_check_security req h rh) as [issues|e] eqn:Hc; [|reflexivity].
  cbn [rbind].
  destruct (_check_best_practices req h rh) as [bp|e]; [|reflexivity].
  cbn [rbind].
  destruct (check_security_bounds _ _ _ _ Hc) as [Hlen Hnd].
  destruct (check_security_chosen _ _ _ _ Hc)
    as (hd & b1 & b2 & b3 & b4 & b5 & b6 & b7 & b8 & -> & Hissues & Hauth).
  cbn [as_dict rbind]. cbv zeta.
  cbn [CopilotAgentReport.analysis CopilotAgentReport.summary_text
       CopilotAgentReport.insights_of CopilotAgentReport._generate_summary
       CopilotAgentReport.sum_found CopilotAgentReport.sum_suggestions
       CopilotAgentReport.sum_status CopilotAgentReport.sum_duration_ms
       CopilotAgentReport.in_status_code CopilotAgentReport.in_duration_ms
       CopilotAgentReport.in_has_auth
       security_score vulnerabilities recommendations app].
  split; [reflexivity|].
  split; [|split; [|split; [|split; [|split; [|split]]]]].
  - destruct issues as [|x issues]; cbn [length] in *; split; intros H;
      try reflexivity; try discriminate; lia.
  - intros n Hn. destruct issues as [|x issues]; [discriminate|].
    inversion Hn; subst n. cbn [length] in *. lia.
  - destruct (_check_performance req ++ bp); split; intros H;
      try reflexivity; discriminate.
  - destruct (response_status req) as [st|].
    + destruct (st =? 0) eqn:E0.
      * apply Z.eqb_eq in E0. subst st. split; auto.
      * apply Z.eqb_neq in E0.
        destruct ((200 <=? st) && (st <? 300));
          [|destruct ((300 <=? st) && (st <? 400));
            [|destruct ((400 <=? st) && (st <? 500))]];
          (split; [discriminate | intros [H | H]; [discriminate | congruence]]).
    + split; auto.
  - intros st. destruct (response_status req) as [x|]; [|discriminate].
    destruct (x =? 0); [discriminate|].
    destruct ((200 <=? x) && (x <? 300)) eqn:E2; [discriminate|].
    destruct ((300 <=? x) && (x <? 400)) eqn:E3; [discriminate|].
    destruct ((400 <=? x) && (x <? 500)) eqn:E4; [discriminate|].
    intros H. inversion H; subst x.
    apply andb_false_iff in E2, E3, E4.
    rewrite !Z.leb_gt, !Z.ltb_ge in *. lia.
  - reflexivity.
  - intros Hin. apply mem_lower_authorization, Hauth.
    rewrite Hissues in Hin.
    apply chosen_in in Hin; [|exact messages_distinct].
    cbn [In] in Hin.
    repeat match goal with
           | H : _ \/ _ |- _ => destruct H as [H | H]
           end;
      try contradiction;
      first [ injection Hin as Hb; exact Hb
            | injection Hin as Hb Hm; vm_compute in Hm; discriminate Hm ].
Qed.

End Report.

(* ================================================================== *)
(** * The search of the CLI *)

Section Commands.

Import Store TrafficAnalyzerCommands.

(** X17.  Every statement of the CLI has one placeholder for each of
    its parameters.  The clause of [_host_clause_and_params] is empty
    when there is no filter, and otherwise is WHERE followed by one
    condition on the host for each parameter, joined by AND; the clause
    of [search], which cuts the WHERE off the clause of the host filter,
    is the one WHERE, the three conditions on the text and the
    conditions on the host.  A host that is absent or empty adds no
    condition. *)
Theorem statements_bind_every_placeholder (only_zybooks : bool)
        (host : option Py.str) (query : Py.str) :
  let marks (s : Py.str) := length (filter (fun c => c =? 63) s) in
  let clause := fst (_host_clause_and_params only_zybooks host) in
  let params := snd (_host_clause_and_params only_zybooks host) in
  let full_clause := fst (search_statement only_zybooks query) in
  let full_params := snd (search_statement only_zybooks query) in
  marks clause = length params
  /\ clause
     = match params with
       | [] => []
       | _ :: _ =>
           Py.lit "WHERE "
           ++ join (Py.lit " AND ") (map (fun _ => Py.lit "host LIKE ?") params)
       end
  /\ params
     = match given host with
       | Some h => [Sql.anywhere h]
       | None => []
       end ++ (if only_zybooks then [Py.lit "%zybooks%"] else [])
  /\ marks full_clause = length full_params
  /\ full_clause
     = Py.lit "WHERE (url LIKE ? OR body LIKE ? OR response_body LIKE ? )"
       ++ (if only_zybooks then Py.lit " AND host LIKE ?" else [])
  /\ full_params
     = [Sql.anywhere query; Sql.anywhere query; Sql.anywhere query]
       ++ (if only_zybooks then [Py.lit "%zybooks%"] else []).
Proof.
  cbv zeta. unfold search_statement, _host_clause_and_params.
  destruct (given host) as [h|]; destruct only_zybooks;
    (split; [vm_compute; reflexivity|]);
    (split; [vm_compute; reflexivity|]);
    (split; [vm_compute; reflexivity|]);
    (split; [vm_compute; reflexivity|]);
    (split; vm_compute; reflexivity).
Qed.

Lemma where_host_zybooks (only_zybooks : bool) (r : row) :
  where_host (snd (_host_clause_and_params only_zybooks None)) r
  = TrafficAnalyzerCLI.host_filter only_zybooks r.
Proof.
  destruct only_zybooks; [|reflexivity].
  change (where_host (snd (_host_clause_and_params true None)) r)
    with (Sql.like (Py.lit "%zybooks%") (host r) && true).
  rewrite andb_true_r. apply like_zybooks.
Qed.

Lemma search_statement_params (only_zybooks : bool) (query : Py.str) :
  snd (search_statement only_zybooks query)
  = [Sql.anywhere query; Sql.anywhere query; Sql.anywhere query]
    ++ snd (_host_clause_and_params only_zybooks None).
Proof. destruct only_zybooks; reflexivity. Qed.

Lemma search_where_columns (only_zybooks : bool) (query : Py.str) (r : row) :
  search_where (snd (search_statement only_zybooks query)) r
  = (Sql.like (Sql.anywhere query) (url r)
     || Sql.like (Sql.anywhere query) (body r)
     || Sql.like (Sql.anywhere query) (response_body r))
    && TrafficAnalyzerCLI.host_filter only_zybooks r.
Proof.
  rewrite search_statement_params. cbn [app search_where].
  rewrite where_host_zybooks. reflexivity.
Qed.

Lemma search_rows_selects (newest : list row -> list row)
      (only_zybooks : bool) (query : Py.str) (t : table) :
  search_rows newest only_zybooks query t
  = limit 50 (newest (filter (fun r =>
                                (Sql.like (Sql.anywhere query) (url r)
                                 || Sql.like (Sql.anywhere query) (body r)
                                 || Sql.like (Sql.anywhere query)
                                             (response_body r))
                                && TrafficAnalyzerCLI.host_filter only_zybooks r)
                             (rows t))).
Proof.
  unfold search_rows.
  destruct (search_statement only_zybooks query) as [clause params] eqn:Es.
  assert (Hp : params = snd (search_statement only_zybooks query))
    by (rewrite Es; reflexivity).
  f_equal. f_equal. apply filter_ext. intros r. rewrite Hp.
  apply search_where_columns.
Qed.



(** X19.  [search] does not escape the wildcards of LIKE.  The empty
    query and the query that is a percent sign select every row that
    passes the host filter, whatever its URL and bodies are: the search
    then returns the 50 newest of these rows. *)
Theorem search_does_not_escape_wildcards (newest : list row -> list row)
        (only_zybooks : bool) (t : table) :
  search_rows newest only_zybooks [] t
  = limit 50 (newest (filter (TrafficAnalyzerCLI.host_filter only_zybooks)
                             (rows t)))
  /\ search_rows newest only_zybooks (Py.lit "%") t
     = limit 50 (newest (filter (TrafficAnalyzerCLI.host_filter only_zybooks)
                                (rows t))).
Proof.
  assert (H : forall q, q = [] \/ q = [37] ->
                        search_rows newest only_zybooks q t
                        = limit 50
                            (newest
                               (filter
                                  (TrafficAnalyzerCLI.host_filter only_zybooks)
                                  (rows t)))).
  { intros q Hq. rewrite search_rows_selects.
    f_equal. f_equal. apply filter_ext. intros r.
    rewrite !(like_anywhere_percent q _ Hq). reflexivity. }
  split; apply H; [left | right]; reflexivity.
Qed.

End Commands.
